(** * WOOHAN services: a shallow embedding of the TypeScript sources

    The development follows the four service modules of the repository:

    - [services/semanticService]  (cosine similarity),
    - [services/memoryService]    (dynamic memory model),
    - [services/eventService]     (event validation and significance),
    - [services/identityService]  (identity encoding, privacy accounting),

    together with [_core/errors] and [_core/config].

    Modelling conventions.

    - A JavaScript [number] is a real number.  Arithmetic is exact: there is
      no rounding, no overflow and no [NaN]/[Infinity] value.  [Math.sqrt],
      [Math.log] and [Math.pow] are [sqrt], [ln] and [Rpower]; they agree
      with JavaScript on non-negative arguments, positive arguments and
      positive bases respectively.  Outside these (a random draw [0] passed
      to [Math.log], a [PRIVACY_DELTA] above 2 in [calculateAggregateLoss])
      JavaScript yields [-Infinity] or [NaN] and the model says nothing.
      Bounds are therefore stated with a margin that the rounding of
      double-precision arithmetic does not use up, on ranges of inputs
      where no square, quotient or product leaves the range of doubles;
      identities that hold only in exact arithmetic are not stated.
    - Where the code can compute [NaN] from its input, as the scorer of
      [eventService] does from metadata of arbitrary values, a number is a
      [Js.number]: a real or [NaN].
    - Values whose run-time type is inspected by the code ([typeof],
      [instanceof], truthiness) are elements of [Js.value].
    - [Date.now()], [new Date()] and [Math.random()] read from a [World]
      which is threaded through the effectful functions; a rejected promise
      or a thrown exception is the outcome [Throw].
    - Logger calls have no effect on results and are left out. *)

From Stdlib Require Import Reals Lra Lia Psatz List String Ascii ZArith Bool.
From Stdlib Require Import Permutation.
Import ListNotations.
Local Open Scope R_scope.

(* ================================================================= *)
(** ** JavaScript values, numbers and arrays *)

Module Js.

(** Comparisons on numbers, as booleans. *)
Definition ltb (x y : R) : bool := if Rlt_dec x y then true else false.
Definition gtb (x y : R) : bool := if Rgt_dec x y then true else false.
Definition geb (x y : R) : bool := if Rge_dec x y then true else false.

Definition leb (x y : R) : bool := if Rle_dec x y then true else false.

(** Truthiness of a number: [0] is falsy. *)
Definition truthy_number (x : R) : bool :=
  if Req_dec_T x 0 then false else true.

Definition Math_sign (x : R) : R :=
  if Rlt_dec 0 x then 1 else if Rlt_dec x 0 then -1 else 0.

(** [Math.pow] for a positive base. *)
Definition Math_pow (base exponent : R) : R := Rpower base exponent.

(** Dynamically typed values.  [num] carries integral numbers such as
    epoch milliseconds; a [date] carries its time value, [None] for an
    invalid date. *)
Inductive value : Type :=
| undefined
| null
| boolean (b : bool)
| num (z : Z)
| nan
| str (s : string)
| date (t : option Z)
| object.

Definition truthy (v : value) : bool :=
  match v with
  | undefined | null | nan => false
  | boolean b => b
  | num z => negb (z =? 0)%Z
  | str s => negb (String.eqb s EmptyString)
  | date _ | object => true
  end.

(** [typeof v === 'string'] *)
Definition is_string (v : value) : bool :=
  match v with str _ => true | _ => false end.

(** [v instanceof Date] *)
Definition instanceof_Date (v : value) : bool :=
  match v with date _ => true | _ => false end.

(** The characters of a value known to be a string. *)
Definition string_of (v : value) : string :=
  match v with str s => s | _ => EmptyString end.

(** [Array.prototype.map] with the index passed to the callback. *)
Fixpoint mapi_from {A B : Type} (f : A -> nat -> B) (i : nat) (l : list A)
  : list B :=
  match l with
  | [] => []
  | x :: l' => f x i :: mapi_from f (S i) l'
  end.

Definition mapi {A B : Type} (f : A -> nat -> B) (l : list A) : list B :=
  mapi_from f 0 l.

(** [Array.prototype.reduce] with an initial value. *)
Definition reduce {A B : Type} (f : B -> A -> B) (l : list A) (init : B) : B :=
  fold_left f l init.

(** [for (let i = 0; i < n; i++) body] over an accumulator. *)
Definition for_range {S : Type} (n : nat) (body : S -> nat -> S) (init : S) : S :=
  fold_left body (seq 0 n) init.

(** [a[i]] on an array of numbers that is read in range. *)
Definition get (a : list R) (i : nat) : R := nth i a 0.

(** [a[i] || 0]: an absent entry and a zero entry both give [0]. *)
Definition get_or_0 (a : list R) (i : nat) : R := nth i a 0.

(** [a[i] = v] on an index of the array. *)
Fixpoint set (a : list R) (i : nat) (v : R) : list R :=
  match a, i with
  | [], _ => []
  | _ :: a', O => v :: a'
  | x :: a', S i' => x :: set a' i' v
  end.

(** [s.has(x)] on a [Set] of strings, kept as the list of its elements. *)
Definition has (s : list string) (x : string) : bool :=
  existsb (String.eqb x) s.

(** [Math.sqrt(a.reduce((sum, v) => sum + v * v, 0))] *)
Definition norm (a : list R) : R :=
  sqrt (reduce (fun sum v => sum + v * v) a 0).

Definition charCodeAt0 (c : ascii) : Z := Z.of_nat (nat_of_ascii c).

(** [s.length] *)
Definition length_of (s : string) : Z := Z.of_nat (String.length s).

(** Conversion to a 32-bit signed integer, as done by [<<] and [&]. *)
Definition toInt32 (z : Z) : Z :=
  ((z + 2147483648) mod 4294967296 - 2147483648)%Z.

(** *** Numbers that may be [NaN], values of type [any]

    A [number] is a real or [NaN]; the two infinities are left out.  An
    arithmetic operation, [Math.min] and [Math.max] give [NaN] as soon as
    an operand is [NaN]; a comparison with [NaN] is false. *)
Inductive number : Type :=
| fin (x : R)
| NaN.

Definition lift1 (f : R -> R) (a : number) : number :=
  match a with
  | fin x => fin (f x)
  | NaN => NaN
  end.

Definition lift2 (f : R -> R -> R) (a b : number) : number :=
  match a, b with
  | fin x, fin y => fin (f x y)
  | _, _ => NaN
  end.

Definition add : number -> number -> number := lift2 Rplus.
Definition sub : number -> number -> number := lift2 Rminus.
Definition mul : number -> number -> number := lift2 Rmult.
Definition Math_min : number -> number -> number := lift2 Rmin.
Definition Math_max : number -> number -> number := lift2 Rmax.
Definition Math_exp : number -> number := lift1 exp.

(** [a >= b] *)
Definition ge (a b : number) : bool :=
  match a, b with
  | fin x, fin y => geb x y
  | _, _ => false
  end.

(** A value of type [any]: a number with a fractional part, or one of the
    values above ([object] is then a plain object).  Symbols and big
    integers, whose conversion to a number throws, are left out. *)
Inductive any : Type :=
| real (x : R)
| other (v : value).

Definition truthy_any (v : any) : bool :=
  match v with
  | real x => truthy_number x
  | other v => truthy v
  end.

Definition of_time (t : option Z) : number :=
  match t with
  | Some t => fin (IZR t)
  | None => NaN
  end.

(** The conversion of a value to a number, as [Math.min] applies it to its
    arguments.  [Number_of_string] is the conversion of a string. *)
Definition ToNumber (Number_of_string : string -> number) (v : any) : number :=
  match v with
  | real x => fin x
  | other undefined => NaN
  | other null => fin 0
  | other (boolean b) => fin (if b then 1 else 0)
  | other (num z) => fin (IZR z)
  | other nan => NaN
  | other (str s) => Number_of_string s
  | other (date t) => of_time t
  | other object => NaN
  end.

(** The integral part of a number, rounded towards zero. *)
Definition truncate (x : R) : Z :=
  if Rle_dec 0 x then Int_part x else (- Int_part (- x))%Z.

(** [TimeClip]: a time value is integral and at most 8.64e15 away from the
    epoch. *)
Definition TimeClip (x : R) : number :=
  if Rle_dec (Rabs x) 8640000000000000 then fin (IZR (truncate x)) else NaN.

(** [new Date(v).getTime()]: the time value of a [Date] is kept, a string is
    parsed by [Date_parse], any other value is converted to a number and
    clipped; a plain object is first printed as [[object Object]]. *)
Definition Date_getTime (Date_parse : string -> option Z) (v : any) : number :=
  match v with
  | real x => TimeClip x
  | other undefined => NaN
  | other null => fin 0
  | other (boolean b) => fin (if b then 1 else 0)
  | other (num z) => TimeClip (IZR z)
  | other nan => NaN
  | other (str s) => of_time (Date_parse s)
  | other (date t) => of_time t
  | other object => of_time (Date_parse "[object Object]"%string)
  end.

End Js.

(* ================================================================= *)
(** ** _core/errors *)

Module Errors.

(** [details] is not modelled. *)
Record AppError : Type := mkAppError {
  name : string;
  message : string;
  statusCode : Z;
  code : string
}.

Definition ValidationError (message : string) : AppError :=
  {| name := "ValidationError";
     message := message;
     statusCode := 400;
     code := "VALIDATION_ERROR" |}.

End Errors.

(* ================================================================= *)
(** ** _core/config *)

Module Config.

Record t : Type := mk {
  MEMORY_DIMENSION : nat;
  LEARNING_RATE : R;
  GRADIENT_CLIP_NORM : R;
  SIGNIFICANCE_THRESHOLD : R;
  PRIVACY_EPSILON : R;
  PRIVACY_DELTA : R
}.

(** What [configSchema] accepts for the fields above. *)
Definition configSchema (c : t) : Prop :=
  (0 < MEMORY_DIMENSION c)%nat /\
  0 < LEARNING_RATE c /\
  0 < GRADIENT_CLIP_NORM c /\
  0 <= SIGNIFICANCE_THRESHOLD c <= 1 /\
  0 < PRIVACY_EPSILON c /\
  0 < PRIVACY_DELTA c.

(** The schema's default values. *)
Definition defaults : t :=
  {| MEMORY_DIMENSION := 256;
     LEARNING_RATE := 0.001;
     GRADIENT_CLIP_NORM := 1.0;
     SIGNIFICANCE_THRESHOLD := 0.5;
     PRIVACY_EPSILON := 1.0;
     PRIVACY_DELTA := 0.00001 |}.

End Config.

(* ================================================================= *)
(** ** The clock, the random source and exceptions *)

Module Runtime.
Import Errors.

(** [clock n] is the [n]-th reading of the system clock (epoch
    milliseconds), [rng n] the [n]-th result of [Math.random()]. *)
Record World : Type := mkWorld {
  clock : nat -> Z;
  ticks : nat;
  rng : nat -> R;
  draws : nat
}.

Inductive Outcome (A : Type) : Type :=
| Ok (a : A)
| Throw (e : AppError).
Arguments Ok {A} a.
Arguments Throw {A} e.

Definition Eff (A : Type) : Type := World -> Outcome A * World.

Definition ret {A : Type} (a : A) : Eff A := fun w => (Ok a, w).

Definition throw {A : Type} (e : AppError) : Eff A := fun w => (Throw e, w).

Definition bind {A B : Type} (m : Eff A) (k : A -> Eff B) : Eff B :=
  fun w =>
    match m w with
    | (Ok a, w') => k a w'
    | (Throw e, w') => (Throw e, w')
    end.

(** [Date.now()] and [new Date().getTime()] *)
Definition Date_now : Eff Z :=
  fun w => (Ok (clock w (ticks w)),
            {| clock := clock w; ticks := S (ticks w);
               rng := rng w; draws := draws w |}).

(** [Math.random()] *)
Definition Math_random : Eff R :=
  fun w => (Ok (rng w (draws w)),
            {| clock := clock w; ticks := ticks w;
               rng := rng w; draws := S (draws w) |}).

(** [a.map(f)] for an effectful callback, left to right. *)
Fixpoint mapM {A B : Type} (f : A -> Eff B) (l : list A) : Eff (list B) :=
  match l with
  | [] => ret []
  | x :: l' => bind (f x) (fun y => bind (mapM f l') (fun ys => ret (y :: ys)))
  end.

(** [Promise.all(a.map(f))] for an [async] callback that runs without an
    [await]: the calls run one after the other, also after one that
    failed, and the first failure, if any, is the outcome. *)
Fixpoint Promise_all_map {A B : Type} (f : A -> Eff B) (l : list A)
  : Eff (list B) :=
  match l with
  | [] => ret []
  | x :: l' =>
      fun w =>
        match f x w with
        | (Ok y, w1) =>
            match Promise_all_map f l' w1 with
            | (Ok ys, w2) => (Ok (y :: ys), w2)
            | (Throw e, w2) => (Throw e, w2)
            end
        | (Throw e, w1) => (Throw e, snd (Promise_all_map f l' w1))
        end
  end.

(** The clock never runs backwards and [Math.random()] is in [[0,1)]. *)
Definition well_formed (w : World) : Prop :=
  (forall n m : nat, (n <= m)%nat -> (clock w n <= clock w m)%Z) /\
  (forall n : nat, 0 <= rng w n < 1).

End Runtime.

Declare Scope eff_scope.
Delimit Scope eff_scope with eff.
Notation "x <- c ;; k" := (Runtime.bind c (fun x => k))
  (at level 61, c at next level, right associativity) : eff_scope.
Notation "c ;;; k" := (Runtime.bind c (fun _ => k))
  (at level 61, right associativity) : eff_scope.

(* ================================================================= *)
(** ** services/semanticService *)

Module SemanticService.
Import Errors Runtime.

(** The three running sums of the similarity loop. *)
Record Sums : Type := mkSums {
  dotProduct : R;
  norm1 : R;
  norm2 : R
}.

Definition similarity_loop (vec1 vec2 : list R) : Sums :=
  Js.for_range (List.length vec1)
    (fun acc i =>
       {| dotProduct := dotProduct acc + Js.get vec1 i * Js.get vec2 i;
          norm1 := norm1 acc + Js.get vec1 i * Js.get vec1 i;
          norm2 := norm2 acc + Js.get vec2 i * Js.get vec2 i |})
    {| dotProduct := 0; norm1 := 0; norm2 := 0 |}.

Definition calculateCosineSimilarity (vec1 vec2 : list R) : Outcome R :=
  if negb (List.length vec1 =? List.length vec2)%nat then
    Throw (ValidationError "Vector dimensions must match")
  else
    let sums := similarity_loop vec1 vec2 in
    let denominator := sqrt (norm1 sums) * sqrt (norm2 sums) in
    if Req_dec_T denominator 0 then Ok 0
    else Ok (dotProduct sums / denominator).

End SemanticService.

(* ================================================================= *)
(** ** services/memoryService *)

Module MemoryService.
Import Errors Runtime.
Local Open Scope eff_scope.

Record MemoryState : Type := mkMemoryState {
  userId : string;
  dimension : nat;
  state : list R;
  lastUpdate : Z;
  eventCount : nat;
  significantEventCount : nat;
  totalLearningUpdates : nat
}.

Record Metrics : Type := mkMetrics {
  significance : R;
  learningApplied : bool;
  stateChange : R
}.

Record MemoryUpdateResult : Type := mkMemoryUpdateResult {
  result_userId : string;
  updated : bool;
  memoryState : MemoryState;
  metrics : Metrics
}.

Record LearningMetrics : Type := mkLearningMetrics {
  metrics_userId : string;
  totalEvents : nat;
  significantEvents : nat;
  learningUpdates : nat;
  avgSignificance : R;
  privacyEpsilon : R;
  metrics_lastUpdate : Z
}.

(** The loop of [calculateMemorySimilarity] is the one of
    [calculateCosineSimilarity]. *)
Definition calculateMemorySimilarity (state1 state2 : list R) : Outcome R :=
  if negb (List.length state1 =? List.length state2)%nat then
    Throw (ValidationError "Memory states must have same dimension")
  else
    let sums := SemanticService.similarity_loop state1 state2 in
    let denominator :=
      sqrt (SemanticService.norm1 sums) * sqrt (SemanticService.norm2 sums) in
    if Req_dec_T denominator 0 then Ok 0
    else Ok (SemanticService.dotProduct sums / denominator).

(** [resetMemory] only logs. *)
Definition resetMemory (userId : string) : Eff unit := ret tt.

Section WithConfig.
Variable config : Config.t.

Definition initializeMemory (userId : string) : Eff MemoryState :=
  let dimension := Config.MEMORY_DIMENSION config in
  state <- mapM (fun _ : R => r <- Math_random ;; ret ((r - 0.5) * 0.01))
                (repeat 0 dimension) ;;
  now <- Date_now ;;
  ret {| userId := userId;
         dimension := dimension;
         state := state;
         lastUpdate := now;
         eventCount := 0;
         significantEventCount := 0;
         totalLearningUpdates := 0 |}.

Definition getMemoryState (userId : string) : Eff MemoryState :=
  initializeMemory userId.

Definition applyTimeDecay (state : list R) (lastUpdate : Z) (decayFactor : R)
  : Eff (list R) :=
  now <- Date_now ;;
  let timeDeltaMs := (now - lastUpdate)%Z in
  let timeDeltaDays := IZR timeDeltaMs / (1000 * 60 * 60 * 24) in
  let decay := Js.Math_pow decayFactor timeDeltaDays in
  ret (map (fun value => value * decay) state).

Definition applyLSTMUpdate (memoryState eventEmbedding : list R)
           (learningRate : R) : list R :=
  Js.mapi
    (fun value i =>
       let embedding := Js.get_or_0 eventEmbedding i in
       let forgetGate := tanh (value * 0.9) in
       let inputGate := tanh embedding in
       forgetGate * (1 - learningRate) + inputGate * learningRate)
    memoryState.

Definition calculateStateChange (oldState newState : list R) : R :=
  sqrt (Js.for_range (List.length oldState)
          (fun sumSquares i =>
             let diff := Js.get newState i - Js.get oldState i in
             sumSquares + diff * diff)
          0).

(** The body of [if (shouldLearn) { ... }] in [updateMemory]: the new
    value of [updatedState] and of [stateChange]. *)
Definition learn (decayedState eventEmbedding : list R) (significance : R)
  : list R * R :=
  let learningRate := Config.LEARNING_RATE config * significance in
  let updatedState :=
    applyLSTMUpdate decayedState eventEmbedding learningRate in
  let stateChange := calculateStateChange decayedState updatedState in
  let clipNorm := Config.GRADIENT_CLIP_NORM config in
  if Js.gtb stateChange clipNorm then
    let scale := clipNorm / stateChange in
    (Js.mapi
       (fun v i =>
          Js.get decayedState i + (v - Js.get decayedState i) * scale)
       updatedState,
     stateChange)
  else (updatedState, stateChange).

Definition updateMemory (userId : string) (eventEmbedding : list R)
           (significance : R) : Eff MemoryUpdateResult :=
  if Js.ltb significance 0 || Js.gtb significance 1 then
    throw (ValidationError "Significance must be between 0 and 1")
  else if negb (List.length eventEmbedding =? Config.MEMORY_DIMENSION config)%nat then
    throw (ValidationError "Event embedding dimension mismatch")
  else
    memoryState <- getMemoryState userId ;;
    decayedState <- applyTimeDecay (state memoryState)
                                   (lastUpdate memoryState) 0.99 ;;
    let threshold := Config.SIGNIFICANCE_THRESHOLD config in
    let shouldLearn := Js.geb significance threshold in
    let step :=
      if shouldLearn
      then learn decayedState eventEmbedding significance
      else (decayedState, 0) in
    let updatedState := fst step in
    let stateChange := snd step in
    now <- Date_now ;;
    ret {| result_userId := userId;
           updated := shouldLearn;
           memoryState :=
             {| userId := MemoryService.userId memoryState;
                dimension := dimension memoryState;
                state := updatedState;
                lastUpdate := now;
                eventCount := (eventCount memoryState + 1)%nat;
                significantEventCount :=
                  if shouldLearn
                  then (significantEventCount memoryState + 1)%nat
                  else significantEventCount memoryState;
                totalLearningUpdates :=
                  if shouldLearn
                  then (totalLearningUpdates memoryState + 1)%nat
                  else totalLearningUpdates memoryState |};
           metrics :=
             {| significance := significance;
                learningApplied := shouldLearn;
                stateChange := stateChange |} |}.

(** The [for (const event of events)] loop of [batchUpdateMemory]; an event
    is its embedding and its significance. *)
Definition batch_loop (userId : string) (events : list (list R * R))
           (memoryState : MemoryState) : Eff MemoryState :=
  fold_left
    (fun acc event =>
       _ <- acc ;;
       result <- updateMemory userId (fst event) (snd event) ;;
       ret (MemoryService.memoryState result))
    events (ret memoryState).

Definition batchUpdateMemory (userId : string) (events : list (list R * R))
  : Eff MemoryState :=
  memoryState <- getMemoryState userId ;;
  batch_loop userId events memoryState.

Definition getLearningMetrics (userId : string) : Eff LearningMetrics :=
  memoryState <- getMemoryState userId ;;
  let avgSignificance :=
    if (0 <? significantEventCount memoryState)%nat
    then INR (significantEventCount memoryState) / INR (eventCount memoryState)
    else 0 in
  ret {| metrics_userId := userId;
         totalEvents := eventCount memoryState;
         significantEvents := significantEventCount memoryState;
         learningUpdates := totalLearningUpdates memoryState;
         avgSignificance := avgSignificance;
         privacyEpsilon := Config.PRIVACY_EPSILON config;
         metrics_lastUpdate := lastUpdate memoryState |}.

End WithConfig.

End MemoryService.

(* ================================================================= *)
(** ** services/eventService *)

Module EventService.
Import Errors Runtime.
Local Open Scope eff_scope.

(** The two entries of [metadata] that the scorer reads.  A present
    [timestamp] is a [Date], given by its epoch milliseconds. *)
Module Metadata.
Record t : Type := mk {
  importance : option R;
  timestamp : option Z
}.
Definition empty : t := {| importance := None; timestamp := None |}.
End Metadata.

Module EventInput.
Record t : Type := mk {
  userId : Js.value;
  content : Js.value;
  metadata : option Metadata.t;
  timestamp : Js.value
}.
End EventInput.

(** [eventId] is kept as the clock reading and the random draw it is
    printed from. *)
Module ProcessedEvent.
Record t : Type := mk {
  eventId : Z * R;
  userId : string;
  content : string;
  embedding : list R;
  significance : R;
  metadata : Metadata.t;
  timestamp : Js.value;
  processingTime : Z
}.
End ProcessedEvent.

(** The formatted [reason] text is not modelled. *)
Module EventProcessingResult.
Record t : Type := mk {
  event : ProcessedEvent.t;
  significant : bool;
  learningTriggered : bool
}.
End EventProcessingResult.

Definition validateEvent (event : EventInput.t) : Outcome unit :=
  if negb (Js.truthy (EventInput.userId event))
     || negb (Js.is_string (EventInput.userId event)) then
    Throw (ValidationError "Invalid userId")
  else if negb (Js.truthy (EventInput.content event))
          || negb (Js.is_string (EventInput.content event)) then
    Throw (ValidationError "Invalid content")
  else if (Js.length_of (Js.string_of (EventInput.content event)) <? 5)%Z then
    Throw (ValidationError "Content too short (minimum 5 characters)")
  else if (10000 <? Js.length_of (Js.string_of (EventInput.content event)))%Z then
    Throw (ValidationError "Content too long (maximum 10000 characters)")
  else if Js.truthy (EventInput.timestamp event)
          && negb (Js.instanceof_Date (EventInput.timestamp event)) then
    Throw (ValidationError "Invalid timestamp")
  else Ok tt.

Definition generateEventId : Eff (Z * R) :=
  now <- Date_now ;;
  r <- Math_random ;;
  ret (now, r).

Section WithConfig.
Variable config : Config.t.

Definition createEmbedding (content : string) : list R :=
  let hash :=
    Js.reduce (fun acc char => (acc + Js.charCodeAt0 char)%Z)
              (list_ascii_of_string content) 0%Z in
  let embedding :=
    map (fun i =>
           sin (IZR (hash + Z.of_nat i) * 0.1) * 0.5
           + cos (IZR (hash + Z.of_nat i) * 0.05) * 0.3)
        (seq 0 (Config.MEMORY_DIMENSION config)) in
  let norm := Js.norm embedding in
  map (fun v => v / (norm + 1e-8)) embedding.

Definition calculateSignificance (content : string) (embedding : list R)
           (metadata : option Metadata.t) : Eff R :=
  let metadata :=
    match metadata with Some m => m | None => Metadata.empty end in
  let score := 0.5 in
  let lengthFactor := Rmin (IZR (Js.length_of content) / 500) 1.0 * 0.2 in
  let score := score + lengthFactor in
  let magnitude := Js.norm embedding in
  let magnitudeFactor := Rmin magnitude 1.0 * 0.2 in
  let score := score + magnitudeFactor in
  let score :=
    match Metadata.importance metadata with
    | Some importance =>
        if Js.truthy_number importance
        then score + Rmin importance 1.0 * 0.2
        else score
    | None => score
    end in
  score <-
    match Metadata.timestamp metadata with
    | Some timestamp =>
        now <- Date_now ;;
        let ageMs := (now - timestamp)%Z in
        let ageDays := IZR ageMs / (1000 * 60 * 60 * 24) in
        let recencyFactor := exp (- ageDays / 30) * 0.1 in
        ret (score + recencyFactor)
    | None => ret score
    end ;;
  ret (Rmin (Rmax score 0) 1).

Definition processEvent (event : EventInput.t)
  : Eff EventProcessingResult.t :=
  startTime <- Date_now ;;
  match validateEvent event with
  | Throw e => throw e
  | Ok _ =>
      let content := Js.string_of (EventInput.content event) in
      let embedding := createEmbedding content in
      significance <-
        calculateSignificance content embedding (EventInput.metadata event) ;;
      eventId <- generateEventId ;;
      timestamp <-
        (if Js.truthy (EventInput.timestamp event)
         then ret (EventInput.timestamp event)
         else now <- Date_now ;; ret (Js.date (Some now))) ;;
      endTime <- Date_now ;;
      let processedEvent :=
        {| ProcessedEvent.eventId := eventId;
           ProcessedEvent.userId := Js.string_of (EventInput.userId event);
           ProcessedEvent.content := content;
           ProcessedEvent.embedding := embedding;
           ProcessedEvent.significance := significance;
           ProcessedEvent.metadata :=
             match EventInput.metadata event with
             | Some m => m
             | None => Metadata.empty
             end;
           ProcessedEvent.timestamp := timestamp;
           ProcessedEvent.processingTime := (endTime - startTime)%Z |} in
      let threshold := Config.SIGNIFICANCE_THRESHOLD config in
      let significant := Js.geb significance threshold in
      ret {| EventProcessingResult.event := processedEvent;
             EventProcessingResult.significant := significant;
             EventProcessingResult.learningTriggered := significant |}
  end.

(** The text of an event id, [evt_<clock reading>_<digits of the draw>]. *)
Variable eventId_text : Z * R -> string.

Definition calculateEmbeddingSimilarity (embedding1 embedding2 : list R) : R :=
  if negb (List.length embedding1 =? List.length embedding2)%nat then 0
  else
    (* the same loop as in [calculateCosineSimilarity] *)
    let sums := SemanticService.similarity_loop embedding1 embedding2 in
    let denominator :=
      sqrt (SemanticService.norm1 sums) * sqrt (SemanticService.norm2 sums) in
    if Req_dec_T denominator 0 then 0
    else SemanticService.dotProduct sums / denominator.

Definition calculateEmbeddingDistance (embedding1 embedding2 : list R) : R :=
  sqrt (Js.for_range (List.length embedding1)
          (fun sumSquares i =>
             let diff := Js.get embedding1 i - Js.get embedding2 i in
             sumSquares + diff * diff)
          0).

(** The inner loop of [detectEventClusters]: the cluster seeded by [event]
    and the set of processed ids. *)
Definition cluster_loop (events : list ProcessedEvent.t)
           (similarityThreshold : R) (event : ProcessedEvent.t)
           (processed : list string)
  : list ProcessedEvent.t * list string :=
  fold_left
    (fun acc other =>
       let cluster := fst acc in
       let processed := snd acc in
       if Js.has processed (eventId_text (ProcessedEvent.eventId other))
       then acc
       else
         let similarity :=
           calculateEmbeddingSimilarity (ProcessedEvent.embedding event)
                                        (ProcessedEvent.embedding other) in
         if Js.geb similarity similarityThreshold
         then (cluster ++ [other],
               eventId_text (ProcessedEvent.eventId other) :: processed)
         else acc)
    events
    ([event], eventId_text (ProcessedEvent.eventId event) :: processed).

(** [similarityThreshold] defaults to 0.7. *)
Definition detectEventClusters (events : list ProcessedEvent.t)
           (similarityThreshold : R) : list (list ProcessedEvent.t) :=
  if (List.length events =? 0)%nat then []
  else
    fst (fold_left
           (fun acc event =>
              let clusters := fst acc in
              let processed := snd acc in
              if Js.has processed (eventId_text (ProcessedEvent.eventId event))
              then acc
              else
                let inner :=
                  cluster_loop events similarityThreshold event processed in
                (clusters ++ [fst inner], snd inner))
           events ([], [])).

(** The first two loops of [detectAnomalies]: the average embedding, summed
    and divided in place at indices of the array. *)
Definition average_embedding (events : list ProcessedEvent.t) : list R :=
  let avgEmbedding := repeat 0 (Config.MEMORY_DIMENSION config) in
  let avgEmbedding :=
    fold_left
      (fun avgEmbedding event =>
         Js.for_range (List.length (ProcessedEvent.embedding event))
           (fun avgEmbedding i =>
              Js.set avgEmbedding i
                (Js.get avgEmbedding i
                 + Js.get (ProcessedEvent.embedding event) i))
           avgEmbedding)
      events avgEmbedding in
  Js.for_range (List.length avgEmbedding)
    (fun avgEmbedding i =>
       Js.set avgEmbedding i
         (Js.get avgEmbedding i / INR (List.length events)))
    avgEmbedding.

(** [anomalyThreshold] defaults to 0.1. *)
Definition detectAnomalies (events : list ProcessedEvent.t)
           (anomalyThreshold : R) : list ProcessedEvent.t :=
  if (List.length events <? 2)%nat then []
  else
    let avgEmbedding := average_embedding events in
    fold_left
      (fun anomalies event =>
         let distance :=
           calculateEmbeddingDistance (ProcessedEvent.embedding event)
                                      avgEmbedding in
         let avgDistance :=
           Js.reduce
             (fun sum e =>
                sum + calculateEmbeddingDistance (ProcessedEvent.embedding e)
                                                 avgEmbedding)
             events 0
           / INR (List.length events) in
         if Js.gtb distance (avgDistance * (1 + anomalyThreshold))
         then anomalies ++ [event]
         else anomalies)
      events [].

End WithConfig.

(** *** Metadata of arbitrary values

    [metadata] is a [Record<string, any>] that [validateEvent] never reads:
    the router hands over whatever the caller sent.  [Untyped] embeds the
    same functions for such events.  The entries [importance] and
    [timestamp] are values of any type, an absent entry is [undefined], and
    a score is a number that may be [NaN]. *)
Module Untyped.

Module Metadata.
Record t : Type := mk {
  importance : Js.any;
  timestamp : Js.any
}.
Definition empty : t :=
  {| importance := Js.other Js.undefined; timestamp := Js.other Js.undefined |}.
End Metadata.

Module EventInput.
Record t : Type := mk {
  userId : Js.value;
  content : Js.value;
  metadata : option Metadata.t;
  timestamp : Js.value
}.
End EventInput.

Module ProcessedEvent.
Record t : Type := mk {
  eventId : Z * R;
  userId : string;
  content : string;
  embedding : list R;
  significance : Js.number;
  metadata : Metadata.t;
  timestamp : Js.value;
  processingTime : Z
}.
End ProcessedEvent.

Module EventProcessingResult.
Record t : Type := mk {
  event : ProcessedEvent.t;
  significant : bool;
  learningTriggered : bool
}.
End EventProcessingResult.

Definition validateEvent (event : EventInput.t) : Outcome unit :=
  if negb (Js.truthy (EventInput.userId event))
     || negb (Js.is_string (EventInput.userId event)) then
    Throw (ValidationError "Invalid userId")
  else if negb (Js.truthy (EventInput.content event))
          || negb (Js.is_string (EventInput.content event)) then
    Throw (ValidationError "Invalid content")
  else if (Js.length_of (Js.string_of (EventInput.content event)) <? 5)%Z then
    Throw (ValidationError "Content too short (minimum 5 characters)")
  else if (10000 <? Js.length_of (Js.string_of (EventInput.content event)))%Z then
    Throw (ValidationError "Content too long (maximum 10000 characters)")
  else if Js.truthy (EventInput.timestamp event)
          && negb (Js.instanceof_Date (EventInput.timestamp event)) then
    Throw (ValidationError "Invalid timestamp")
  else Ok tt.

Section WithConfig.
Variable config : Config.t.

(** The conversion of a string to a number and [Date.parse], as the host
    provides them. *)
Variable Number_of_string : string -> Js.number.
Variable Date_parse : string -> option Z.

Definition calculateSignificance (content : string) (embedding : list R)
           (metadata : option Metadata.t) : Eff Js.number :=
  let metadata :=
    match metadata with Some m => m | None => Metadata.empty end in
  let score := Js.fin 0.5 in
  let lengthFactor := Rmin (IZR (Js.length_of content) / 500) 1.0 * 0.2 in
  let score := Js.add score (Js.fin lengthFactor) in
  let magnitude := Js.norm embedding in
  let magnitudeFactor := Rmin magnitude 1.0 * 0.2 in
  let score := Js.add score (Js.fin magnitudeFactor) in
  let score :=
    if Js.truthy_any (Metadata.importance metadata)
    then
      Js.add score
        (Js.mul
           (Js.Math_min
              (Js.ToNumber Number_of_string (Metadata.importance metadata))
              (Js.fin 1.0))
           (Js.fin 0.2))
    else score in
  score <-
    (if Js.truthy_any (Metadata.timestamp metadata)
     then
       now <- Date_now ;;
       let ageMs :=
         Js.sub (Js.fin (IZR now))
                (Js.Date_getTime Date_parse (Metadata.timestamp metadata)) in
       let ageDays := Js.lift1 (fun ms => ms / (1000 * 60 * 60 * 24)) ageMs in
       let recencyFactor :=
         Js.mul (Js.Math_exp (Js.lift1 (fun days => - days / 30) ageDays))
                (Js.fin 0.1) in
       ret (Js.add score recencyFactor)
     else ret score) ;;
  ret (Js.Math_min (Js.Math_max score (Js.fin 0)) (Js.fin 1)).

Definition processEvent (event : EventInput.t)
  : Eff EventProcessingResult.t :=
  startTime <- Date_now ;;
  match validateEvent event with
  | Throw e => throw e
  | Ok _ =>
      let content := Js.string_of (EventInput.content event) in
      let embedding := createEmbedding config content in
      significance <-
        calculateSignificance content embedding (EventInput.metadata event) ;;
      eventId <- generateEventId ;;
      timestamp <-
        (if Js.truthy (EventInput.timestamp event)
         then ret (EventInput.timestamp event)
         else now <- Date_now ;; ret (Js.date (Some now))) ;;
      endTime <- Date_now ;;
      let processedEvent :=
        {| ProcessedEvent.eventId := eventId;
           ProcessedEvent.userId := Js.string_of (EventInput.userId event);
           ProcessedEvent.content := content;
           ProcessedEvent.embedding := embedding;
           ProcessedEvent.significance := significance;
           ProcessedEvent.metadata :=
             match EventInput.metadata event with
             | Some m => m
             | None => Metadata.empty
             end;
           ProcessedEvent.timestamp := timestamp;
           ProcessedEvent.processingTime := (endTime - startTime)%Z |} in
      let threshold := Config.SIGNIFICANCE_THRESHOLD config in
      let significant := Js.ge significance (Js.fin threshold) in
      ret {| EventProcessingResult.event := processedEvent;
             EventProcessingResult.significant := significant;
             EventProcessingResult.learningTriggered := significant |}
  end.

End WithConfig.

(** The metadata of [Metadata.t], an importance that is a number and a
    timestamp that is a valid [Date], among the metadata of arbitrary
    values. *)
Definition of_typed (m : EventService.Metadata.t) : Metadata.t :=
  {| Metadata.importance :=
       match EventService.Metadata.importance m with
       | Some importance => Js.real importance
       | None => Js.other Js.undefined
       end;
     Metadata.timestamp :=
       match EventService.Metadata.timestamp m with
       | Some t => Js.other (Js.date (Some t))
       | None => Js.other Js.undefined
       end |}.

End Untyped.

End EventService.

(* ================================================================= *)
(** ** services/identityService *)

Module IdentityService.
Import Errors Runtime.
Local Open Scope eff_scope.

(** [data] is [None] when it is missing or not an object, otherwise the
    object's own entries in key order. *)
Module IdentityInput.
Record t : Type := mk {
  userId : Js.value;
  data : option (list (string * Js.value));
  privacyLevel : option string
}.
End IdentityInput.

Module EncodedIdentity.
Record metadata_t : Type := mkMetadata {
  dataFields : list string;
  embeddingNorm : R;
  noiseScale : R
}.
Record t : Type := mk {
  identityId : Z * R;
  userId : string;
  embedding : list R;
  privacyEpsilon : R;
  privacyDelta : R;
  privacyLevel : string;
  createdAt : Z;
  metadata : metadata_t
}.
End EncodedIdentity.

Module IdentitySimilarity.
Record t : Type := mk {
  userId1 : string;
  userId2 : string;
  similarity : R;
  privacyLoss : R
}.
End IdentitySimilarity.

Record Operation : Type := mkOperation { epsilon : R }.

(** The formatted [message] is not modelled. *)
Record Verification : Type := mkVerification {
  valid : bool;
  verified_epsilon : R;
  verified_delta : R
}.

Definition verifyPrivacyGuarantees (identity : EncodedIdentity.t)
  : Verification :=
  let maxEpsilon := 2.0 in
  let maxDelta := 0.0001 in
  let valid :=
    Js.leb (EncodedIdentity.privacyEpsilon identity) maxEpsilon
    && Js.leb (EncodedIdentity.privacyDelta identity) maxDelta in
  {| valid := valid;
     verified_epsilon := EncodedIdentity.privacyEpsilon identity;
     verified_delta := EncodedIdentity.privacyDelta identity |}.

(** [deleteIdentity] only logs. *)
Definition deleteIdentity (userId : string) : Eff unit := ret tt.

Definition generateIdentityId : Eff (Z * R) :=
  now <- Date_now ;;
  r <- Math_random ;;
  ret (now, r).

Definition known_level (level : string) : bool :=
  existsb (String.eqb level) ["high"; "medium"; "low"]%string.

Definition validateIdentity (identity : IdentityInput.t) : Outcome unit :=
  if negb (Js.truthy (IdentityInput.userId identity))
     || negb (Js.is_string (IdentityInput.userId identity)) then
    Throw (ValidationError "Invalid userId")
  else
    match IdentityInput.data identity with
    | None => Throw (ValidationError "Invalid data")
    | Some data =>
        if (List.length (map fst data) =? 0)%nat then
          Throw (ValidationError "Identity data cannot be empty")
        else
          match IdentityInput.privacyLevel identity with
          | Some level =>
              if negb (String.eqb level EmptyString) && negb (known_level level)
              then Throw (ValidationError "Invalid privacyLevel")
              else Ok tt
          | None => Ok tt
          end
    end.

Definition addLaplaceNoise (value scale : R) : Eff R :=
  u <- Math_random ;;
  r <- Math_random ;;
  let v := r - 0.5 in
  let noise := scale * ln u * Js.Math_sign v in
  ret (value + noise).

Section WithConfig.
Variable config : Config.t.

(** [JSON.stringify], a built-in of the host. *)
Variable JSON_stringify : list (string * Js.value) -> string.

Definition createIdentityEmbedding (data : list (string * Js.value))
  : list R :=
  let dataStr := JSON_stringify data in
  let hash :=
    fold_left
      (fun hash c =>
         let char := Js.charCodeAt0 c in
         let hash := (Js.toInt32 (hash * 32) - hash + char)%Z in
         Js.toInt32 hash)
      (list_ascii_of_string dataStr) 0%Z in
  let embedding :=
    map (fun i =>
           let seed := IZR (hash + Z.of_nat i) in
           sin (seed * 0.1) * 0.3 + cos (seed * 0.05) * 0.2
           + sin (seed * 0.02) * 0.1)
        (seq 0 (Config.MEMORY_DIMENSION config)) in
  let norm := Js.norm embedding in
  map (fun v => v / (norm + 1e-8)) embedding.

Definition calculateNoiseScale (privacyLevel : string) (sensitivity : R) : R :=
  let epsilon := Config.PRIVACY_EPSILON config in
  let adjustedEpsilon :=
    if String.eqb privacyLevel "high" then epsilon / 3
    else if String.eqb privacyLevel "low" then epsilon * 1.5
    else epsilon in
  sensitivity / adjustedEpsilon.

Definition applyDifferentialPrivacy (embedding : list R)
           (privacyLevel : string) : Eff (list R * R) :=
  let noiseScale := calculateNoiseScale privacyLevel 1.0 in
  noised <- mapM (fun value => addLaplaceNoise value noiseScale) embedding ;;
  let norm := Js.norm noised in
  let normalized := map (fun v => v / (norm + 1e-8)) noised in
  ret (normalized, noiseScale).

Definition encodeIdentity (identity : IdentityInput.t)
  : Eff EncodedIdentity.t :=
  match validateIdentity identity with
  | Throw e => throw e
  | Ok _ =>
      let privacyLevel :=
        match IdentityInput.privacyLevel identity with
        | Some level =>
            if String.eqb level EmptyString then "medium"%string else level
        | None => "medium"%string
        end in
      let data :=
        match IdentityInput.data identity with
        | Some d => d
        | None => []
        end in
      let baseEmbedding := createIdentityEmbedding data in
      noised <- applyDifferentialPrivacy baseEmbedding privacyLevel ;;
      let embedding := fst noised in
      let noiseScale := snd noised in
      let actualEpsilon :=
        Config.PRIVACY_EPSILON config
        * (if String.eqb privacyLevel "high" then 0.33
           else if String.eqb privacyLevel "low" then 1.5
           else 1) in
      identityId <- generateIdentityId ;;
      createdAt <- Date_now ;;
      ret {| EncodedIdentity.identityId := identityId;
             EncodedIdentity.userId :=
               Js.string_of (IdentityInput.userId identity);
             EncodedIdentity.embedding := embedding;
             EncodedIdentity.privacyEpsilon := actualEpsilon;
             EncodedIdentity.privacyDelta := Config.PRIVACY_DELTA config;
             EncodedIdentity.privacyLevel := privacyLevel;
             EncodedIdentity.createdAt := createdAt;
             EncodedIdentity.metadata :=
               {| EncodedIdentity.dataFields := map fst data;
                  EncodedIdentity.embeddingNorm := Js.norm embedding;
                  EncodedIdentity.noiseScale := noiseScale |} |}
  end.

Definition calculatePrivacyLoss (queryCount : R) : R :=
  let epsilon := Config.PRIVACY_EPSILON config in
  epsilon * sqrt queryCount.

Definition compareIdentities (identity1 identity2 : EncodedIdentity.t)
  : Outcome IdentitySimilarity.t :=
  let e1 := EncodedIdentity.embedding identity1 in
  let e2 := EncodedIdentity.embedding identity2 in
  if negb (List.length e1 =? List.length e2)%nat then
    Throw (ValidationError "Identity embeddings have different dimensions")
  else
(* the same loop as in [calculateCosineSimilarity] *)
let sums := SemanticService.similarity_loop e1 e2 in
let denominator :=
  sqrt (SemanticService.norm1 sums) * sqrt (SemanticService.norm2 sums) in
let similarity :=
  if Req_dec_T denominator 0 then 0
  else SemanticService.dotProduct sums / denominator in
let privacyLoss := calculatePrivacyLoss 1 in
Ok {| IdentitySimilarity.userId1 := EncodedIdentity.userId identity1;
      IdentitySimilarity.userId2 := EncodedIdentity.userId identity2;
      IdentitySimilarity.similarity := similarity;
      IdentitySimilarity.privacyLoss := privacyLoss |}.

Definition calculateAggregateLoss (operations : list Operation) : R :=
  let delta := Config.PRIVACY_DELTA config in
  let sumSquares :=
    Js.reduce (fun sum op => sum + epsilon op * epsilon op) operations 0 in
  let factor := sqrt (2 * ln (2 / delta)) in
  factor * sqrt sumSquares.

Definition batchEncodeIdentities (identities : list IdentityInput.t)
  : Eff (list EncodedIdentity.t) :=
  Promise_all_map encodeIdentity identities.

End WithConfig.

End IdentityService.

(* ================================================================= *)
(** ** Notions used to state the properties *)

Module Trace.
Import Runtime.

(** [big_sum f n] is [f 0 + ... + f (n-1)]. *)
Fixpoint big_sum (f : nat -> R) (n : nat) : R :=
  match n with
  | O => 0
  | S k => big_sum f k + f k
  end.

(** The world after [t] more clock readings and [d] more random draws. *)
Definition later (w : World) (t d : nat) : World :=
  {| clock := clock w; ticks := (ticks w + t)%nat;
     rng := rng w; draws := (draws w + d)%nat |}.

(** A world with a clock that advances by one millisecond per reading and
    a random source that always answers [u]. *)
Definition steady (u : R) : World :=
  {| clock := fun n => Z.of_nat n; ticks := 0; rng := fun _ => u; draws := 0 |}.

Section MemoryTrace.
Variable config : Config.t.

(** The vector drawn by [initializeMemory] when it starts in [w]. *)
Definition drawn_state (w : World) : list R :=
  map (fun k => (rng w (draws w + k)%nat - 0.5) * 0.01)
      (seq 0 (Config.MEMORY_DIMENSION config)).

(** The factor [applyTimeDecay] multiplies with, when the state was
    created at the clock reading [ticks w] and decays at the next one. *)
Definition decay_at (w : World) : R :=
  Js.Math_pow 0.99
    (IZR (clock w (ticks w + 1)%nat - clock w (ticks w)) / (1000 * 60 * 60 * 24)).

Definition decayed_state (w : World) : list R :=
  map (fun value => value * decay_at w) (drawn_state w).

(** The pair [(updatedState, stateChange)] that a valid [updateMemory] call
    started in [w] computes. *)
Definition step_of (eventEmbedding : list R) (significance : R) (w : World)
  : list R * R :=
  if Js.geb significance (Config.SIGNIFICANCE_THRESHOLD config)
  then MemoryService.learn config (decayed_state w) eventEmbedding significance
  else (decayed_state w, 0).

(** The arguments [updateMemory] does not reject. *)
Definition valid_update (eventEmbedding : list R) (significance : R) : Prop :=
  0 <= significance <= 1 /\
  List.length eventEmbedding = Config.MEMORY_DIMENSION config.

(** The bound on the reported step: a result of the call reports a
    [stateChange] below the clip norm plus [eps]. *)
Definition reported_change_below_clip (uid : string) (eventEmbedding : list R)
           (significance : R) (w : World) (eps : R) : Prop :=
  forall result w',
    MemoryService.updateMemory config uid eventEmbedding significance w
    = (Ok result, w') ->
    MemoryService.stateChange (MemoryService.metrics result)
    < Config.GRADIENT_CLIP_NORM config + eps.

End MemoryTrace.

(** ** The learning step in the specification's words *)

(** The Euclidean distance of two vectors, over the indices of the first. *)
Definition distance (a b : list R) : R :=
  sqrt (big_sum (fun i => (nth i b 0 - nth i a 0) * (nth i b 0 - nth i a 0))
                (List.length a)).

(** The blend of the decayed vector with the embedding at the rate [r]:
    entry [i] is [tanh(0.9 * decayed_i) * (1 - r) + tanh(embedding_i) * r],
    an absent embedding entry counting as 0. *)
Definition blend (decayed embedding : list R) (r : R) : list R :=
  map (fun i =>
         tanh (nth i decayed 0 * 0.9) * (1 - r) + tanh (nth i embedding 0) * r)
      (seq 0 (List.length decayed)).

(** The step from [decayed] to [target], cut to the length [clipNorm] when
    it is longer:
    [new_i = decayed_i + (target_i - decayed_i) * (clipNorm / length)]. *)
Definition clipped (decayed target : list R) (clipNorm : R) : list R :=
  if Rgt_dec (distance decayed target) clipNorm
  then
    map (fun i =>
           nth i decayed 0
           + (nth i target 0 - nth i decayed 0)
             * (clipNorm / distance decayed target))
        (seq 0 (List.length target))
  else target.

(** Every entry of a vector is a number of magnitude at most [bound]. *)
Definition entries_within (bound : R) (v : list R) : Prop :=
  forall i, (i < List.length v)%nat -> - bound <= nth i v 0 <= bound.

(** ** Events: the specification's formula and the claims as stated *)

(** Clamping to [[0,1]]. *)
Definition clamp01 (x : R) : R :=
  if Rlt_dec x 0 then 0 else if Rlt_dec 1 x then 1 else x.

(** The Euclidean norm of a vector. *)
Definition euclidean_norm (v : list R) : R :=
  sqrt (big_sum (fun i => nth i v 0 * nth i v 0) (List.length v)).

(** The significance score in the specification's words: base 0.5, a
    length factor, an embedding-magnitude factor, an importance factor
    when an importance is given and a recency factor when a timestamp is
    given; the age is taken at the clock reading [now]. *)
Definition significance_formula (text : string) (embedding : list R)
           (importance : option R) (timestamp : option Z) (now : Z) : R :=
  clamp01
    (0.5
     + Rmin (IZR (Z.of_nat (String.length text)) / 500) 1 * 0.2
     + Rmin (euclidean_norm embedding) 1 * 0.2
     + match importance with
       | Some importance => Rmin importance 1 * 0.2
       | None => 0
       end
     + match timestamp with
       | Some timestamp =>
           let age_days := IZR (now - timestamp) / 86400000 in
           exp (- age_days / 30) * 0.1
       | None => 0
       end).

(** The importance and the timestamp of an event's metadata. *)
Definition importance_of (event : EventService.EventInput.t) : option R :=
  match EventService.EventInput.metadata event with
  | Some m => EventService.Metadata.importance m
  | None => None
  end.

Definition timestamp_of (event : EventService.EventInput.t) : option Z :=
  match EventService.EventInput.metadata event with
  | Some m => EventService.Metadata.timestamp m
  | None => None
  end.

(** [processEvent] accepts the event: it returns a result. *)
Definition accepts (config : Config.t) (event : EventService.EventInput.t)
           (w : World) : Prop :=
  exists result w', EventService.processEvent config event w = (Ok result, w').

(** The content is a string of 5 to 10,000 characters. *)
Definition content_in_range (event : EventService.EventInput.t) : Prop :=
  exists s, EventService.EventInput.content event = Js.str s /\
            (5 <= Z.of_nat (String.length s) <= 10000)%Z.

(** What [validateEvent] checks: a non-empty string [userId], a string
    [content] of 5 to 10,000 characters, and a [timestamp] that is falsy
    or a [Date]. *)
Definition acceptable (event : EventService.EventInput.t) : bool :=
  Js.truthy (EventService.EventInput.userId event)
  && Js.is_string (EventService.EventInput.userId event)
  && Js.is_string (EventService.EventInput.content event)
  && (5 <=? Js.length_of (Js.string_of (EventService.EventInput.content event)))%Z
  && (Js.length_of (Js.string_of (EventService.EventInput.content event)) <=? 10000)%Z
  && (negb (Js.truthy (EventService.EventInput.timestamp event))
      || Js.instanceof_Date (EventService.EventInput.timestamp event)).

(** An event with a well-formed content and an empty [userId]. *)
Definition nameless_event : EventService.EventInput.t :=
  {| EventService.EventInput.userId := Js.str "";
     EventService.EventInput.content := Js.str "hello";
     EventService.EventInput.metadata := None;
     EventService.EventInput.timestamp := Js.undefined |}.

(** The event of the specification's scenario. *)
Definition training_event : EventService.EventInput.t :=
  {| EventService.EventInput.userId := Js.str "u1";
     EventService.EventInput.content := Js.str "User completed training module";
     EventService.EventInput.metadata := None;
     EventService.EventInput.timestamp := Js.undefined |}.

(** What [validateEvent] requires of [userId] and [content]: a non-empty
    string [userId] and a string [content] of 5 to 10,000 characters. *)
Definition acceptable_fields (event : EventService.EventInput.t) : bool :=
  Js.truthy (EventService.EventInput.userId event)
  && Js.is_string (EventService.EventInput.userId event)
  && Js.is_string (EventService.EventInput.content event)
  && (5 <=? Js.length_of (Js.string_of (EventService.EventInput.content event)))%Z
  && (Js.length_of (Js.string_of (EventService.EventInput.content event)) <=? 10000)%Z.

(** The timestamp is absent or a [Date] that denotes a time. *)
Definition timestamp_absent_or_valid (event : EventService.EventInput.t) : Prop :=
  EventService.EventInput.timestamp event = Js.undefined \/
  exists t, EventService.EventInput.timestamp event = Js.date (Some t).

(** The timestamp is a truthy value that is no [Date]. *)
Definition timestamp_refused (event : EventService.EventInput.t) : bool :=
  Js.truthy (EventService.EventInput.timestamp event)
  && negb (Js.instanceof_Date (EventService.EventInput.timestamp event)).

(** [processEvent] fails with a [ValidationError]. *)
Definition rejects (config : Config.t) (event : EventService.EventInput.t)
           (w : World) : Prop :=
  exists e w',
    EventService.processEvent config event w = (Throw e, w') /\
    Errors.name e = "ValidationError"%string.

(** An event whose timestamp is the invalid date [new Date('garbage')]. *)
Definition misdated_event : EventService.EventInput.t :=
  {| EventService.EventInput.userId := Js.str "u1";
     EventService.EventInput.content := Js.str "hello";
     EventService.EventInput.metadata := None;
     EventService.EventInput.timestamp := Js.date None |}.

(** An event whose timestamp is the text of a date. *)
Definition text_dated_event : EventService.EventInput.t :=
  {| EventService.EventInput.userId := Js.str "u1";
     EventService.EventInput.content := Js.str "hello";
     EventService.EventInput.metadata := None;
     EventService.EventInput.timestamp := Js.str "2024-01-01" |}.

(** ** Events with metadata of arbitrary values *)

Section UntypedEvents.
Variable config : Config.t.
Variable Number_of_string : string -> Js.number.
Variable Date_parse : string -> option Z.

(** The importance is absent (falsy), or a value whose number is finite
    and not negative. *)
Definition nonnegative_importance (event : EventService.Untyped.EventInput.t)
  : Prop :=
  match EventService.Untyped.EventInput.metadata event with
  | Some m =>
      Js.truthy_any (EventService.Untyped.Metadata.importance m) = false \/
      exists x,
        Js.ToNumber Number_of_string (EventService.Untyped.Metadata.importance m)
        = Js.fin x /\ 0 <= x
  | None => True
  end.

(** The importance is absent (falsy), or a value that has a finite
    number. *)
Definition numeric_importance (event : EventService.Untyped.EventInput.t)
  : Prop :=
  match EventService.Untyped.EventInput.metadata event with
  | Some m =>
      Js.truthy_any (EventService.Untyped.Metadata.importance m) = false \/
      exists x,
        Js.ToNumber Number_of_string (EventService.Untyped.Metadata.importance m)
        = Js.fin x
  | None => True
  end.

(** The timestamp of the metadata is absent (falsy), or a value that
    [new Date] turns into a valid date. *)
Definition dated_metadata (event : EventService.Untyped.EventInput.t) : Prop :=
  match EventService.Untyped.EventInput.metadata event with
  | Some m =>
      Js.truthy_any (EventService.Untyped.Metadata.timestamp m) = false \/
      exists t,
        Js.Date_getTime Date_parse (EventService.Untyped.Metadata.timestamp m)
        = Js.fin t
  | None => True
  end.

(** The score in the specification's words, for metadata of arbitrary
    values: the importance term is taken from the number of the value, the
    recency term from the time [new Date] gives it, and the score is [NaN]
    as soon as one of them is. *)
Definition significance_of_any (text : string) (embedding : list R)
           (m : EventService.Untyped.Metadata.t) (now : Z) : Js.number :=
  let base :=
    0.5
    + Rmin (IZR (Z.of_nat (String.length text)) / 500) 1 * 0.2
    + Rmin (euclidean_norm embedding) 1 * 0.2 in
  let importance :=
    if Js.truthy_any (EventService.Untyped.Metadata.importance m)
    then
      Js.lift1 (fun x => Rmin x 1 * 0.2)
        (Js.ToNumber Number_of_string (EventService.Untyped.Metadata.importance m))
    else Js.fin 0 in
  let recency :=
    if Js.truthy_any (EventService.Untyped.Metadata.timestamp m)
    then
      Js.lift1 (fun t => exp (- ((IZR now - t) / 86400000) / 30) * 0.1)
        (Js.Date_getTime Date_parse (EventService.Untyped.Metadata.timestamp m))
    else Js.fin 0 in
  Js.lift1 clamp01 (Js.add (Js.add (Js.fin base) importance) recency).

(** The metadata the scorer reads: the event's, or an empty record. *)
Definition metadata_of (event : EventService.Untyped.EventInput.t)
  : EventService.Untyped.Metadata.t :=
  match EventService.Untyped.EventInput.metadata event with
  | Some m => m
  | None => EventService.Untyped.Metadata.empty
  end.

(** A number between [lo] and [hi]; [NaN] is none. *)
Definition number_within (lo hi : R) (a : Js.number) : Prop :=
  exists x, a = Js.fin x /\ lo <= x <= hi.

(** Every result of [processEvent] has a significance of at least 0.5 and
    is marked significant, with learning triggered. *)
Definition always_significant (event : EventService.Untyped.EventInput.t)
           (w : World) : Prop :=
  forall result w',
    EventService.Untyped.processEvent config Number_of_string Date_parse event w
    = (Ok result, w') ->
    Js.ge (EventService.Untyped.ProcessedEvent.significance
             (EventService.Untyped.EventProcessingResult.event result))
          (Js.fin 0.5) = true /\
    EventService.Untyped.EventProcessingResult.significant result = true /\
    EventService.Untyped.EventProcessingResult.learningTriggered result = true.

End UntypedEvents.

(** Host conversions that recognise no string. *)
Definition no_number (s : string) : Js.number := Js.NaN.
Definition no_date (s : string) : option Z := None.

(** [{userId: 'u1', content: 'hello', metadata: m}] *)
Definition hello_event (m : option EventService.Untyped.Metadata.t)
  : EventService.Untyped.EventInput.t :=
  {| EventService.Untyped.EventInput.userId := Js.str "u1";
     EventService.Untyped.EventInput.content := Js.str "hello";
     EventService.Untyped.EventInput.metadata := m;
     EventService.Untyped.EventInput.timestamp := Js.undefined |}.

(** An event whose metadata carries the importance -5. *)
Definition unimportant_event : EventService.Untyped.EventInput.t :=
  hello_event
    (Some {| EventService.Untyped.Metadata.importance := Js.real (-5);
             EventService.Untyped.Metadata.timestamp := Js.other Js.undefined |}).

(** An event whose metadata carries the invalid date [new Date('garbage')]
    as its timestamp. *)
Definition undated_event : EventService.Untyped.EventInput.t :=
  hello_event
    (Some {| EventService.Untyped.Metadata.importance := Js.other Js.undefined;
             EventService.Untyped.Metadata.timestamp := Js.other (Js.date None) |}).

(** The event of the specification's scenario, with an importance and a
    timestamp. *)
Definition rated_event : EventService.Untyped.EventInput.t :=
  {| EventService.Untyped.EventInput.userId := Js.str "u1";
     EventService.Untyped.EventInput.content :=
       Js.str "User completed training module";
     EventService.Untyped.EventInput.metadata :=
       Some {| EventService.Untyped.Metadata.importance := Js.real 0.8;
               EventService.Untyped.Metadata.timestamp :=
                 Js.other (Js.date (Some 0%Z)) |};
     EventService.Untyped.EventInput.timestamp := Js.undefined |}.

(** ** Identities *)

(** The input [validateIdentity] does not reject, whatever the level: a
    non-empty string [userId] and a [data] object with at least one key. *)
Definition valid_identity (userId : Js.value) (data : list (string * Js.value))
  : Prop :=
  Js.truthy userId = true /\ Js.is_string userId = true /\ data <> [].

Definition identity_input (userId : Js.value) (data : list (string * Js.value))
           (level : string) : IdentityService.IdentityInput.t :=
  {| IdentityService.IdentityInput.userId := userId;
     IdentityService.IdentityInput.data := Some data;
     IdentityService.IdentityInput.privacyLevel := Some level |}.

(** An encoded identity whose embedding has [n] entries. *)
Definition identity_of_dimension (user : string) (n : nat)
  : IdentityService.EncodedIdentity.t :=
  {| IdentityService.EncodedIdentity.identityId := (0%Z, 0);
     IdentityService.EncodedIdentity.userId := user;
     IdentityService.EncodedIdentity.embedding := repeat 0 n;
     IdentityService.EncodedIdentity.privacyEpsilon := 1;
     IdentityService.EncodedIdentity.privacyDelta := 0.00001;
     IdentityService.EncodedIdentity.privacyLevel := "medium";
     IdentityService.EncodedIdentity.createdAt := 0%Z;
     IdentityService.EncodedIdentity.metadata :=
       {| IdentityService.EncodedIdentity.dataFields := ["name"%string];
          IdentityService.EncodedIdentity.embeddingNorm := 0;
          IdentityService.EncodedIdentity.noiseScale := 1 |} |}.

(** A computation that, in every world, returns or fails with a
    [ValidationError]. *)
Definition settled {A : Type} (acc : Eff A) : Prop :=
  forall w,
    (exists a w', acc w = (Ok a, w')) \/
    (exists e w', acc w = (Throw e, w')
                  /\ Errors.name e = "ValidationError"%string).

(** ** Clusters of events *)

Section Clusters.
Variable eventId_text : Z * R -> string.

(** The text of the id of a processed event. *)
Definition id_of (e : EventService.ProcessedEvent.t) : string :=
  eventId_text (EventService.ProcessedEvent.eventId e).

(** What the loops of [detectEventClusters] keep: the events clustered so
    far have pairwise distinct ids, their ids are the processed ones, and
    they are events of the input. *)
Definition clusters_inv (events members : list EventService.ProcessedEvent.t)
           (processed : list string) : Prop :=
  NoDup (map id_of members) /\
  (forall s, In s processed <-> In s (map id_of members)) /\
  incl members events.

End Clusters.

(** A processed event with the id clock reading [t] and the given
    embedding. *)
Definition sample_event (t : Z) (embedding : list R)
  : EventService.ProcessedEvent.t :=
  {| EventService.ProcessedEvent.eventId := (t, 0);
     EventService.ProcessedEvent.userId := "u1";
     EventService.ProcessedEvent.content := "Normal event about weather";
     EventService.ProcessedEvent.embedding := embedding;
     EventService.ProcessedEvent.significance := 0.7;
     EventService.ProcessedEvent.metadata := EventService.Metadata.empty;
     EventService.ProcessedEvent.timestamp := Js.date (Some t);
     EventService.ProcessedEvent.processingTime := 0%Z |}.

Definition sample_events : list EventService.ProcessedEvent.t :=
  [sample_event 1 [1; 0]; sample_event 2 [0; 1]].

(** An id text that tells the clock readings 1 and 2 apart. *)
Definition sample_id_text (id : Z * R) : string :=
  if (fst id =? 1)%Z then "evt_1" else "evt_2".

(** What [validateIdentity] checks: a non-empty string [userId], a [data]
    object with at least one key, and a level that is absent, empty or one
    of [high], [medium] and [low]. *)
Definition acceptable_identity (identity : IdentityService.IdentityInput.t)
  : bool :=
  Js.truthy (IdentityService.IdentityInput.userId identity)
  && Js.is_string (IdentityService.IdentityInput.userId identity)
  && match IdentityService.IdentityInput.data identity with
     | Some data => negb (List.length data =? 0)%nat
     | None => false
     end
  && match IdentityService.IdentityInput.privacyLevel identity with
     | Some level =>
         String.eqb level EmptyString || IdentityService.known_level level
     | None => true
     end.

(** The level an accepted identity is encoded with. *)
Definition level_of (identity : IdentityService.IdentityInput.t) : string :=
  match IdentityService.IdentityInput.privacyLevel identity with
  | Some level => if String.eqb level EmptyString then "medium" else level
  | None => "medium"
  end.

(** The factor by which the recorded epsilon exceeds the configured one. *)
Definition epsilon_factor (level : string) : R :=
  if String.eqb level "high" then 0.33
  else if String.eqb level "low" then 1.5 else 1.

(** ** Similarity *)

(** The value of the similarity computation on two vectors, without the
    length check. *)
Definition cosine_value (vec1 vec2 : list R) : R :=
  let sums := SemanticService.similarity_loop vec1 vec2 in
  let denominator :=
    sqrt (SemanticService.norm1 sums) * sqrt (SemanticService.norm2 sums) in
  if Req_dec_T denominator 0 then 0
  else SemanticService.dotProduct sums / denominator.

(** The outcome is a failure whose error carries the given name. *)
Definition fails_with {A : Type} (error_name : string) (o : Outcome A) : Prop :=
  exists e, o = Throw e /\ Errors.name e = error_name.

(** The defaults with [LEARNING_RATE=1]. *)
Definition eager_config : Config.t :=
  {| Config.MEMORY_DIMENSION := 256;
     Config.LEARNING_RATE := 1;
     Config.GRADIENT_CLIP_NORM := 1.0;
     Config.SIGNIFICANCE_THRESHOLD := 0.5;
     Config.PRIVACY_EPSILON := 1.0;
     Config.PRIVACY_DELTA := 0.00001 |}.

End Trace.

(* ================================================================= *)
(** * Properties *)

(** ** Sums over index ranges *)

Module Sums.
Import Trace.

Lemma fold_seq_sum (f : nat -> R) (n : nat) (a : R) :
  fold_left (fun s i => s + f i) (seq 0 n) a = a + big_sum f n.
Proof.
  induction n as [|n IH]; simpl big_sum.
  - simpl. lra.
  - rewrite seq_S, fold_left_app, IH. simpl. lra.
Qed.

Lemma big_sum_shift (f : nat -> R) (n : nat) :
  big_sum f (S n) = f O + big_sum (fun i => f (S i)) n.
Proof.
  induction n as [|n IH].
  - simpl. lra.
  - change (big_sum f (S (S n))) with (big_sum f (S n) + f (S n)).
    rewrite IH. simpl. lra.
Qed.

Lemma fold_list_sum (g : R -> R) (l : list R) (a : R) :
  fold_left (fun s v => s + g v) l a
  = a + big_sum (fun i => g (nth i l 0)) (List.length l).
Proof.
  revert a. induction l as [|x l IH]; intro a.
  - simpl. lra.
  - cbn [fold_left List.length]. rewrite IH, big_sum_shift. simpl. lra.
Qed.

Lemma big_sum_ext (f g : nat -> R) (n : nat) :
  (forall i, (i < n)%nat -> f i = g i) -> big_sum f n = big_sum g n.
Proof.
  induction n as [|n IH]; intro H; simpl; [reflexivity|].
  rewrite IH, (H n); auto.
Qed.

Lemma big_sum_nonneg (f : nat -> R) (n : nat) :
  (forall i, (i < n)%nat -> 0 <= f i) -> 0 <= big_sum f n.
Proof.
  induction n as [|n IH]; intro H; simpl; [lra|].
  assert (0 <= big_sum f n) by (apply IH; auto).
  assert (0 <= f n) by (apply H; lia). lra.
Qed.

Lemma big_sum_le (f : nat -> R) (n : nat) (c : R) :
  (forall i, (i < n)%nat -> f i <= c) -> big_sum f n <= INR n * c.
Proof.
  induction n as [|n IH]; intro H.
  - simpl. lra.
  - rewrite S_INR. simpl.
    assert (big_sum f n <= INR n * c) by (apply IH; auto).
    assert (f n <= c) by (apply H; lia). lra.
Qed.

Lemma big_sum_ge (f : nat -> R) (n : nat) (c : R) :
  (forall i, (i < n)%nat -> c <= f i) -> INR n * c <= big_sum f n.
Proof.
  induction n as [|n IH]; intro H.
  - simpl. lra.
  - rewrite S_INR. simpl.
    assert (INR n * c <= big_sum f n) by (apply IH; auto).
    assert (c <= f n) by (apply H; lia). lra.
Qed.

Lemma big_sum_scal (f : nat -> R) (n : nat) (c : R) :
  big_sum (fun i => c * f i) n = c * big_sum f n.
Proof.
  induction n as [|n IH]; simpl; [lra|]. rewrite IH. lra.
Qed.

Lemma big_sum_zero (f : nat -> R) (n : nat) :
  (forall i, (i < n)%nat -> f i = 0) -> big_sum f n = 0.
Proof.
  induction n as [|n IH]; intro H; simpl; [reflexivity|].
  rewrite IH, (H n); auto. lra.
Qed.

(** The norm of an array, as a sum over its indices. *)
Lemma norm_big_sum (a : list R) :
  Js.norm a = sqrt (big_sum (fun i => nth i a 0 * nth i a 0) (List.length a)).
Proof.
  unfold Js.norm, Js.reduce.
  rewrite (fold_list_sum (fun v => v * v)). f_equal. lra.
Qed.

Lemma norm_le (a : list R) (c : R) :
  0 <= c ->
  (forall i, (i < List.length a)%nat -> - c <= nth i a 0 <= c) ->
  Js.norm a <= sqrt (INR (List.length a)) * c.
Proof.
  intros Hc H. rewrite norm_big_sum.
  replace (sqrt (INR (List.length a)) * c)
    with (sqrt (INR (List.length a) * (c * c)))
    by (rewrite sqrt_mult, (sqrt_square c);
        [reflexivity | assumption | apply pos_INR | nra]).
  apply sqrt_le_1.
  - apply big_sum_nonneg. intros. nra.
  - apply Rmult_le_pos; [apply pos_INR | nra].
  - apply big_sum_le. intros i Hi. specialize (H i Hi). nra.
Qed.

Lemma nth_mapi_from {A B : Type} (f : A -> nat -> B) (l : list A)
      (k i : nat) (d : A) (d' : B) :
  (i < List.length l)%nat ->
  nth i (Js.mapi_from f k l) d' = f (nth i l d) (k + i)%nat.
Proof.
  revert k i. induction l as [|x l IH]; intros k i Hi; simpl in Hi; [lia|].
  destruct i as [|i]; simpl.
  - f_equal. lia.
  - rewrite IH by lia. f_equal. lia.
Qed.

Lemma nth_mapi {A B : Type} (f : A -> nat -> B) (l : list A)
      (i : nat) (d : A) (d' : B) :
  (i < List.length l)%nat -> nth i (Js.mapi f l) d' = f (nth i l d) i.
Proof. intro Hi. unfold Js.mapi. now rewrite (nth_mapi_from f l 0 i d d'). Qed.

Lemma length_mapi_from {A B : Type} (f : A -> nat -> B) (l : list A) (k : nat) :
  List.length (Js.mapi_from f k l) = List.length l.
Proof. revert k. induction l; intro k; simpl; auto. Qed.

Lemma length_mapi {A B : Type} (f : A -> nat -> B) (l : list A) :
  List.length (Js.mapi f l) = List.length l.
Proof. apply length_mapi_from. Qed.

Lemma nth_map_seq (f : nat -> R) (n i : nat) :
  (i < n)%nat -> nth i (map f (seq 0 n)) 0 = f i.
Proof.
  intro Hi. rewrite (nth_indep _ 0 (f O)) by (now rewrite length_map, length_seq).
  rewrite (map_nth f (seq 0 n) O i), seq_nth by assumption. reflexivity.
Qed.

Lemma nth_map_R (f : R -> R) (l : list R) (i : nat) :
  (i < List.length l)%nat -> nth i (map f l) 0 = f (nth i l 0).
Proof.
  intro Hi. rewrite (nth_indep _ 0 (f 0)) by (now rewrite length_map).
  apply map_nth.
Qed.

End Sums.

(** ** Elementary bounds on [tanh], [Math.pow] and [exp] *)

Module Analysis.

Lemma exp_inv_prod (x : R) : exp x * exp (- x) = 1.
Proof. rewrite <- exp_plus, Rplus_opp_r. apply exp_0. Qed.

Lemma tanh_exp (x : R) :
  tanh x * (exp x + exp (- x)) = exp x - exp (- x).
Proof.
  unfold tanh, sinh, cosh.
  pose proof (exp_pos x). pose proof (exp_pos (- x)).
  field. lra.
Qed.

Lemma tanh_range (x : R) : -1 < tanh x < 1.
Proof.
  pose proof (tanh_exp x) as E.
  pose proof (exp_pos x). pose proof (exp_pos (- x)).
  split; nra.
Qed.

Lemma tanh_odd (x : R) : tanh (- x) = - tanh x.
Proof.
  pose proof (tanh_exp x) as E. pose proof (tanh_exp (- x)) as E'.
  rewrite Ropp_involutive in E'.
  pose proof (exp_pos x). pose proof (exp_pos (- x)).
  assert (K : (tanh (- x) + tanh x) * (exp x + exp (- x)) = 0) by nra.
  apply Rmult_integral in K. destruct K; lra.
Qed.

Lemma tanh_nonneg (x : R) : 0 <= x -> 0 <= tanh x.
Proof.
  intro Hx. pose proof (tanh_exp x) as E.
  pose proof (exp_pos x). pose proof (exp_pos (- x)).
  pose proof (exp_ineq1_le x). pose proof (exp_inv_prod x).
  assert (exp (- x) <= exp x) by nra.
  nra.
Qed.

(** For small arguments [tanh] is close to the identity. *)
Lemma tanh_small_pos (x : R) :
  0 <= x < 1 / 2 -> tanh x * (1 - x) <= x.
Proof.
  intros [Hx0 Hx1]. pose proof (tanh_exp x) as E.
  pose proof (exp_pos x) as Ha. pose proof (exp_pos (- x)) as Hb.
  pose proof (exp_inv_prod x) as Hab.
  assert (Hbb : 1 - 2 * x <= exp (- x) * exp (- x)).
  { rewrite <- exp_plus. pose proof (exp_ineq1_le (- x + - x)). lra. }
  assert (Hk : exp x * (1 - 2 * x) <= exp (- x)).
  { assert (exp x * (exp x * (1 - 2 * x)) <= exp x * exp (- x)) by nra.
    apply Rmult_le_reg_l with (exp x); assumption. }
  assert (Hs : (exp x - exp (- x)) * (1 - x) <= x * (exp x + exp (- x))) by nra.
  rewrite <- E in Hs.
  assert (Hd : 0 < exp x + exp (- x)) by lra.
  apply Rmult_le_reg_r with (exp x + exp (- x)); [assumption|]. nra.
Qed.

Lemma tanh_small (x c : R) :
  0 <= c <= 1 / 4 -> - c <= x <= c -> - (2 * c) <= tanh x <= 2 * c.
Proof.
  intros Hc Hx. destruct (Rle_lt_dec 0 x) as [Hpos|Hneg].
  - pose proof (tanh_nonneg x Hpos).
    pose proof (tanh_small_pos x ltac:(lra)). nra.
  - pose proof (tanh_nonneg (- x) ltac:(lra)) as H0.
    pose proof (tanh_small_pos (- x) ltac:(lra)) as H1.
    rewrite tanh_odd in H0, H1. nra.
Qed.

Lemma tanh_ge_half (x : R) : 1 <= x -> 1 / 2 <= tanh x.
Proof.
  intro Hx. pose proof (tanh_exp x) as E.
  pose proof (exp_pos x) as Ha. pose proof (exp_pos (- x)) as Hb.
  pose proof (exp_inv_prod x) as Hab.
  pose proof (exp_ineq1_le x) as H1.
  assert (H3 : 3 * exp (- x) <= exp x).
  { apply Rmult_le_reg_l with (exp x); [assumption|]. nra. }
  apply Rmult_le_reg_r with (exp x + exp (- x)); [lra|]. nra.
Qed.

Lemma ln_099_neg : ln 0.99 < 0.
Proof. rewrite <- ln_1. apply ln_increasing; lra. Qed.

(** [0.99^t] for a non-negative exponent lies in [(0, 1]]. *)
Lemma pow_decay_range (t : R) : 0 <= t -> 0 < Js.Math_pow 0.99 t <= 1.
Proof.
  intro Ht. unfold Js.Math_pow, Rpower. split; [apply exp_pos|].
  pose proof ln_099_neg.
  destruct (Req_dec (t * ln 0.99) 0) as [E|NE].
  - rewrite E, exp_0. lra.
  - rewrite <- exp_0. left. apply exp_increasing. nra.
Qed.

Lemma exp_nonpos_le_1 (x : R) : x <= 0 -> exp x <= 1.
Proof.
  intro Hx. destruct (Req_dec x 0) as [E|NE].
  - rewrite E, exp_0. lra.
  - rewrite <- exp_0. left. apply exp_increasing. lra.
Qed.

Lemma exp_5_le : exp 5 <= 243.
Proof.
  replace 5 with (1 + (1 + (1 + (1 + 1)))) by lra.
  rewrite !exp_plus. pose proof exp_le_3. pose proof (exp_pos 1).
  set (e := exp 1) in *.
  assert (H2 : 0 < e * e <= 9) by nra.
  assert (H3 : 0 < e * (e * e) <= 27) by nra.
  assert (H4 : 0 < e * (e * (e * e)) <= 81) by nra.
  nra.
Qed.

End Analysis.

(** ** The clock and the random source *)

Module RuntimeFacts.
Import Errors Runtime Trace.

Lemma Date_now_run (w : World) :
  Date_now w = (Ok (clock w (ticks w)), later w 1 0).
Proof. unfold Date_now, later. do 2 f_equal; lia. Qed.

Lemma Math_random_run (w : World) :
  Math_random w = (Ok (rng w (draws w)), later w 0 1).
Proof. unfold Math_random, later. do 2 f_equal; lia. Qed.

Lemma later_later (w : World) (t d t' d' : nat) :
  later (later w t d) t' d' = later w (t + t') (d + d').
Proof. unfold later. simpl. f_equal; lia. Qed.

Lemma later_0 (w : World) : later w 0 0 = w.
Proof. destruct w. unfold later. simpl. f_equal; lia. Qed.

Lemma mapM_draws (g : R -> R) (n : nat) (w : World) :
  mapM (fun _ : R => bind Math_random (fun r => ret (g r))) (repeat 0 n) w
  = (Ok (map (fun k => g (rng w (draws w + k)%nat)) (seq 0 n)), later w 0 n).
Proof.
  revert w. induction n as [|n IH]; intro w.
  - simpl. unfold ret. now rewrite later_0.
  - cbn [repeat mapM]. unfold bind at 1. unfold bind at 1.
    rewrite Math_random_run. unfold ret at 1. unfold bind at 1.
    rewrite IH. unfold ret. rewrite later_later.
    f_equal.
    cbn [seq map]. f_equal. f_equal.
    + f_equal. f_equal. lia.
    + rewrite <- seq_shift, map_map. apply map_ext. intro k.
      simpl. do 2 f_equal. lia.
Qed.

Lemma well_formed_later (w : World) (t d : nat) :
  well_formed w -> well_formed (later w t d).
Proof. intros [Hc Hr]. split; simpl; auto. Qed.

Lemma steady_well_formed (u : R) : 0 <= u < 1 -> well_formed (steady u).
Proof.
  intro Hu. split; simpl.
  - intros n m H. lia.
  - intros _. exact Hu.
Qed.

End RuntimeFacts.

(** ** services/memoryService: how [updateMemory] runs *)

Module MemoryFacts.
Import Errors Runtime MemoryService Trace Sums Analysis RuntimeFacts.

Section Runs.
Variable config : Config.t.

Lemma initializeMemory_run (uid : string) (w : World) :
  initializeMemory config uid w
  = (Ok {| userId := uid;
           dimension := Config.MEMORY_DIMENSION config;
           state := drawn_state config w;
           lastUpdate := clock w (ticks w);
           eventCount := 0;
           significantEventCount := 0;
           totalLearningUpdates := 0 |},
     later w 1 (Config.MEMORY_DIMENSION config)).
Proof.
  unfold initializeMemory. unfold bind at 1.
  rewrite (mapM_draws (fun r => (r - 0.5) * 0.01)).
  unfold bind. rewrite Date_now_run. unfold ret. rewrite later_later.
  unfold later. cbn [clock ticks rng draws Nat.add].
  rewrite !Nat.add_0_r. reflexivity.
Qed.

Lemma applyTimeDecay_run (st : list R) (last : Z) (factor : R) (w : World) :
  applyTimeDecay st last factor w
  = (Ok (map (fun value =>
                value * Js.Math_pow factor
                          (IZR (clock w (ticks w) - last) / (1000 * 60 * 60 * 24)))
             st),
     later w 1 0).
Proof.
  unfold applyTimeDecay, bind. rewrite Date_now_run. reflexivity.
Qed.

Lemma updateMemory_run (uid : string) (emb : list R) (sig : R) (w : World) :
  0 <= sig <= 1 ->
  List.length emb = Config.MEMORY_DIMENSION config ->
  updateMemory config uid emb sig w
  = (Ok {| result_userId := uid;
           updated := Js.geb sig (Config.SIGNIFICANCE_THRESHOLD config);
           memoryState :=
             {| userId := uid;
                dimension := Config.MEMORY_DIMENSION config;
                state := fst (step_of config emb sig w);
                lastUpdate := clock w (ticks w + 2)%nat;
                eventCount := 1;
                significantEventCount :=
                  if Js.geb sig (Config.SIGNIFICANCE_THRESHOLD config)
                  then 1%nat else 0%nat;
                totalLearningUpdates :=
                  if Js.geb sig (Config.SIGNIFICANCE_THRESHOLD config)
                  then 1%nat else 0%nat |};
           metrics :=
             {| significance := sig;
                learningApplied :=
                  Js.geb sig (Config.SIGNIFICANCE_THRESHOLD config);
                stateChange := snd (step_of config emb sig w) |} |},
     later w 3 (Config.MEMORY_DIMENSION config)).
Proof.
  intros Hsig Hlen. unfold updateMemory.
  unfold Js.ltb, Js.gtb.
  destruct (Rlt_dec sig 0) as [?|_]; [lra|].
  destruct (Rgt_dec sig 1) as [?|_]; [lra|].
  rewrite Hlen, Nat.eqb_refl. cbn [orb negb].
  unfold getMemoryState. unfold bind at 1. rewrite initializeMemory_run.
  cbn [state lastUpdate]. unfold bind at 1. rewrite applyTimeDecay_run.
  unfold bind. rewrite Date_now_run. unfold ret. rewrite !later_later.
  cbn [later ticks clock draws rng userId dimension eventCount
       significantEventCount totalLearningUpdates].
  unfold step_of, decayed_state, decay_at.
  replace (ticks w + 1 + 1)%nat with (ticks w + 2)%nat by lia.
  replace (1 + 1 + 1)%nat with 3%nat by lia.
  replace (Config.MEMORY_DIMENSION config + 0 + 0)%nat
    with (Config.MEMORY_DIMENSION config) by lia.
  destruct (Js.geb sig (Config.SIGNIFICANCE_THRESHOLD config)); reflexivity.
Qed.

End Runs.

(** *** Bounds on the vectors of one update *)

Lemma calculateStateChange_sum (old new : list R) :
  calculateStateChange old new
  = sqrt (big_sum (fun i => (nth i new 0 - nth i old 0) * (nth i new 0 - nth i old 0))
                  (List.length old)).
Proof.
  unfold calculateStateChange, Js.for_range, Js.get.
  rewrite (fold_seq_sum
             (fun i => (nth i new 0 - nth i old 0) * (nth i new 0 - nth i old 0))).
  f_equal. lra.
Qed.

Lemma length_drawn_state (config : Config.t) (w : World) :
  List.length (drawn_state config w) = Config.MEMORY_DIMENSION config.
Proof. unfold drawn_state. now rewrite length_map, length_seq. Qed.

Lemma length_decayed_state (config : Config.t) (w : World) :
  List.length (decayed_state config w) = Config.MEMORY_DIMENSION config.
Proof. unfold decayed_state. now rewrite length_map, length_drawn_state. Qed.

Lemma drawn_state_bound (config : Config.t) (w : World) (i : nat) :
  well_formed w ->
  (i < Config.MEMORY_DIMENSION config)%nat ->
  - 0.005 <= nth i (drawn_state config w) 0 <= 0.005.
Proof.
  intros [_ Hr] Hi. unfold drawn_state.
  rewrite (nth_map_seq (fun k => (rng w (draws w + k)%nat - 0.5) * 0.01)) by assumption.
  specialize (Hr (draws w + i)%nat). lra.
Qed.

Lemma decay_at_range (w : World) : well_formed w -> 0 < decay_at w <= 1.
Proof.
  intros [Hc _]. unfold decay_at. apply pow_decay_range.
  assert (H : (clock w (ticks w) <= clock w (ticks w + 1)%nat)%Z) by (apply Hc; lia).
  apply Rmult_le_pos; [| left; apply Rinv_0_lt_compat; lra].
  apply IZR_le in H. rewrite minus_IZR. lra.
Qed.

Lemma decayed_state_bound (config : Config.t) (w : World) (i : nat) :
  well_formed w ->
  (i < Config.MEMORY_DIMENSION config)%nat ->
  - 0.005 <= nth i (decayed_state config w) 0 <= 0.005.
Proof.
  intros Hw Hi. unfold decayed_state.
  rewrite nth_map_R by (now rewrite length_drawn_state).
  pose proof (drawn_state_bound config w i Hw Hi).
  pose proof (decay_at_range w Hw). nra.
Qed.

Lemma nth_applyLSTMUpdate (d emb : list R) (lr : R) (i : nat) :
  (i < List.length d)%nat ->
  nth i (applyLSTMUpdate d emb lr) 0
  = tanh (nth i d 0 * 0.9) * (1 - lr) + tanh (nth i emb 0) * lr.
Proof.
  intro Hi. unfold applyLSTMUpdate.
  rewrite (nth_mapi _ d i 0 0) by assumption. reflexivity.
Qed.

Lemma length_applyLSTMUpdate (d emb : list R) (lr : R) :
  List.length (applyLSTMUpdate d emb lr) = List.length d.
Proof. unfold applyLSTMUpdate. apply length_mapi. Qed.

Lemma INR_256 : INR 256 = 16 * 16.
Proof. rewrite INR_IZR_INZ. simpl Z.of_nat. lra. Qed.

Lemma sqrt_INR_256 : sqrt (INR 256) = 16.
Proof. rewrite INR_256. apply sqrt_square. lra. Qed.

(** *** Counters and the frame of one update *)

Lemma geb_false (x y : R) : x < y -> Js.geb x y = false.
Proof. intro H. unfold Js.geb. destruct (Rge_dec x y); [lra | reflexivity]. Qed.

Lemma geb_true (x y : R) : y <= x -> Js.geb x y = true.
Proof. intro H. unfold Js.geb. destruct (Rge_dec x y); [reflexivity | lra]. Qed.

(** C2.  For every valid call to [updateMemory] whose significance is
    strictly below the significance threshold, [eventCount] is the loaded
    state's count plus one, [significantEventCount] and
    [totalLearningUpdates] keep the loaded state's values, the reported
    [stateChange] is 0 and the returned vector is exactly the time-decayed
    vector, with no blend applied. *)
Theorem updateMemory_below_threshold
        (config : Config.t) (uid : string) (emb : list R) (sig : R) (w : World) :
  valid_update config emb sig ->
  sig < Config.SIGNIFICANCE_THRESHOLD config ->
  exists prior w1 decayed w2 result w3,
    getMemoryState config uid w = (Ok prior, w1) /\
    applyTimeDecay (state prior) (lastUpdate prior) 0.99 w1 = (Ok decayed, w2) /\
    updateMemory config uid emb sig w = (Ok result, w3) /\
    eventCount (memoryState result) = (eventCount prior + 1)%nat /\
    significantEventCount (memoryState result) = significantEventCount prior /\
    totalLearningUpdates (memoryState result) = totalLearningUpdates prior /\
    stateChange (metrics result) = 0 /\
    learningApplied (metrics result) = false /\
    state (memoryState result) = decayed.
Proof.
  intros [Hsig Hlen] Hlow.
  pose proof (updateMemory_run config uid emb sig w Hsig Hlen) as Hrun.
  unfold step_of in Hrun. rewrite (geb_false _ _ Hlow) in Hrun.
  cbn [fst snd] in Hrun.
  eexists _, _, _, _, _, _.
  split; [unfold getMemoryState; apply initializeMemory_run|].
  split; [apply applyTimeDecay_run|].
  split; [exact Hrun|].
  cbn [memoryState metrics eventCount significantEventCount
       totalLearningUpdates stateChange learningApplied state lastUpdate].
  repeat split.
Qed.

Lemma updateMemory_below_threshold_witness :
  valid_update Config.defaults (repeat 0.01 256) 0.1 /\
  0.1 < Config.SIGNIFICANCE_THRESHOLD Config.defaults /\
  exists prior w1 decayed w2 result w3,
    getMemoryState Config.defaults "u1" (steady 0.25) = (Ok prior, w1) /\
    applyTimeDecay (state prior) (lastUpdate prior) 0.99 w1 = (Ok decayed, w2) /\
    updateMemory Config.defaults "u1" (repeat 0.01 256) 0.1 (steady 0.25)
    = (Ok result, w3) /\
    eventCount (memoryState result) = (eventCount prior + 1)%nat /\
    significantEventCount (memoryState result) = significantEventCount prior /\
    totalLearningUpdates (memoryState result) = totalLearningUpdates prior /\
    stateChange (metrics result) = 0 /\
    learningApplied (metrics result) = false /\
    state (memoryState result) = decayed.
Proof.
  assert (Hv : valid_update Config.defaults (repeat 0.01 256) 0.1)
    by (split; [lra | reflexivity]).
  assert (Hlow : 0.1 < Config.SIGNIFICANCE_THRESHOLD Config.defaults)
    by (simpl; lra).
  split; [exact Hv|]. split; [exact Hlow|].
  exact (updateMemory_below_threshold Config.defaults "u1" (repeat 0.01 256) 0.1
           (steady 0.25) Hv Hlow).
Defined.

Lemma updateMemory_returns (config : Config.t) (uid : string) (emb : list R)
      (sig : R) (w : World) :
  valid_update config emb sig ->
  exists result,
    updateMemory config uid emb sig w
    = (Ok result, later w 3 (Config.MEMORY_DIMENSION config)) /\
    eventCount (memoryState result) = 1%nat.
Proof.
  intros [Hsig Hlen]. eexists. split.
  - apply updateMemory_run; assumption.
  - reflexivity.
Qed.

Lemma batch_loop_returns (config : Config.t) (uid : string)
      (events : list (list R * R)) :
  Forall (fun e => valid_update config (fst e) (snd e)) events ->
  forall (acc : Eff MemoryState),
    (forall w, exists m w', acc w = (Ok m, w')) ->
    forall w, exists m w',
      fold_left
        (fun acc event =>
           bind acc (fun _ =>
           bind (updateMemory config uid (fst event) (snd event)) (fun result =>
           ret (memoryState result))))
        events acc w = (Ok m, w').
Proof.
  induction 1 as [|e events He _ IH]; intros acc Hacc w.
  - apply Hacc.
  - cbn [fold_left]. apply IH. intro w0.
    destruct (Hacc w0) as (m & w' & E).
    destruct (updateMemory_returns config uid (fst e) (snd e) w' He) as (r & Er & _).
    unfold bind. rewrite E, Er. unfold ret. eauto.
Qed.

(** C10.  [getMemoryState] never loads stored state: in every world and for
    every user it returns a freshly initialized state with all three
    counters at 0.  Consequently the state returned by any valid
    [updateMemory] call has [eventCount = 1], however many valid updates
    for the same user were completed before it. *)
Theorem updateMemory_eventCount_is_1
        (config : Config.t) (uid : string) (events : list (list R * R))
        (emb : list R) (sig : R) (w : World) :
  Forall (fun e => valid_update config (fst e) (snd e)) events ->
  valid_update config emb sig ->
  (forall (uid' : string) (w' : World),
      exists m w'',
        getMemoryState config uid' w' = (Ok m, w'') /\
        eventCount m = 0%nat /\
        significantEventCount m = 0%nat /\
        totalLearningUpdates m = 0%nat) /\
  (exists m1 w1 result w2,
      batchUpdateMemory config uid events w = (Ok m1, w1) /\
      updateMemory config uid emb sig w1 = (Ok result, w2) /\
      eventCount (memoryState result) = 1%nat).
Proof.
  intros Hevents Hvalid. split.
  - intros uid' w'. eexists _, _. split.
    + unfold getMemoryState. apply initializeMemory_run.
    + repeat split.
  - unfold batchUpdateMemory, batch_loop, getMemoryState.
    unfold bind at 1. rewrite initializeMemory_run.
    match goal with
    | |- context [fold_left ?f events ?acc ?w0] =>
        destruct (batch_loop_returns config uid events Hevents acc
                    (fun w' => ex_intro _ _ (ex_intro _ w' eq_refl)) w0)
          as (m1 & w1 & E1)
    end.
    destruct (updateMemory_returns config uid emb sig w1 Hvalid) as (r & Er & Hc).
    exists m1, w1, r, (later w1 3 (Config.MEMORY_DIMENSION config)).
    repeat split; assumption.
Qed.

Lemma updateMemory_eventCount_is_1_witness :
  Forall (fun e => valid_update Config.defaults (fst e) (snd e))
         [(repeat 0.1 256, 0.8); (repeat 0.1 256, 0.3)] /\
  valid_update Config.defaults (repeat 0.1 256) 0.9 /\
  (forall (uid' : string) (w' : World),
      exists m w'',
        getMemoryState Config.defaults uid' w' = (Ok m, w'') /\
        eventCount m = 0%nat /\
        significantEventCount m = 0%nat /\
        totalLearningUpdates m = 0%nat) /\
  (exists m1 w1 result w2,
      batchUpdateMemory Config.defaults "u1"
        [(repeat 0.1 256, 0.8); (repeat 0.1 256, 0.3)] (steady 0.25)
      = (Ok m1, w1) /\
      updateMemory Config.defaults "u1" (repeat 0.1 256) 0.9 w1 = (Ok result, w2) /\
      eventCount (memoryState result) = 1%nat).
Proof.
  assert (H8 : valid_update Config.defaults (repeat 0.1 256) 0.8)
    by (split; [lra | reflexivity]).
  assert (H3 : valid_update Config.defaults (repeat 0.1 256) 0.3)
    by (split; [lra | reflexivity]).
  assert (H9 : valid_update Config.defaults (repeat 0.1 256) 0.9)
    by (split; [lra | reflexivity]).
  assert (Hall : Forall (fun e => valid_update Config.defaults (fst e) (snd e))
                        [(repeat 0.1 256, 0.8); (repeat 0.1 256, 0.3)])
    by (constructor; [exact H8 | constructor; [exact H3 | constructor]]).
  split; [exact Hall|]. split; [exact H9|].
  exact (updateMemory_eventCount_is_1 Config.defaults "u1" _ _ _ (steady 0.25)
           Hall H9).
Defined.


(** *** The step of a learning update *)

Lemma calculateStateChange_le (old new : list R) (c : R) :
  0 <= c ->
  (forall i, (i < List.length old)%nat -> - c <= nth i new 0 - nth i old 0 <= c) ->
  calculateStateChange old new <= sqrt (INR (List.length old)) * c.
Proof.
  intros Hc H. rewrite calculateStateChange_sum.
  replace (sqrt (INR (List.length old)) * c)
    with (sqrt (INR (List.length old) * (c * c)))
    by (rewrite sqrt_mult, (sqrt_square c);
        [reflexivity | assumption | apply pos_INR | nra]).
  apply sqrt_le_1.
  - apply big_sum_nonneg. intros. cbv beta. apply Rle_0_sqr.
  - apply Rmult_le_pos; [apply pos_INR | nra].
  - apply big_sum_le. intros i Hi. specialize (H i Hi). nra.
Qed.

Lemma calculateStateChange_ge (old new : list R) (c : R) :
  0 <= c ->
  (forall i, (i < List.length old)%nat -> c <= nth i new 0 - nth i old 0) ->
  sqrt (INR (List.length old)) * c <= calculateStateChange old new.
Proof.
  intros Hc H. rewrite calculateStateChange_sum.
  replace (sqrt (INR (List.length old)) * c)
    with (sqrt (INR (List.length old) * (c * c)))
    by (rewrite sqrt_mult, (sqrt_square c);
        [reflexivity | assumption | apply pos_INR | nra]).
  apply sqrt_le_1.
  - apply Rmult_le_pos; [apply pos_INR | nra].
  - apply big_sum_nonneg. intros. cbv beta. apply Rle_0_sqr.
  - apply big_sum_ge. intros i Hi. specialize (H i Hi). nra.
Qed.

Lemma calculateStateChange_same (d : list R) : calculateStateChange d d = 0.
Proof.
  rewrite calculateStateChange_sum, big_sum_zero; [apply sqrt_0|].
  intros. lra.
Qed.

(** The metric reported by a learning update is computed before clipping. *)
Lemma learn_reports_unclipped (config : Config.t) (d emb : list R) (sig : R) :
  snd (learn config d emb sig)
  = calculateStateChange d
      (applyLSTMUpdate d emb (Config.LEARNING_RATE config * sig)).
Proof.
  unfold learn.
  destruct (Js.gtb _ _); reflexivity.
Qed.

(** After clipping the vector has moved by at most the clip norm. *)
Lemma learn_step_le_clip (config : Config.t) (d emb : list R) (sig : R) :
  0 < Config.GRADIENT_CLIP_NORM config ->
  calculateStateChange d (fst (learn config d emb sig))
  <= Config.GRADIENT_CLIP_NORM config.
Proof.
  intro Hclip. unfold learn.
  set (upd := applyLSTMUpdate d emb (Config.LEARNING_RATE config * sig)).
  set (sc := calculateStateChange d upd).
  set (clip := Config.GRADIENT_CLIP_NORM config) in *.
  unfold Js.gtb. destruct (Rgt_dec sc clip) as [Hgt|Hle]; cbn [fst].
  - assert (Hlen : List.length upd = List.length d)
      by apply length_applyLSTMUpdate.
    rewrite calculateStateChange_sum.
    rewrite (big_sum_ext _
               (fun i => (clip / sc) * (clip / sc)
                         * ((nth i upd 0 - nth i d 0) * (nth i upd 0 - nth i d 0)))).
    + rewrite big_sum_scal.
      assert (Hsc : sc = sqrt (big_sum
                 (fun i => (nth i upd 0 - nth i d 0) * (nth i upd 0 - nth i d 0))
                 (List.length d)))
        by (unfold sc; apply calculateStateChange_sum).
      assert (Hpos : 0 < sc) by lra.
      assert (Hs : 0 <= clip / sc)
        by (apply Rmult_le_pos; [lra | left; apply Rinv_0_lt_compat; assumption]).
      rewrite sqrt_mult; [| nra | apply big_sum_nonneg; intros; cbv beta; apply Rle_0_sqr].
      rewrite sqrt_square by assumption. rewrite <- Hsc.
      right. field. lra.
    + intros i Hi.
      rewrite (nth_mapi _ upd i 0 0) by lia. unfold Js.get. ring.
  - fold sc. lra.
Qed.


(** *** The default configuration *)

Lemma tanh_0_eq : tanh 0 = 0.
Proof. pose proof (tanh_small 0 0 ltac:(lra) ltac:(lra)). lra. Qed.

Lemma lstm_defaults_bound (emb : list R) (sig : R) (w : World) (i : nat) :
  well_formed w -> 0 <= sig <= 1 -> (i < 256)%nat ->
  - 0.01
  <= nth i (applyLSTMUpdate (decayed_state Config.defaults w) emb (0.001 * sig)) 0
  <= 0.01.
Proof.
  intros Hw Hsig Hi.
  rewrite nth_applyLSTMUpdate by (now rewrite length_decayed_state).
  pose proof (decayed_state_bound Config.defaults w i Hw Hi) as Hd.
  set (x := nth i (decayed_state Config.defaults w) 0) in *.
  pose proof (tanh_small (x * 0.9) 0.0045 ltac:(lra) ltac:(lra)) as HF.
  pose proof (tanh_range (nth i emb 0)) as HI.
  set (F := tanh (x * 0.9)) in *. set (I := tanh (nth i emb 0)) in *.
  assert (- 0.009 <= F * (1 - 0.001 * sig) <= 0.009) by nra.
  assert (- 0.001 <= I * (0.001 * sig) <= 0.001) by nra.
  lra.
Qed.

(** Under the defaults the clip never triggers: the step is at most 0.24. *)
Lemma learn_defaults (emb : list R) (sig : R) (w : World) :
  well_formed w -> 0 <= sig <= 1 ->
  let d := decayed_state Config.defaults w in
  learn Config.defaults d emb sig
  = (applyLSTMUpdate d emb (0.001 * sig),
     calculateStateChange d (applyLSTMUpdate d emb (0.001 * sig))) /\
  calculateStateChange d (applyLSTMUpdate d emb (0.001 * sig)) <= 0.24.
Proof.
  intros Hw Hsig d.
  assert (Hsc : calculateStateChange d (applyLSTMUpdate d emb (0.001 * sig)) <= 0.24).
  { pose proof (calculateStateChange_le d (applyLSTMUpdate d emb (0.001 * sig)) 0.015
                  ltac:(lra)) as H.
    assert (Hlen : List.length d = 256%nat) by apply length_decayed_state.
    rewrite Hlen, sqrt_INR_256 in H.
    assert (Hb : forall i, (i < 256)%nat ->
               - (0.015) <= nth i (applyLSTMUpdate d emb (0.001 * sig)) 0 - nth i d 0
               <= 0.015).
    { intros i Hi.
      pose proof (lstm_defaults_bound emb sig w i Hw Hsig Hi).
      pose proof (decayed_state_bound Config.defaults w i Hw Hi).
      fold d in H0, H1. lra. }
    specialize (H Hb). lra. }
  split; [|exact Hsc].
  unfold learn. cbn [Config.LEARNING_RATE Config.GRADIENT_CLIP_NORM Config.defaults].
  unfold Js.gtb.
  destruct (Rgt_dec _ _) as [Hgt|_]; [lra | reflexivity].
Qed.

(** C1 (code departs from the claim).  Under the default configuration, the
    vector returned by any valid [updateMemory] call has Euclidean norm at
    most 0.16: it is never within 1e-6 of 1, since the update ends without
    normalizing the vector. *)
Theorem updateMemory_norm_not_unit
        (uid : string) (emb : list R) (sig : R) (w : World) :
  well_formed w ->
  valid_update Config.defaults emb sig ->
  exists result w',
    updateMemory Config.defaults uid emb sig w = (Ok result, w') /\
    Js.norm (state (memoryState result)) <= 0.16 /\
    ~ (1 - 1e-6 <= Js.norm (state (memoryState result)) <= 1 + 1e-6).
Proof.
  intros Hw [Hsig Hlen].
  eexists _, _. split; [apply updateMemory_run; assumption|].
  cbn [memoryState state].
  assert (Hn : Js.norm (fst (step_of Config.defaults emb sig w)) <= 0.16).
  { unfold step_of.
    destruct (Js.geb sig (Config.SIGNIFICANCE_THRESHOLD Config.defaults)).
    - destruct (learn_defaults emb sig w Hw Hsig) as [E _]. rewrite E. cbn [fst].
      pose proof (norm_le (applyLSTMUpdate (decayed_state Config.defaults w) emb
                                           (0.001 * sig)) 0.01 ltac:(lra)) as H.
      rewrite length_applyLSTMUpdate, length_decayed_state in H.
      change (Config.MEMORY_DIMENSION Config.defaults) with 256%nat in H.
      rewrite sqrt_INR_256 in H.
      assert (Hb : forall i, (i < 256)%nat ->
                 - (0.01)
                 <= nth i (applyLSTMUpdate (decayed_state Config.defaults w) emb
                                           (0.001 * sig)) 0
                 <= 0.01)
        by (intros i Hi; pose proof (lstm_defaults_bound emb sig w i Hw Hsig Hi); lra).
      specialize (H Hb). lra.
    - cbn [fst].
      pose proof (norm_le (decayed_state Config.defaults w) 0.005 ltac:(lra)) as H.
      rewrite length_decayed_state in H.
      change (Config.MEMORY_DIMENSION Config.defaults) with 256%nat in H.
      rewrite sqrt_INR_256 in H.
      assert (Hb : forall i, (i < 256)%nat ->
                 - (0.005) <= nth i (decayed_state Config.defaults w) 0 <= 0.005)
        by (intros i Hi;
            pose proof (decayed_state_bound Config.defaults w i Hw Hi); lra).
      specialize (H Hb). lra. }
  split; [exact Hn | lra].
Qed.

Lemma updateMemory_norm_not_unit_witness :
  well_formed (steady 0.25) /\
  valid_update Config.defaults (repeat 0.5 256) 0.9 /\
  exists result w',
    updateMemory Config.defaults "u1" (repeat 0.5 256) 0.9 (steady 0.25)
    = (Ok result, w') /\
    Js.norm (state (memoryState result)) <= 0.16 /\
    ~ (1 - 1e-6 <= Js.norm (state (memoryState result)) <= 1 + 1e-6).
Proof.
  assert (Hw : well_formed (steady 0.25)) by (apply steady_well_formed; lra).
  assert (Hv : valid_update Config.defaults (repeat 0.5 256) 0.9)
    by (split; [lra | reflexivity]).
  split; [exact Hw|]. split; [exact Hv|].
  exact (updateMemory_norm_not_unit "u1" (repeat 0.5 256) 0.9 (steady 0.25) Hw Hv).
Defined.


(** *** The reported step and the clip norm *)

Lemma steady_half_decayed (config : Config.t) (i : nat) :
  (i < Config.MEMORY_DIMENSION config)%nat ->
  nth i (decayed_state config (steady 0.5)) 0 = 0.
Proof.
  intro Hi. unfold decayed_state.
  rewrite nth_map_R by (now rewrite length_drawn_state).
  unfold drawn_state.
  rewrite (nth_map_seq (fun k => (rng (steady 0.5) (draws (steady 0.5) + k)%nat - 0.5)
                                * 0.01)) by assumption.
  simpl. lra.
Qed.

(** C3, as stated, fails: with [LEARNING_RATE=1] and an embedding of 256
    entries [1e10] the reported [stateChange] is at least 6.4, above the
    clip norm 1 by more than 1. *)
Lemma reported_change_exceeds_clip :
  ~ reported_change_below_clip eager_config "u1" (repeat 1e10 256) 0.8
      (steady 0.5) 1.
Proof.
  intro H.
  assert (Hsig : 0 <= 0.8 <= 1) by lra.
  assert (Hlen : List.length (repeat 1e10 256) = Config.MEMORY_DIMENSION eager_config)
    by reflexivity.
  specialize (H _ _ (updateMemory_run eager_config "u1" (repeat 1e10 256) 0.8
                       (steady 0.5) Hsig Hlen)).
  cbn [metrics stateChange] in H. unfold step_of in H.
  rewrite geb_true in H by (simpl; lra).
  rewrite learn_reports_unclipped in H.
  set (d := decayed_state eager_config (steady 0.5)) in *.
  assert (Hd : List.length d = 256%nat) by apply length_decayed_state.
  pose proof (calculateStateChange_ge d
                (applyLSTMUpdate d (repeat 1e10 256)
                                 (Config.LEARNING_RATE eager_config * 0.8))
                0.4 ltac:(lra)) as Hge.
  rewrite Hd, sqrt_INR_256 in Hge.
  assert (Hb : forall i, (i < 256)%nat ->
             0.4 <= nth i (applyLSTMUpdate d (repeat 1e10 256)
                             (Config.LEARNING_RATE eager_config * 0.8)) 0
                    - nth i d 0).
  { intros i Hi. rewrite nth_applyLSTMUpdate by (rewrite Hd; assumption).
    unfold d. rewrite steady_half_decayed by assumption.
    rewrite nth_repeat_lt by assumption.
    rewrite Rmult_0_l, tanh_0_eq.
    pose proof (tanh_ge_half 1e10 ltac:(lra)).
    cbn [Config.LEARNING_RATE eager_config]. lra. }
  specialize (Hge Hb).
  cbn [Config.GRADIENT_CLIP_NORM eager_config] in H. lra.
Qed.

(** The same holds whatever the random draws of the initial state are. *)
Lemma eager_reported_change_large (w : World) :
  well_formed w ->
  exists result w',
    updateMemory eager_config "u1" (repeat 1e10 256) 0.8 w = (Ok result, w') /\
    6 <= stateChange (metrics result).
Proof.
  intro Hw.
  assert (Hsig : 0 <= 0.8 <= 1) by lra.
  assert (Hlen : List.length (repeat 1e10 256) = Config.MEMORY_DIMENSION eager_config)
    by reflexivity.
  eexists _, _. split; [apply updateMemory_run; assumption|].
  cbn [metrics stateChange]. unfold step_of.
  rewrite geb_true by (simpl; lra).
  rewrite learn_reports_unclipped.
  set (d := decayed_state eager_config w).
  assert (Hd : List.length d = 256%nat) by apply length_decayed_state.
  pose proof (calculateStateChange_ge d
                (applyLSTMUpdate d (repeat 1e10 256)
                                 (Config.LEARNING_RATE eager_config * 0.8))
                0.375 ltac:(lra)) as Hge.
  rewrite Hd, sqrt_INR_256 in Hge.
  assert (Hb : forall i, (i < 256)%nat ->
             0.375 <= nth i (applyLSTMUpdate d (repeat 1e10 256)
                               (Config.LEARNING_RATE eager_config * 0.8)) 0
                      - nth i d 0).
  { intros i Hi. rewrite nth_applyLSTMUpdate by (rewrite Hd; assumption).
    pose proof (decayed_state_bound eager_config w i Hw Hi) as Hdi.
    fold d in Hdi. set (x := nth i d 0) in *.
    rewrite nth_repeat_lt by assumption.
    pose proof (tanh_small (x * 0.9) 0.0045 ltac:(lra) ltac:(lra)).
    pose proof (tanh_ge_half 1e10 ltac:(lra)).
    cbn [Config.LEARNING_RATE eager_config]. lra. }
  specialize (Hge Hb). lra.
Qed.

(** *** The learning step against the specification's words *)

Lemma calculateStateChange_distance (old new : list R) :
  calculateStateChange old new = distance old new.
Proof. apply calculateStateChange_sum. Qed.

Lemma applyLSTMUpdate_blend (d emb : list R) (r : R) :
  applyLSTMUpdate d emb r = blend d emb r.
Proof.
  apply (nth_ext _ _ 0 0).
  - unfold blend. now rewrite length_applyLSTMUpdate, length_map, length_seq.
  - intros i Hi. rewrite length_applyLSTMUpdate in Hi.
    rewrite nth_applyLSTMUpdate by assumption.
    unfold blend.
    now rewrite (nth_map_seq
                   (fun i => tanh (nth i d 0 * 0.9) * (1 - r)
                             + tanh (nth i emb 0) * r)) by assumption.
Qed.

Lemma length_blend (d emb : list R) (r : R) :
  List.length (blend d emb r) = List.length d.
Proof. unfold blend. now rewrite length_map, length_seq. Qed.

(** The learning branch computes the clipped blend and reports the length
    of the blend step. *)
Lemma learn_clipped (config : Config.t) (d emb : list R) (sig : R) :
  learn config d emb sig
  = (clipped d (blend d emb (Config.LEARNING_RATE config * sig))
             (Config.GRADIENT_CLIP_NORM config),
     distance d (blend d emb (Config.LEARNING_RATE config * sig))).
Proof.
  unfold learn, clipped, Js.gtb.
  rewrite calculateStateChange_distance, applyLSTMUpdate_blend.
  set (target := blend d emb (Config.LEARNING_RATE config * sig)).
  destruct (Rgt_dec (distance d target) (Config.GRADIENT_CLIP_NORM config));
    [|reflexivity].
  f_equal. apply (nth_ext _ _ 0 0).
  - now rewrite length_mapi, length_map, length_seq.
  - intros i Hi. rewrite length_mapi in Hi.
    rewrite (nth_mapi _ target i 0 0) by assumption.
    rewrite (nth_map_seq
               (fun i => nth i d 0
                         + (nth i target 0 - nth i d 0)
                           * (Config.GRADIENT_CLIP_NORM config / distance d target)))
      by assumption.
    reflexivity.
Qed.

Lemma blend_entries (d emb : list R) (r : R) :
  0 <= r <= 1 -> entries_within 1 (blend d emb r).
Proof.
  intros Hr i Hi. rewrite length_blend in Hi.
  unfold blend.
  rewrite (nth_map_seq
             (fun i => tanh (nth i d 0 * 0.9) * (1 - r) + tanh (nth i emb 0) * r))
    by assumption.
  pose proof (tanh_range (nth i d 0 * 0.9)) as HF.
  pose proof (tanh_range (nth i emb 0)) as HI.
  set (F := tanh (nth i d 0 * 0.9)) in *. set (I := tanh (nth i emb 0)) in *.
  split; nra.
Qed.

(** Clipping moves every entry to a point between the decayed entry and
    the target entry. *)
Lemma clipped_entries (d target : list R) (clip bound : R) :
  0 < clip ->
  List.length target = List.length d ->
  entries_within bound d -> entries_within bound target ->
  entries_within bound (clipped d target clip).
Proof.
  intros Hclip Hlen Hd Ht. unfold clipped.
  destruct (Rgt_dec (distance d target) clip) as [Hgt|_]; [|exact Ht].
  intros i Hi. rewrite length_map, length_seq in Hi.
  rewrite (nth_map_seq
             (fun i => nth i d 0
                       + (nth i target 0 - nth i d 0) * (clip / distance d target)))
    by assumption.
  specialize (Ht i Hi). rewrite Hlen in Hi. specialize (Hd i Hi).
  set (s := clip / distance d target).
  assert (Hs : 0 <= s <= 1).
  { unfold s. split.
    - apply Rmult_le_pos; [lra | left; apply Rinv_0_lt_compat; lra].
    - apply Rmult_le_reg_r with (distance d target); [lra|].
      unfold Rdiv. rewrite Rmult_assoc, Rinv_l by lra. lra. }
  set (x := nth i d 0) in *. set (y := nth i target 0) in *.
  replace (x + (y - x) * s) with (x * (1 - s) + y * s) by ring.
  split; nra.
Qed.

Lemma length_clipped (d target : list R) (clip : R) :
  List.length (clipped d target clip) = List.length target.
Proof.
  unfold clipped. destruct (Rgt_dec _ _); [|reflexivity].
  now rewrite length_map, length_seq.
Qed.

Lemma decayed_entries (config : Config.t) (w : World) :
  well_formed w -> entries_within 0.005 (decayed_state config w).
Proof.
  intros Hw i Hi. rewrite length_decayed_state in Hi.
  pose proof (decayed_state_bound config w i Hw Hi). lra.
Qed.

Lemma entries_within_le (a b : R) (v : list R) :
  a <= b -> entries_within a v -> entries_within b v.
Proof. intros Hab H i Hi. specialize (H i Hi). lra. Qed.

(** C3, amended.  For every valid call under a configuration the schema
    accepts with a learning rate of at most 1, and with a clock that does
    not run backwards: the call returns; every entry of the returned vector
    is a number of magnitude at most 1, up to the tolerance 1e-6; the
    Euclidean distance between the returned vector and the time-decayed
    vector is below the clip norm plus 1e-6; and under the default
    configuration the reported [stateChange] is at most 0.24, below the
    clip norm as well. *)
Theorem updateMemory_step_clipped
        (config : Config.t) (uid : string) (emb : list R) (sig : R) (w : World) :
  Config.configSchema config ->
  Config.LEARNING_RATE config <= 1 ->
  well_formed w ->
  valid_update config emb sig ->
  exists prior w1 decayed w2 result w3,
    getMemoryState config uid w = (Ok prior, w1) /\
    applyTimeDecay (state prior) (lastUpdate prior) 0.99 w1 = (Ok decayed, w2) /\
    updateMemory config uid emb sig w = (Ok result, w3) /\
    List.length (state (memoryState result)) = Config.MEMORY_DIMENSION config /\
    entries_within (1 + 1e-6) (state (memoryState result)) /\
    distance decayed (state (memoryState result))
    < Config.GRADIENT_CLIP_NORM config + 1e-6 /\
    (config = Config.defaults ->
     stateChange (metrics result) <= 0.24
     /\ 0.24 < Config.GRADIENT_CLIP_NORM config + 1e-6).
Proof.
  intros (_ & Hlr & Hclip & _) Hlr1 Hw [Hsig Hlen].
  pose proof (updateMemory_run config uid emb sig w Hsig Hlen) as Hrun.
  exists {| userId := uid;
            dimension := Config.MEMORY_DIMENSION config;
            state := drawn_state config w;
            lastUpdate := clock w (ticks w);
            eventCount := 0;
            significantEventCount := 0;
            totalLearningUpdates := 0 |},
         (later w 1 (Config.MEMORY_DIMENSION config)),
         (decayed_state config w).
  eexists _, _, _.
  split; [unfold getMemoryState; apply initializeMemory_run|].
  split; [rewrite applyTimeDecay_run; reflexivity|].
  split; [exact Hrun|].
  cbn [memoryState metrics stateChange state].
  unfold step_of.
  pose proof (decayed_entries config w Hw) as Hd.
  destruct (Js.geb sig (Config.SIGNIFICANCE_THRESHOLD config)) eqn:Hgeb.
  - assert (Hr : 0 <= Config.LEARNING_RATE config * sig <= 1) by nra.
    split; [rewrite learn_clipped; cbn [fst];
            now rewrite length_clipped, length_blend, length_decayed_state|].
    split.
    { rewrite learn_clipped. cbn [fst].
      apply entries_within_le with 1; [lra|].
      apply clipped_entries;
        [assumption | apply length_blend
         | apply entries_within_le with 0.005; [lra | assumption]
         | apply blend_entries; assumption]. }
    split.
    { rewrite <- calculateStateChange_distance.
      pose proof (learn_step_le_clip config (decayed_state config w) emb sig Hclip).
      lra. }
    intros ->. rewrite learn_reports_unclipped.
    destruct (learn_defaults emb sig w Hw Hsig) as [_ Hsc].
    cbn [Config.LEARNING_RATE Config.GRADIENT_CLIP_NORM Config.defaults].
    split; [exact Hsc | lra].
  - cbn [fst snd].
    split; [apply length_decayed_state|].
    split; [apply entries_within_le with 0.005; [lra | assumption]|].
    split.
    { rewrite <- calculateStateChange_distance, calculateStateChange_same. lra. }
    intros ->. cbn [Config.GRADIENT_CLIP_NORM Config.defaults]. lra.
Qed.

Lemma updateMemory_step_clipped_witness :
  Config.configSchema eager_config /\
  Config.LEARNING_RATE eager_config <= 1 /\
  well_formed (steady 0.25) /\
  valid_update eager_config (repeat 1e10 256) 0.8 /\
  exists prior w1 decayed w2 result w3,
    getMemoryState eager_config "u1" (steady 0.25) = (Ok prior, w1) /\
    applyTimeDecay (state prior) (lastUpdate prior) 0.99 w1 = (Ok decayed, w2) /\
    updateMemory eager_config "u1" (repeat 1e10 256) 0.8 (steady 0.25)
    = (Ok result, w3) /\
    List.length (state (memoryState result))
    = Config.MEMORY_DIMENSION eager_config /\
    entries_within (1 + 1e-6) (state (memoryState result)) /\
    distance decayed (state (memoryState result))
    < Config.GRADIENT_CLIP_NORM eager_config + 1e-6 /\
    (eager_config = Config.defaults ->
     stateChange (metrics result) <= 0.24
     /\ 0.24 < Config.GRADIENT_CLIP_NORM eager_config + 1e-6).
Proof.
  assert (Hc : Config.configSchema eager_config)
    by (unfold Config.configSchema; simpl; repeat split; try lra; lia).
  assert (Hl : Config.LEARNING_RATE eager_config <= 1) by (simpl; lra).
  assert (Hw : well_formed (steady 0.25)) by (apply steady_well_formed; lra).
  assert (Hv : valid_update eager_config (repeat 1e10 256) 0.8)
    by (split; [lra | reflexivity]).
  split; [exact Hc|]. split; [exact Hl|]. split; [exact Hw|]. split; [exact Hv|].
  exact (updateMemory_step_clipped eager_config "u1" (repeat 1e10 256) 0.8
           (steady 0.25) Hc Hl Hw Hv).
Defined.

End MemoryFacts.

(** ** services/eventService *)

Module EventFacts.
Import Errors Runtime EventService Trace Sums Analysis RuntimeFacts.

Lemma clamp01_min_max (x : R) : Rmin (Rmax x 0) 1 = clamp01 x.
Proof.
  unfold clamp01, Rmin, Rmax.
  destruct (Rlt_dec x 0), (Rlt_dec 1 x), (Rle_dec x 0);
    try destruct (Rle_dec x 1); try destruct (Rle_dec 0 1); lra.
Qed.

Lemma norm_nonneg (v : list R) : 0 <= Js.norm v.
Proof. unfold Js.norm. apply sqrt_pos. Qed.

(** How [calculateSignificance] runs: one clock reading when the metadata
    carries a timestamp, none otherwise. *)
Lemma calculateSignificance_run (content : string) (embedding : list R)
      (metadata : option Metadata.t) (w : World) :
  let md := match metadata with Some m => m | None => Metadata.empty end in
  calculateSignificance content embedding metadata w
  = (Ok (significance_formula content embedding
           (Metadata.importance md) (Metadata.timestamp md)
           (clock w (ticks w))),
     later w (match Metadata.timestamp md with Some _ => 1 | None => 0 end) 0).
Proof.
  intro md. unfold calculateSignificance, significance_formula.
  fold md. unfold euclidean_norm. rewrite <- norm_big_sum.
  unfold Js.length_of.
  assert (Himp :
    (match Metadata.importance md with
     | Some importance =>
         if Js.truthy_number importance
         then 0.5 + Rmin (IZR (Z.of_nat (String.length content)) / 500) 1.0 * 0.2
              + Rmin (Js.norm embedding) 1.0 * 0.2 + Rmin importance 1.0 * 0.2
         else 0.5 + Rmin (IZR (Z.of_nat (String.length content)) / 500) 1.0 * 0.2
              + Rmin (Js.norm embedding) 1.0 * 0.2
     | None => 0.5 + Rmin (IZR (Z.of_nat (String.length content)) / 500) 1.0 * 0.2
               + Rmin (Js.norm embedding) 1.0 * 0.2
     end)
    = 0.5 + Rmin (IZR (Z.of_nat (String.length content)) / 500) 1 * 0.2
      + Rmin (Js.norm embedding) 1 * 0.2
      + match Metadata.importance md with
        | Some importance => Rmin importance 1 * 0.2
        | None => 0
        end).
  { replace 1.0 with 1 by lra.
    destruct (Metadata.importance md) as [imp|]; [|lra].
    unfold Js.truthy_number. destruct (Req_dec_T imp 0) as [->|_]; [|reflexivity].
    unfold Rmin. destruct (Rle_dec 0 1); lra. }
  rewrite Himp. clear Himp.
  destruct (Metadata.timestamp md) as [t|].
  - unfold bind. rewrite Date_now_run. unfold ret.
    rewrite clamp01_min_max.
    do 3 f_equal. do 3 f_equal. lra.
  - unfold bind, ret. rewrite later_0, clamp01_min_max.
    do 3 f_equal. lra.
Qed.

(** C4.  For every event text, embedding and optional metadata, the score
    computed by [calculateSignificance] is the clamp to [[0,1]] of
    0.5 + min(len(text)/500, 1)*0.2 + min(norm(embedding), 1)*0.2, plus
    min(importance, 1)*0.2 when an importance is given, plus
    exp(-age_days/30)*0.1 when a timestamp is given. *)
Theorem calculateSignificance_formula (content : string) (embedding : list R)
        (metadata : option Metadata.t) (w : World) :
  exists w',
    calculateSignificance content embedding metadata w
    = (Ok (significance_formula content embedding
             (match metadata with
              | Some m => Metadata.importance m
              | None => None
              end)
             (match metadata with
              | Some m => Metadata.timestamp m
              | None => None
              end)
             (clock w (ticks w))),
       w').
Proof.
  destruct metadata as [m|]; eexists;
    rewrite calculateSignificance_run; reflexivity.
Qed.

(** *** Validation and the result of [processEvent] *)

Lemma validateEvent_acceptable (event : EventInput.t) :
  acceptable event = true -> validateEvent event = Ok tt.
Proof.
  unfold acceptable, validateEvent. intro H.
  repeat (apply andb_prop in H; destruct H as [H ?]).
  destruct (EventInput.userId event) as [| | | | |u| |]; try discriminate.
  destruct (EventInput.content event) as [| | | | |s| |]; try discriminate.
  cbn [Js.is_string Js.string_of negb orb] in *.
  match goal with Hu : Js.truthy (Js.str _) = true |- _ => rewrite Hu end.
  cbn [negb orb].
  assert (Hs : Js.truthy (Js.str s) = true).
  { destruct s; [|reflexivity]. cbv in H3. discriminate. }
  rewrite Hs. cbn [negb].
  destruct (Z.ltb_spec (Js.length_of s) 5) as [Hlt|_];
    [apply Z.leb_le in H2; lia|].
  destruct (Z.ltb_spec 10000 (Js.length_of s)) as [Hlt|_];
    [apply Z.leb_le in H1; lia|].
  destruct (Js.truthy (EventInput.timestamp event)),
           (Js.instanceof_Date (EventInput.timestamp event));
    try discriminate; reflexivity.
Qed.

Lemma validateEvent_unacceptable (event : EventInput.t) :
  acceptable event = false ->
  exists message, validateEvent event = Throw (ValidationError message).
Proof.
  unfold acceptable, validateEvent. intro H.
  destruct (Js.truthy (EventInput.userId event)); cbn [negb orb andb] in *;
    [|eauto].
  destruct (Js.is_string (EventInput.userId event)); cbn [negb orb andb] in *;
    [|eauto].
  destruct (Js.truthy (EventInput.content event)); cbn [negb orb andb] in *;
    [|eauto].
  destruct (Js.is_string (EventInput.content event)); cbn [negb orb andb] in *;
    [|eauto].
  destruct (Z.ltb_spec (Js.length_of (Js.string_of (EventInput.content event))) 5)
    as [|Hge]; [eauto|].
  destruct (Z.ltb_spec 10000 (Js.length_of (Js.string_of (EventInput.content event))))
    as [|Hle]; [eauto|].
  apply Z.leb_le in Hge, Hle. rewrite Hge, Hle in H. cbn [andb] in H.
  destruct (Js.truthy (EventInput.timestamp event)),
           (Js.instanceof_Date (EventInput.timestamp event));
    cbn in *; try discriminate; eauto.
Qed.

Lemma processEvent_throw (config : Config.t) (event : EventInput.t)
      (e : AppError) (w : World) :
  validateEvent event = Throw e ->
  processEvent config event w = (Throw e, later w 1 0).
Proof.
  intro H. unfold processEvent, bind. rewrite Date_now_run, H. reflexivity.
Qed.

Lemma processEvent_ok (config : Config.t) (event : EventInput.t) (w : World) :
  validateEvent event = Ok tt ->
  exists result w',
    processEvent config event w = (Ok result, w') /\
    ProcessedEvent.significance (EventProcessingResult.event result)
    = significance_formula
        (Js.string_of (EventInput.content event))
        (createEmbedding config (Js.string_of (EventInput.content event)))
        (importance_of event) (timestamp_of event)
        (clock w (ticks w + 1)%nat) /\
    EventProcessingResult.significant result
    = Js.geb (ProcessedEvent.significance (EventProcessingResult.event result))
             (Config.SIGNIFICANCE_THRESHOLD config) /\
    EventProcessingResult.learningTriggered result
    = EventProcessingResult.significant result.
Proof.
  intro H. unfold processEvent. unfold bind at 1.
  rewrite Date_now_run, H. unfold bind at 1.
  rewrite calculateSignificance_run.
  unfold bind, generateEventId, Date_now, Math_random, ret.
  destruct (Js.truthy (EventInput.timestamp event));
    eexists _, _; (split; [reflexivity|]);
    cbn [EventProcessingResult.event EventProcessingResult.significant
         EventProcessingResult.learningTriggered ProcessedEvent.significance];
    unfold importance_of, timestamp_of;
    (repeat split);
    destruct (EventInput.metadata event); reflexivity.
Qed.

(** C7, as stated, fails: an event whose content is a string of five
    characters is rejected when its [userId] is empty. *)
Lemma content_in_range_not_sufficient :
  ~ (accepts Config.defaults nameless_event (steady 0.5)
     <-> content_in_range nameless_event).
Proof.
  intros [_ H].
  destruct H as (result & w' & E).
  - exists "hello"%string. split; [reflexivity | simpl; lia].
  - rewrite (processEvent_throw Config.defaults nameless_event
               (ValidationError "Invalid userId")) in E by reflexivity.
    discriminate.
Qed.

Lemma acceptable_split (event : EventInput.t) :
  acceptable event
  = acceptable_fields event && negb (timestamp_refused event).
Proof.
  unfold acceptable, acceptable_fields, timestamp_refused.
  destruct (Js.truthy (EventInput.timestamp event)),
           (Js.instanceof_Date (EventInput.timestamp event));
    reflexivity.
Qed.

Lemma timestamp_absent_or_valid_passes (event : EventInput.t) :
  timestamp_absent_or_valid event -> timestamp_refused event = false.
Proof.
  unfold timestamp_refused. intros [-> | (t & ->)]; reflexivity.
Qed.

Lemma processEvent_rejects (config : Config.t) (event : EventInput.t) (w : World) :
  acceptable event = false ->
  rejects config event w /\ ~ accepts config event w.
Proof.
  intro Hacc.
  destruct (validateEvent_unacceptable event Hacc) as (msg & Hv).
  pose proof (processEvent_throw config event _ w Hv) as E.
  split.
  - eexists _, _. split; [exact E | reflexivity].
  - intros (r & w' & E'). rewrite E in E'. discriminate.
Qed.

(** The guard on the timestamp tests [instanceof Date] only: the invalid
    date [new Date('garbage')] passes it, and the event is processed. *)
Lemma invalid_date_is_accepted :
  accepts Config.defaults misdated_event (steady 0.5).
Proof.
  destruct (processEvent_ok Config.defaults misdated_event (steady 0.5) eq_refl)
    as (r & w' & E & _).
  exists r, w'. exact E.
Qed.

(** C7, amended.  An event whose timestamp is absent or a valid [Date] is
    accepted by [processEvent] exactly when its [userId] is a non-empty
    string and its content is a string of 5 to 10,000 characters inclusive.
    Every event with a shorter, longer, empty or non-string content, with a
    missing or non-string [userId], or with a truthy timestamp that is no
    [Date], fails with a [ValidationError] and produces no processed
    event. *)
Theorem processEvent_accepts_iff (config : Config.t) (event : EventInput.t)
        (w : World) :
  (timestamp_absent_or_valid event ->
   (accepts config event w <-> acceptable_fields event = true)) /\
  (acceptable_fields event = false \/ timestamp_refused event = true ->
   rejects config event w /\ ~ accepts config event w).
Proof.
  split.
  - intro Hts. apply timestamp_absent_or_valid_passes in Hts.
    destruct (acceptable_fields event) eqn:Hf.
    + assert (Hacc : acceptable event = true)
        by (rewrite acceptable_split, Hf, Hts; reflexivity).
      pose proof (validateEvent_acceptable event Hacc) as Hv.
      destruct (processEvent_ok config event w Hv) as (r & w' & E & _).
      split; [reflexivity | intros _; exists r, w'; exact E].
    + assert (Hacc : acceptable event = false)
        by (rewrite acceptable_split, Hf; reflexivity).
      destruct (processEvent_rejects config event w Hacc) as [_ Hn].
      split; [intro H; elim (Hn H) | discriminate].
  - intro H. apply processEvent_rejects.
    rewrite acceptable_split.
    destruct H as [-> | ->]; [reflexivity | apply andb_false_r].
Qed.

Lemma processEvent_accepts_iff_witness :
  timestamp_absent_or_valid training_event /\
  (accepts Config.defaults training_event (steady 0.5)
   <-> acceptable_fields training_event = true) /\
  (acceptable_fields text_dated_event = false
   \/ timestamp_refused text_dated_event = true) /\
  rejects Config.defaults text_dated_event (steady 0.5) /\
  ~ accepts Config.defaults text_dated_event (steady 0.5).
Proof.
  assert (Hts : timestamp_absent_or_valid training_event) by (left; reflexivity).
  assert (Hr : acceptable_fields text_dated_event = false
               \/ timestamp_refused text_dated_event = true)
    by (right; reflexivity).
  split; [exact Hts|].
  split; [exact (proj1 (processEvent_accepts_iff Config.defaults training_event
                          (steady 0.5)) Hts)|].
  split; [exact Hr|].
  exact (proj2 (processEvent_accepts_iff Config.defaults text_dated_event
                  (steady 0.5)) Hr).
Defined.


(** *** The lower bound of the score *)

Lemma clamp01_ge_half (x : R) : 0.5 <= x -> 0.5 <= clamp01 x.
Proof.
  intro H. unfold clamp01.
  destruct (Rlt_dec x 0); [lra|]. destruct (Rlt_dec 1 x); lra.
Qed.

Lemma clamp01_neg (x : R) : x < 0 -> clamp01 x = 0.
Proof. intro H. unfold clamp01. destruct (Rlt_dec x 0); [reflexivity | lra]. Qed.

Lemma clamp01_range (x : R) : 0 <= clamp01 x <= 1.
Proof.
  unfold clamp01. destruct (Rlt_dec x 0); [lra|]. destruct (Rlt_dec 1 x); lra.
Qed.

Lemma significance_formula_ge_half (text : string) (embedding : list R)
      (importance : option R) (timestamp : option Z) (now : Z) :
  match importance with Some imp => 0 <= imp | None => True end ->
  0.5 <= significance_formula text embedding importance timestamp now.
Proof.
  intro Himp. unfold significance_formula. apply clamp01_ge_half.
  assert (H1 : 0 <= Rmin (IZR (Z.of_nat (String.length text)) / 500) 1).
  { apply Rmin_glb; [|lra].
    assert (0 <= IZR (Z.of_nat (String.length text))) by (apply IZR_le; lia).
    lra. }
  assert (H2 : 0 <= Rmin (euclidean_norm embedding) 1).
  { apply Rmin_glb; [apply sqrt_pos | lra]. }
  assert (H3 : 0 <= match importance with
                    | Some imp => Rmin imp 1 * 0.2
                    | None => 0
                    end).
  { destruct importance as [imp|]; [|lra].
    assert (0 <= Rmin imp 1) by (apply Rmin_glb; lra). lra. }
  assert (H4 : 0 <= match timestamp with
                    | Some t =>
                        let age_days := IZR (now - t) / 86400000 in
                        exp (- age_days / 30) * 0.1
                    | None => 0
                    end).
  { destruct timestamp as [t|]; [|lra]. cbv zeta.
    pose proof (exp_pos (- (IZR (now - t) / 86400000) / 30)). lra. }
  lra.
Qed.

(** *** Events with metadata of arbitrary values *)

Section UntypedRuns.
Variable config : Config.t.
Variable Number_of_string : string -> Js.number.
Variable Date_parse : string -> option Z.

(** How the scorer runs on metadata of arbitrary values: one clock reading
    when the timestamp entry is truthy, none otherwise. *)
Lemma untyped_calculateSignificance_run (content : string) (embedding : list R)
      (metadata : option Untyped.Metadata.t) (w : World) :
  let m := match metadata with Some m => m | None => Untyped.Metadata.empty end in
  Untyped.calculateSignificance Number_of_string Date_parse
    content embedding metadata w
  = (Ok (significance_of_any Number_of_string Date_parse content embedding m
           (clock w (ticks w))),
     later w (if Js.truthy_any (Untyped.Metadata.timestamp m) then 1 else 0) 0).
Proof.
  intro m. unfold Untyped.calculateSignificance, significance_of_any.
  fold m. unfold euclidean_norm. rewrite <- norm_big_sum.
  unfold Js.length_of.
  replace 1.0 with 1 by lra.
  set (len := Rmin (IZR (Z.of_nat (String.length content)) / 500) 1 * 0.2).
  set (mag := Rmin (Js.norm embedding) 1 * 0.2).
  destruct (Js.truthy_any (Untyped.Metadata.importance m));
    destruct (Js.truthy_any (Untyped.Metadata.timestamp m));
    unfold bind; rewrite ?Date_now_run; unfold ret; rewrite ?later_0;
    try destruct (Js.ToNumber Number_of_string (Untyped.Metadata.importance m));
    try destruct (Js.Date_getTime Date_parse (Untyped.Metadata.timestamp m));
    cbn [Js.add Js.sub Js.mul Js.Math_min Js.Math_max Js.Math_exp Js.lift1 Js.lift2];
    try reflexivity;
    rewrite clamp01_min_max; do 4 f_equal;
    assert (E : 1000 * 60 * 60 * 24 = 86400000) by lra; rewrite ?E; lra.
Qed.

Lemma untyped_processEvent_ok (event : Untyped.EventInput.t) (w : World) :
  Untyped.validateEvent event = Ok tt ->
  exists result w',
    Untyped.processEvent config Number_of_string Date_parse event w
    = (Ok result, w') /\
    Untyped.ProcessedEvent.significance (Untyped.EventProcessingResult.event result)
    = significance_of_any Number_of_string Date_parse
        (Js.string_of (Untyped.EventInput.content event))
        (createEmbedding config (Js.string_of (Untyped.EventInput.content event)))
        (metadata_of event) (clock w (ticks w + 1)%nat) /\
    Untyped.EventProcessingResult.significant result
    = Js.ge (Untyped.ProcessedEvent.significance
               (Untyped.EventProcessingResult.event result))
            (Js.fin (Config.SIGNIFICANCE_THRESHOLD config)) /\
    Untyped.EventProcessingResult.learningTriggered result
    = Untyped.EventProcessingResult.significant result.
Proof.
  intro H. unfold Untyped.processEvent. unfold bind at 1.
  rewrite Date_now_run, H. unfold bind at 1.
  rewrite untyped_calculateSignificance_run.
  unfold bind, generateEventId, Date_now, Math_random, ret.
  destruct (Js.truthy (Untyped.EventInput.timestamp event));
    eexists _, _; (split; [reflexivity|]);
    cbn [Untyped.EventProcessingResult.event
         Untyped.EventProcessingResult.significant
         Untyped.EventProcessingResult.learningTriggered
         Untyped.ProcessedEvent.significance];
    unfold metadata_of;
    (repeat split);
    destruct (Untyped.EventInput.metadata event); reflexivity.
Qed.

(** The score is [NaN] or a number between 0 and 1. *)
Lemma significance_of_any_range (text : string) (embedding : list R)
      (m : Untyped.Metadata.t) (now : Z) :
  significance_of_any Number_of_string Date_parse text embedding m now = Js.NaN \/
  number_within 0 1
    (significance_of_any Number_of_string Date_parse text embedding m now).
Proof.
  unfold significance_of_any. cbv zeta.
  match goal with
  | |- Js.lift1 clamp01 ?a = _ \/ _ => destruct a as [x|]
  end; [right | left; reflexivity].
  exists (clamp01 x). split; [reflexivity | apply clamp01_range].
Qed.

Lemma base_score_range (text : string) (embedding : list R) :
  0.5 <= 0.5 + Rmin (IZR (Z.of_nat (String.length text)) / 500) 1 * 0.2
         + Rmin (euclidean_norm embedding) 1 * 0.2 <= 0.9.
Proof.
  assert (H1 : 0 <= Rmin (IZR (Z.of_nat (String.length text)) / 500) 1 <= 1).
  { split; [|apply Rmin_r]. apply Rmin_glb; [|lra].
    assert (0 <= IZR (Z.of_nat (String.length text))) by (apply IZR_le; lia).
    lra. }
  assert (H2 : 0 <= Rmin (euclidean_norm embedding) 1 <= 1).
  { split; [|apply Rmin_r]. apply Rmin_glb; [apply sqrt_pos | lra]. }
  lra.
Qed.

(** With an importance that has a number and a timestamp that has a time,
    the score is a number; it is at least 0.5 when the importance is not
    negative. *)
Lemma significance_of_any_number (text : string) (embedding : list R)
      (m : Untyped.Metadata.t) (now : Z) :
  (Js.truthy_any (Untyped.Metadata.importance m) = false \/
   exists x, Js.ToNumber Number_of_string (Untyped.Metadata.importance m)
             = Js.fin x) ->
  (Js.truthy_any (Untyped.Metadata.timestamp m) = false \/
   exists t, Js.Date_getTime Date_parse (Untyped.Metadata.timestamp m)
             = Js.fin t) ->
  exists s,
    significance_of_any Number_of_string Date_parse text embedding m now
    = Js.fin s /\ 0 <= s <= 1 /\
    ((Js.truthy_any (Untyped.Metadata.importance m) = false \/
      exists x, Js.ToNumber Number_of_string (Untyped.Metadata.importance m)
                = Js.fin x /\ 0 <= x) ->
     0.5 <= s).
Proof.
  intros Himp Hts. unfold significance_of_any. cbv zeta.
  pose proof (base_score_range text embedding) as Hb.
  set (base := 0.5 + Rmin (IZR (Z.of_nat (String.length text)) / 500) 1 * 0.2
               + Rmin (euclidean_norm embedding) 1 * 0.2) in *.
  assert (Hi : exists i,
             (if Js.truthy_any (Untyped.Metadata.importance m)
              then Js.lift1 (fun x => Rmin x 1 * 0.2)
                     (Js.ToNumber Number_of_string (Untyped.Metadata.importance m))
              else Js.fin 0) = Js.fin i /\
             ((Js.truthy_any (Untyped.Metadata.importance m) = false \/
               exists x, Js.ToNumber Number_of_string
                           (Untyped.Metadata.importance m) = Js.fin x /\ 0 <= x) ->
              0 <= i)).
  { destruct (Js.truthy_any (Untyped.Metadata.importance m)).
    - destruct Himp as [Hf | (x & Hx)]; [discriminate|].
      rewrite Hx. eexists. split; [reflexivity|].
      intros [Hf | (y & Hy & Hy0)]; [discriminate|].
      assert (y = x) by congruence. subst y.
      assert (0 <= Rmin x 1) by (apply Rmin_glb; lra). lra.
    - exists 0. split; [reflexivity | intros _; lra]. }
  destruct Hi as (i & -> & Hi0).
  assert (Hr : exists r,
             (if Js.truthy_any (Untyped.Metadata.timestamp m)
              then Js.lift1
                     (fun t => exp (- ((IZR now - t) / 86400000) / 30) * 0.1)
                     (Js.Date_getTime Date_parse (Untyped.Metadata.timestamp m))
              else Js.fin 0) = Js.fin r /\ 0 <= r).
  { destruct (Js.truthy_any (Untyped.Metadata.timestamp m)).
    - destruct Hts as [Hf | (t & Ht)]; [discriminate|].
      rewrite Ht. eexists. split; [reflexivity|].
      pose proof (exp_pos (- ((IZR now - t) / 86400000) / 30)). lra.
    - exists 0. split; [reflexivity | lra]. }
  destruct Hr as (r & -> & Hr0).
  eexists. split; [reflexivity|].
  split; [apply clamp01_range|].
  intro Hn. specialize (Hi0 Hn). apply clamp01_ge_half. lra.
Qed.

(** An importance of -5 outweighs the other terms: the score is 0. *)
Lemma significance_of_any_unimportant (text : string) (embedding : list R)
      (now : Z) :
  significance_of_any Number_of_string Date_parse text embedding
    {| Untyped.Metadata.importance := Js.real (-5);
       Untyped.Metadata.timestamp := Js.other Js.undefined |} now
  = Js.fin 0.
Proof.
  unfold significance_of_any.
  cbn [Untyped.Metadata.importance Untyped.Metadata.timestamp
       Js.truthy_any Js.truthy Js.ToNumber].
  assert (Ht : Js.truthy_number (-5) = true).
  { unfold Js.truthy_number. destruct (Req_dec_T (-5) 0); [lra | reflexivity]. }
  rewrite Ht. cbn [Js.lift1 Js.lift2 Js.add]. f_equal.
  apply clamp01_neg.
  pose proof (base_score_range text embedding).
  pose proof (Rmin_l (-5) 1). lra.
Qed.

End UntypedRuns.

(** The scorer agrees with its embedding for metadata of [Metadata.t]. *)
Lemma calculateSignificance_of_typed
      (Number_of_string : string -> Js.number) (Date_parse : string -> option Z)
      (content : string) (embedding : list R)
      (metadata : option Metadata.t) (w : World) :
  exists s w',
    calculateSignificance content embedding metadata w = (Ok s, w') /\
    Untyped.calculateSignificance Number_of_string Date_parse
      content embedding (option_map Untyped.of_typed metadata) w
    = (Ok (Js.fin s), w').
Proof.
  eexists _, _. split; [apply calculateSignificance_run|].
  rewrite untyped_calculateSignificance_run.
  unfold significance_of_any, significance_formula.
  destruct metadata as [[imp ts]|]; cbn -[clamp01 euclidean_norm Rmin exp];
    [|do 3 f_equal; lra].
  destruct imp as [imp|], ts as [t|];
    cbn -[clamp01 euclidean_norm Rmin exp];
    try (unfold Js.truthy_number; destruct (Req_dec_T imp 0) as [->|_]);
    cbn -[clamp01 euclidean_norm Rmin exp];
    rewrite ?minus_IZR;
    assert (E0 : Rmin 0 1 = 0) by (unfold Rmin; destruct (Rle_dec 0 1); lra);
    rewrite ?E0; do 4 f_equal; lra.
Qed.

(** C9, as stated, fails: an event that passes validation and carries the
    importance -5 gets the score 0, and one whose metadata carries an
    invalid date as its timestamp gets the score [NaN]; neither is marked
    significant. *)
Lemma processEvent_not_always_significant :
  ~ always_significant Config.defaults no_number no_date
      unimportant_event (steady 0.5) /\
  ~ always_significant Config.defaults no_number no_date
      undated_event (steady 0.5).
Proof.
  split; intro H.
  - destruct (untyped_processEvent_ok Config.defaults no_number no_date
                unimportant_event (steady 0.5) eq_refl)
      as (result & w' & E & Hs & _).
    destruct (H result w' E) as [Hhalf _].
    rewrite Hs in Hhalf.
    unfold metadata_of, unimportant_event, hello_event in Hhalf.
    cbn [Untyped.EventInput.metadata] in Hhalf.
    rewrite significance_of_any_unimportant in Hhalf.
    unfold Js.ge, Js.geb in Hhalf.
    destruct (Rge_dec 0 0.5); [lra | discriminate].
  - destruct (untyped_processEvent_ok Config.defaults no_number no_date
                undated_event (steady 0.5) eq_refl)
      as (result & w' & E & Hs & _).
    destruct (H result w' E) as [Hhalf _].
    rewrite Hs in Hhalf. discriminate Hhalf.
Qed.

(** C9, amended.  For every event that passes validation, whose metadata
    carries no importance or one whose number is finite and not negative,
    and no timestamp or one that [new Date] turns into a valid date,
    [processEvent] returns a result whose significance is a number of at
    least 0.5; hence, when the configured threshold is at most 0.5, as the
    default is, the event is marked significant and learning is
    triggered. *)
Theorem processEvent_significant (config : Config.t)
        (Number_of_string : string -> Js.number) (Date_parse : string -> option Z)
        (event : Untyped.EventInput.t) (w : World) :
  Untyped.validateEvent event = Ok tt ->
  nonnegative_importance Number_of_string event ->
  dated_metadata Date_parse event ->
  exists result w',
    Untyped.processEvent config Number_of_string Date_parse event w
    = (Ok result, w') /\
    number_within 0.5 1
      (Untyped.ProcessedEvent.significance
         (Untyped.EventProcessingResult.event result)) /\
    (Config.SIGNIFICANCE_THRESHOLD config <= 0.5 ->
     Untyped.EventProcessingResult.significant result = true /\
     Untyped.EventProcessingResult.learningTriggered result = true).
Proof.
  intros Hv Himp Hts.
  destruct (untyped_processEvent_ok config Number_of_string Date_parse event w Hv)
    as (result & w' & E & Hs & Hg & Hl).
  exists result, w'. split; [exact E|].
  assert (Hnum : exists s,
             Untyped.ProcessedEvent.significance
               (Untyped.EventProcessingResult.event result) = Js.fin s
             /\ 0.5 <= s <= 1).
  { rewrite Hs.
    unfold nonnegative_importance, dated_metadata in Himp, Hts.
    unfold metadata_of.
    destruct (Untyped.EventInput.metadata event) as [m|].
    - destruct (significance_of_any_number Number_of_string Date_parse
                  (Js.string_of (Untyped.EventInput.content event))
                  (createEmbedding config
                     (Js.string_of (Untyped.EventInput.content event)))
                  m (clock w (ticks w + 1)%nat))
        as (s & Es & Hr & Hhalf).
      + destruct Himp as [Hf | (x & Hx & _)]; [left; exact Hf | right; eauto].
      + exact Hts.
      + exists s. split; [exact Es|]. specialize (Hhalf Himp). lra.
    - destruct (significance_of_any_number Number_of_string Date_parse
                  (Js.string_of (Untyped.EventInput.content event))
                  (createEmbedding config
                     (Js.string_of (Untyped.EventInput.content event)))
                  Untyped.Metadata.empty (clock w (ticks w + 1)%nat))
        as (s & Es & Hr & Hhalf);
        [left; reflexivity | left; reflexivity |].
      exists s. split; [exact Es|].
      specialize (Hhalf (or_introl eq_refl)). lra. }
  destruct Hnum as (s & Es & Hs5).
  split; [exists s; split; [exact Es | exact Hs5]|].
  intro Hthr. rewrite Hl, Hg, Es. unfold Js.ge, Js.geb.
  destruct (Rge_dec _ _) as [_|Hn]; [split; reflexivity | lra].
Qed.

Lemma processEvent_significant_witness :
  Untyped.validateEvent rated_event = Ok tt /\
  nonnegative_importance no_number rated_event /\
  dated_metadata no_date rated_event /\
  exists result w',
    Untyped.processEvent Config.defaults no_number no_date rated_event (steady 0.5)
    = (Ok result, w') /\
    number_within 0.5 1
      (Untyped.ProcessedEvent.significance
         (Untyped.EventProcessingResult.event result)) /\
    (Config.SIGNIFICANCE_THRESHOLD Config.defaults <= 0.5 ->
     Untyped.EventProcessingResult.significant result = true /\
     Untyped.EventProcessingResult.learningTriggered result = true).
Proof.
  assert (Hi : nonnegative_importance no_number rated_event).
  { right. exists 0.8. split; [reflexivity | lra]. }
  assert (Ht : dated_metadata no_date rated_event).
  { right. exists (IZR 0). reflexivity. }
  split; [reflexivity|]. split; [exact Hi|]. split; [exact Ht|].
  exact (processEvent_significant Config.defaults no_number no_date rated_event
           (steady 0.5) eq_refl Hi Ht).
Defined.

End EventFacts.

(** ** services/semanticService and services/identityService *)

Module IdentityFacts.
Import Errors Runtime IdentityService Trace Sums Analysis RuntimeFacts.

(** *** Vectors of unequal length *)

Lemma calculateCosineSimilarity_mismatch (vec1 vec2 : list R) :
  List.length vec1 <> List.length vec2 ->
  SemanticService.calculateCosineSimilarity vec1 vec2
  = Throw (ValidationError "Vector dimensions must match").
Proof.
  intro H. unfold SemanticService.calculateCosineSimilarity.
  apply Nat.eqb_neq in H. rewrite H. reflexivity.
Qed.

Lemma compareIdentities_mismatch (config : Config.t)
      (identity1 identity2 : EncodedIdentity.t) :
  List.length (EncodedIdentity.embedding identity1)
  <> List.length (EncodedIdentity.embedding identity2) ->
  compareIdentities config identity1 identity2
  = Throw (ValidationError "Identity embeddings have different dimensions").
Proof.
  intro H. unfold compareIdentities.
  apply Nat.eqb_neq in H. rewrite H. reflexivity.
Qed.

(** C8, as stated, fails: for vectors of lengths 256 and 100 neither
    function fails with an error named [DimensionMismatch]. *)
Lemma mismatch_is_not_DimensionMismatch :
  ~ fails_with "DimensionMismatch"
      (SemanticService.calculateCosineSimilarity (repeat 0 256) (repeat 0 100))
  /\
  ~ fails_with "DimensionMismatch"
      (compareIdentities Config.defaults
         (identity_of_dimension "a" 256) (identity_of_dimension "b" 100)).
Proof.
  split; intros (e & E & Hname).
  - rewrite calculateCosineSimilarity_mismatch in E
      by (rewrite !repeat_length; lia).
    injection E as <-. discriminate.
  - rewrite compareIdentities_mismatch in E
      by (cbn [identity_of_dimension EncodedIdentity.embedding];
          rewrite !repeat_length; lia).
    injection E as <-. discriminate.
Qed.

(** C8, amended.  Whenever the two input vectors, respectively the two
    identities' embeddings, have unequal lengths, [calculateCosineSimilarity]
    and [compareIdentities] fail with a [ValidationError] (code
    [VALIDATION_ERROR], status 400) and return no similarity value. *)
Theorem mismatch_is_ValidationError
        (config : Config.t) (vec1 vec2 : list R)
        (identity1 identity2 : EncodedIdentity.t) :
  List.length vec1 <> List.length vec2 ->
  List.length (EncodedIdentity.embedding identity1)
  <> List.length (EncodedIdentity.embedding identity2) ->
  SemanticService.calculateCosineSimilarity vec1 vec2
  = Throw (ValidationError "Vector dimensions must match") /\
  compareIdentities config identity1 identity2
  = Throw (ValidationError "Identity embeddings have different dimensions") /\
  Errors.name (ValidationError "Vector dimensions must match")
  = "ValidationError"%string /\
  (forall similarity,
      SemanticService.calculateCosineSimilarity vec1 vec2 <> Ok similarity) /\
  (forall result, compareIdentities config identity1 identity2 <> Ok result).
Proof.
  intros H1 H2.
  rewrite (calculateCosineSimilarity_mismatch _ _ H1).
  rewrite (compareIdentities_mismatch config _ _ H2).
  repeat split; discriminate.
Qed.

Lemma mismatch_is_ValidationError_witness :
  List.length (repeat 0 256) <> List.length (repeat 0 100) /\
  SemanticService.calculateCosineSimilarity (repeat 0 256) (repeat 0 100)
  = Throw (ValidationError "Vector dimensions must match") /\
  compareIdentities Config.defaults
    (identity_of_dimension "a" 256) (identity_of_dimension "b" 100)
  = Throw (ValidationError "Identity embeddings have different dimensions") /\
  Errors.name (ValidationError "Vector dimensions must match")
  = "ValidationError"%string /\
  (forall similarity,
      SemanticService.calculateCosineSimilarity (repeat 0 256) (repeat 0 100)
      <> Ok similarity) /\
  (forall result,
      compareIdentities Config.defaults
        (identity_of_dimension "a" 256) (identity_of_dimension "b" 100)
      <> Ok result).
Proof.
  assert (H : List.length (repeat 0 256) <> List.length (repeat 0 100))
    by (rewrite !repeat_length; lia).
  split; [exact H|].
  exact (mismatch_is_ValidationError Config.defaults (repeat 0 256) (repeat 0 100)
           (identity_of_dimension "a" 256) (identity_of_dimension "b" 100) H H).
Defined.

(** *** The epsilon recorded by [encodeIdentity] *)

Lemma mapM_returns {A B : Type} (f : A -> Eff B) (l : list A) :
  (forall x w, exists y w', f x w = (Ok y, w')) ->
  forall w, exists ys w', mapM f l w = (Ok ys, w').
Proof.
  intros Hf. induction l as [|x l IH]; intro w.
  - simpl. unfold ret. eauto.
  - cbn [mapM]. unfold bind at 1.
    destruct (Hf x w) as (y & w1 & E1). rewrite E1.
    unfold bind at 1. destruct (IH w1) as (ys & w2 & E2). rewrite E2.
    unfold ret. eauto.
Qed.

Lemma addLaplaceNoise_returns (value scale : R) (w : World) :
  exists y w', addLaplaceNoise value scale w = (Ok y, w').
Proof.
  unfold addLaplaceNoise, bind, Math_random, ret. eauto.
Qed.

Lemma validateIdentity_valid (userId : Js.value)
      (data : list (string * Js.value)) (level : string) :
  valid_identity userId data ->
  known_level level = true ->
  validateIdentity (identity_input userId data level) = Ok tt.
Proof.
  intros (Ht & Hs & Hd) Hl. unfold validateIdentity, identity_input.
  cbn [IdentityInput.userId IdentityInput.data IdentityInput.privacyLevel].
  rewrite Ht, Hs, Hl. cbn [negb orb]. rewrite andb_false_r.
  destruct data as [|p data]; [contradiction | reflexivity].
Qed.

(** The level and the epsilon recorded for an accepted identity. *)
Lemma encodeIdentity_run (config : Config.t)
      (JSON_stringify : list (string * Js.value) -> string)
      (userId : Js.value) (data : list (string * Js.value)) (level : string)
      (w : World) :
  valid_identity userId data ->
  known_level level = true ->
  exists encoded w',
    encodeIdentity config JSON_stringify (identity_input userId data level) w
    = (Ok encoded, w') /\
    EncodedIdentity.privacyLevel encoded = level /\
    EncodedIdentity.privacyEpsilon encoded
    = Config.PRIVACY_EPSILON config
      * (if String.eqb level "high" then 0.33
         else if String.eqb level "low" then 1.5 else 1).
Proof.
  intros Hv Hl. unfold encodeIdentity.
  rewrite (validateIdentity_valid userId data level Hv Hl).
  cbn [identity_input IdentityInput.privacyLevel IdentityInput.data
       IdentityInput.userId].
  assert (Hne : String.eqb level EmptyString = false).
  { destruct level; [discriminate Hl | reflexivity]. }
  rewrite Hne.
  unfold applyDifferentialPrivacy. unfold bind at 1. unfold bind at 1.
  destruct (mapM_returns
              (fun value => addLaplaceNoise value (calculateNoiseScale config level 1.0))
              (createIdentityEmbedding config JSON_stringify data)
              (fun x w0 => addLaplaceNoise_returns x _ w0) w)
    as (noised & w1 & E).
  rewrite E. unfold ret at 1.
  unfold bind, generateIdentityId, Date_now, Math_random, ret.
  eexists _, _. split; [reflexivity|]. split; reflexivity.
Qed.

(** C6.  For every valid identity input and a positive configured base
    epsilon, the epsilon recorded by [encodeIdentity] for the level [high]
    is strictly smaller than the one for [medium], which is strictly
    smaller than the one for [low]. *)
Theorem encodeIdentity_epsilon_decreasing
        (config : Config.t)
        (JSON_stringify : list (string * Js.value) -> string)
        (userId : Js.value) (data : list (string * Js.value))
        (w_high w_medium w_low : World) :
  0 < Config.PRIVACY_EPSILON config ->
  valid_identity userId data ->
  exists high w1 medium w2 low w3,
    encodeIdentity config JSON_stringify (identity_input userId data "high") w_high
    = (Ok high, w1) /\
    encodeIdentity config JSON_stringify (identity_input userId data "medium") w_medium
    = (Ok medium, w2) /\
    encodeIdentity config JSON_stringify (identity_input userId data "low") w_low
    = (Ok low, w3) /\
    EncodedIdentity.privacyEpsilon high < EncodedIdentity.privacyEpsilon medium /\
    EncodedIdentity.privacyEpsilon medium < EncodedIdentity.privacyEpsilon low.
Proof.
  intros Heps Hv.
  destruct (encodeIdentity_run config JSON_stringify userId data "high" w_high
              Hv eq_refl) as (h & w1 & Eh & _ & Hh).
  destruct (encodeIdentity_run config JSON_stringify userId data "medium" w_medium
              Hv eq_refl) as (m & w2 & Em & _ & Hm).
  destruct (encodeIdentity_run config JSON_stringify userId data "low" w_low
              Hv eq_refl) as (l & w3 & El & _ & Hl).
  exists h, w1, m, w2, l, w3.
  cbn [String.eqb Ascii.eqb Bool.eqb] in Hh, Hm, Hl.
  rewrite Hh, Hm, Hl. repeat split; try assumption; nra.
Qed.

Lemma encodeIdentity_epsilon_decreasing_witness :
  0 < Config.PRIVACY_EPSILON Config.defaults /\
  valid_identity (Js.str "test-user-123") [("name"%string, Js.str "John")] /\
  exists high w1 medium w2 low w3,
    encodeIdentity Config.defaults (fun _ => "{}"%string)
      (identity_input (Js.str "test-user-123") [("name"%string, Js.str "John")] "high")
      (steady 0.25) = (Ok high, w1) /\
    encodeIdentity Config.defaults (fun _ => "{}"%string)
      (identity_input (Js.str "test-user-123") [("name"%string, Js.str "John")] "medium")
      (steady 0.25) = (Ok medium, w2) /\
    encodeIdentity Config.defaults (fun _ => "{}"%string)
      (identity_input (Js.str "test-user-123") [("name"%string, Js.str "John")] "low")
      (steady 0.25) = (Ok low, w3) /\
    EncodedIdentity.privacyEpsilon high < EncodedIdentity.privacyEpsilon medium /\
    EncodedIdentity.privacyEpsilon medium < EncodedIdentity.privacyEpsilon low.
Proof.
  assert (He : 0 < Config.PRIVACY_EPSILON Config.defaults) by (simpl; lra).
  assert (Hv : valid_identity (Js.str "test-user-123")
                              [("name"%string, Js.str "John")])
    by (repeat split; discriminate).
  split; [exact He|]. split; [exact Hv|].
  exact (encodeIdentity_epsilon_decreasing Config.defaults (fun _ => "{}"%string)
           _ _ (steady 0.25) (steady 0.25) (steady 0.25) He Hv).
Defined.


(** *** The aggregate loss of ten equal operations *)

Lemma sumSquares_ten (e : R) :
  Js.reduce (fun sum op => sum + epsilon op * epsilon op)
            (repeat {| epsilon := e |} 10) 0
  = 10 * (e * e).
Proof. cbn [repeat Js.reduce fold_left epsilon]. unfold Js.reduce. simpl. lra. Qed.

Lemma aggregate_ten (config : Config.t) (e : R) :
  0 <= ln (2 / Config.PRIVACY_DELTA config) ->
  calculateAggregateLoss config (repeat {| epsilon := e |} 10)
  = sqrt (20 * ln (2 / Config.PRIVACY_DELTA config) * (e * e)).
Proof.
  intro HL. unfold calculateAggregateLoss. rewrite sumSquares_ten.
  rewrite <- sqrt_mult; [f_equal; lra | lra | nra].
Qed.

(** Ten equal operations compose below the linear bound exactly when
    [ln (2 / delta) < 5], that is for [delta] above [2 / exp 5]. *)
Lemma aggregate_ten_sublinear_iff (config : Config.t) (e : R) :
  0 < e ->
  0 <= ln (2 / Config.PRIVACY_DELTA config) ->
  (calculateAggregateLoss config (repeat {| epsilon := e |} 10) < 10 * e
   <-> ln (2 / Config.PRIVACY_DELTA config) < 5).
Proof.
  intros He HL. rewrite (aggregate_ten config e HL).
  set (L := ln (2 / Config.PRIVACY_DELTA config)) in *.
  replace (10 * e) with (sqrt (10 * e * (10 * e))) by (apply sqrt_square; lra).
  assert (H0 : 0 <= 20 * L * (e * e)) by nra.
  assert (H1 : 0 <= 10 * e * (10 * e)) by nra.
  assert (H2 : 0 < 20 * (e * e)) by nra.
  split; intro H.
  - apply sqrt_lt_0_alt in H.
    apply Rmult_lt_reg_l with (20 * (e * e)); [assumption | lra].
  - apply sqrt_lt_1; [assumption | assumption |].
    apply (Rmult_lt_compat_l (20 * (e * e))) in H; [lra | assumption].
Qed.

Lemma ln_default_ratio : 5 < ln (2 / Config.PRIVACY_DELTA Config.defaults).
Proof.
  cbn [Config.PRIVACY_DELTA Config.defaults].
  replace (2 / 0.00001) with 200000 by lra.
  rewrite <- (ln_exp 5) at 1.
  apply ln_increasing; [apply exp_pos|].
  pose proof exp_5_le. lra.
Qed.

(** C5 (code departs from the claim).  Under the configured default delta
    [0.00001], the aggregate loss of ten operations of the same epsilon
    [e > 0] is strictly greater than [10 * e]: the composition is not
    sub-linear at ten operations. *)
Theorem calculateAggregateLoss_ten_above_linear (e : R) :
  0 < e ->
  10 * e < calculateAggregateLoss Config.defaults (repeat {| epsilon := e |} 10).
Proof.
  intro He. pose proof ln_default_ratio as HL.
  rewrite aggregate_ten by lra.
  set (L := ln (2 / Config.PRIVACY_DELTA Config.defaults)) in *.
  replace (10 * e) with (sqrt (10 * e * (10 * e))) by (apply sqrt_square; lra).
  assert (H2 : 0 < 20 * (e * e)) by nra.
  apply sqrt_lt_1; [nra | nra |].
  apply (Rmult_lt_compat_l (20 * (e * e))) in HL; [lra | assumption].
Qed.

Lemma calculateAggregateLoss_ten_above_linear_witness :
  0 < 0.1 /\
  10 * 0.1
  < calculateAggregateLoss Config.defaults (repeat {| epsilon := 0.1 |} 10).
Proof.
  assert (H : 0 < 0.1) by lra.
  split; [exact H|].
  exact (calculateAggregateLoss_ten_above_linear 0.1 H).
Defined.

End IdentityFacts.

(* ================================================================= *)
(** * Further properties of the services *)

(** ** Cosine similarity *)

Module SimilarityFacts.
Import Errors Runtime Trace Sums SemanticService.

Lemma similarity_fold (vec1 vec2 : list R) (n : nat) (init : SemanticService.Sums) :
  fold_left
    (fun acc i =>
       {| dotProduct := dotProduct acc + Js.get vec1 i * Js.get vec2 i;
          norm1 := norm1 acc + Js.get vec1 i * Js.get vec1 i;
          norm2 := norm2 acc + Js.get vec2 i * Js.get vec2 i |})
    (seq 0 n) init
  = {| dotProduct := dotProduct init + big_sum (fun i => nth i vec1 0 * nth i vec2 0) n;
       norm1 := norm1 init + big_sum (fun i => nth i vec1 0 * nth i vec1 0) n;
       norm2 := norm2 init + big_sum (fun i => nth i vec2 0 * nth i vec2 0) n |}.
Proof.
  induction n as [|n IH].
  - destruct init. simpl. f_equal; lra.
  - rewrite seq_S, fold_left_app, IH. simpl. unfold Js.get. f_equal; lra.
Qed.

Lemma similarity_loop_sums (vec1 vec2 : list R) :
  similarity_loop vec1 vec2
  = {| dotProduct := big_sum (fun i => nth i vec1 0 * nth i vec2 0) (List.length vec1);
       norm1 := big_sum (fun i => nth i vec1 0 * nth i vec1 0) (List.length vec1);
       norm2 := big_sum (fun i => nth i vec2 0 * nth i vec2 0) (List.length vec1) |}.
Proof.
  unfold similarity_loop, Js.for_range. rewrite similarity_fold.
  simpl. f_equal; lra.
Qed.

Lemma calculateCosineSimilarity_value (vec1 vec2 : list R) :
  List.length vec1 = List.length vec2 ->
  calculateCosineSimilarity vec1 vec2 = Ok (cosine_value vec1 vec2).
Proof.
  intro H. unfold calculateCosineSimilarity, cosine_value.
  rewrite H, Nat.eqb_refl. cbn [negb].
  destruct (Req_dec_T _ _); reflexivity.
Qed.

Lemma cosine_value_sym (vec1 vec2 : list R) :
  List.length vec1 = List.length vec2 ->
  cosine_value vec1 vec2 = cosine_value vec2 vec1.
Proof.
  intro H. unfold cosine_value. rewrite !similarity_loop_sums, <- H.
  cbn [dotProduct norm1 norm2].
  rewrite (big_sum_ext (fun i => nth i vec2 0 * nth i vec1 0)
                       (fun i => nth i vec1 0 * nth i vec2 0))
    by (intros; lra).
  rewrite (Rmult_comm (sqrt (big_sum (fun i => nth i vec2 0 * nth i vec2 0) _))).
  reflexivity.
Qed.

Lemma cosine_value_zero_l (vec1 vec2 : list R) :
  (forall i, (i < List.length vec1)%nat -> nth i vec1 0 = 0) ->
  cosine_value vec1 vec2 = 0.
Proof.
  intro H. unfold cosine_value. rewrite similarity_loop_sums.
  cbn [dotProduct norm1 norm2].
  rewrite (big_sum_zero (fun i => nth i vec1 0 * nth i vec1 0))
    by (intros i Hi; rewrite (H i Hi); lra).
  rewrite sqrt_0, Rmult_0_l.
  destruct (Req_dec_T 0 0); [reflexivity | lra].
Qed.


(** *** [calculateCosineSimilarity] *)

(** X1.  For two vectors of equal length [calculateCosineSimilarity]
    returns a value, and the same value for both orders of its
    arguments. *)
Theorem calculateCosineSimilarity_symmetric (vec1 vec2 : list R) :
  List.length vec1 = List.length vec2 ->
  exists similarity,
    calculateCosineSimilarity vec1 vec2 = Ok similarity /\
    calculateCosineSimilarity vec2 vec1 = Ok similarity.
Proof.
  intro H. exists (cosine_value vec1 vec2).
  split; [apply calculateCosineSimilarity_value; assumption|].
  rewrite (cosine_value_sym vec1 vec2 H).
  apply calculateCosineSimilarity_value. symmetry. assumption.
Qed.

Lemma calculateCosineSimilarity_symmetric_witness :
  List.length [1; 2; 3] = List.length [-4; 5; 6] /\
  exists similarity,
    calculateCosineSimilarity [1; 2; 3] [-4; 5; 6] = Ok similarity /\
    calculateCosineSimilarity [-4; 5; 6] [1; 2; 3] = Ok similarity.
Proof.
  split; [reflexivity|].
  exact (calculateCosineSimilarity_symmetric [1; 2; 3] [-4; 5; 6] eq_refl).
Defined.

(** X3.  When one of two vectors of equal length has only zero entries and
    the entries of the other are at most 1e100 in magnitude, so that their
    squares are within the range of numbers, the similarity is 0 in either
    order: the zero denominator is caught and nothing is divided. *)
Theorem calculateCosineSimilarity_zero_vector (vec1 vec2 : list R) :
  List.length vec1 = List.length vec2 ->
  (forall i, (i < List.length vec1)%nat -> nth i vec1 0 = 0) ->
  (forall i, (i < List.length vec2)%nat -> - 1e100 <= nth i vec2 0 <= 1e100) ->
  calculateCosineSimilarity vec1 vec2 = Ok 0 /\
  calculateCosineSimilarity vec2 vec1 = Ok 0.
Proof.
  intros H Hz _.
  rewrite (calculateCosineSimilarity_value vec1 vec2 H).
  rewrite (calculateCosineSimilarity_value vec2 vec1 (eq_sym H)).
  rewrite <- (cosine_value_sym vec1 vec2 H).
  rewrite (cosine_value_zero_l vec1 vec2 Hz). split; reflexivity.
Qed.

Lemma calculateCosineSimilarity_zero_vector_witness :
  List.length (repeat 0 256) = List.length (repeat 0.1 256) /\
  calculateCosineSimilarity (repeat 0 256) (repeat 0.1 256) = Ok 0 /\
  calculateCosineSimilarity (repeat 0.1 256) (repeat 0 256) = Ok 0.
Proof.
  assert (H : List.length (repeat 0 256) = List.length (repeat 0.1 256))
    by reflexivity.
  split; [exact H|].
  apply (calculateCosineSimilarity_zero_vector (repeat 0 256) (repeat 0.1 256) H).
  - intros i Hi. apply nth_repeat.
  - intros i Hi. rewrite repeat_length in Hi.
    rewrite nth_repeat_lt by assumption. lra.
Defined.

(** *** [calculateMemorySimilarity] and [calculateEmbeddingSimilarity] *)

(** X4.  [calculateMemorySimilarity] fails with a [ValidationError] on
    states of unequal length; on states of equal length it returns what
    [calculateCosineSimilarity] returns. *)
Theorem calculateMemorySimilarity_behaviour (state1 state2 : list R) :
  if (List.length state1 =? List.length state2)%nat
  then exists similarity,
      MemoryService.calculateMemorySimilarity state1 state2 = Ok similarity /\
      calculateCosineSimilarity state1 state2 = Ok similarity
  else MemoryService.calculateMemorySimilarity state1 state2
       = Throw (ValidationError "Memory states must have same dimension").
Proof.
  unfold MemoryService.calculateMemorySimilarity.
  destruct (List.length state1 =? List.length state2)%nat eqn:E; cbn [negb];
    [|reflexivity].
  apply Nat.eqb_eq in E. exists (cosine_value state1 state2).
  split; [unfold cosine_value; destruct (Req_dec_T _ _); reflexivity|].
  apply calculateCosineSimilarity_value; assumption.
Qed.

(** X5.  [calculateEmbeddingSimilarity] never fails: for embeddings of
    unequal length, where [calculateCosineSimilarity] throws a
    [ValidationError], it answers 0; for embeddings of equal length it
    answers what [calculateCosineSimilarity] returns. *)
Theorem calculateEmbeddingSimilarity_behaviour (embedding1 embedding2 : list R) :
  if (List.length embedding1 =? List.length embedding2)%nat
  then calculateCosineSimilarity embedding1 embedding2
       = Ok (EventService.calculateEmbeddingSimilarity embedding1 embedding2)
  else EventService.calculateEmbeddingSimilarity embedding1 embedding2 = 0 /\
       fails_with "ValidationError"
         (calculateCosineSimilarity embedding1 embedding2).
Proof.
  unfold EventService.calculateEmbeddingSimilarity.
  destruct (List.length embedding1 =? List.length embedding2)%nat eqn:E;
    cbn [negb].
  - apply Nat.eqb_eq in E. fold (cosine_value embedding1 embedding2).
    apply calculateCosineSimilarity_value; assumption.
  - split; [reflexivity|].
    unfold calculateCosineSimilarity. rewrite E. cbn [negb].
    eexists. split; reflexivity.
Qed.

End SimilarityFacts.

(** ** Norms of scaled vectors *)

Module VectorFacts.
Import Trace Sums.

Lemma norm_scale (l : list R) (c : R) :
  0 <= c -> Js.norm (map (fun v => v * c) l) = c * Js.norm l.
Proof.
  intro Hc. rewrite !norm_big_sum, length_map.
  rewrite (big_sum_ext _ (fun i => (c * c) * (nth i l 0 * nth i l 0))).
  - rewrite big_sum_scal.
    rewrite sqrt_mult; [| nra | apply big_sum_nonneg; intros; nra].
    now rewrite sqrt_square by assumption.
  - intros i Hi. rewrite (nth_map_R (fun v => v * c)) by assumption. ring.
Qed.

Lemma norm_ge_0 (l : list R) : 0 <= Js.norm l.
Proof. unfold Js.norm. apply sqrt_pos. Qed.

(** The normalization used for embeddings, [v / (norm + 1e-8)], leaves a
    norm strictly below 1. *)
Lemma norm_normalized (l : list R) :
  Js.norm (map (fun v => v / (Js.norm l + 1e-8)) l)
  = Js.norm l / (Js.norm l + 1e-8)
  /\ Js.norm (map (fun v => v / (Js.norm l + 1e-8)) l) < 1.
Proof.
  pose proof (norm_ge_0 l) as Hn.
  assert (Hpos : 0 < Js.norm l + 1e-8) by lra.
  assert (E : Js.norm (map (fun v => v / (Js.norm l + 1e-8)) l)
              = Js.norm l / (Js.norm l + 1e-8)).
  { unfold Rdiv at 1.
    rewrite (norm_scale l (/ (Js.norm l + 1e-8)))
      by (left; apply Rinv_0_lt_compat; assumption).
    unfold Rdiv. ring. }
  split; [exact E|]. rewrite E.
  apply Rmult_lt_reg_r with (Js.norm l + 1e-8); [assumption|].
  unfold Rdiv. rewrite Rmult_assoc, Rinv_l by lra. lra.
Qed.

Lemma fold_sum_events {A : Type} (g : A -> R) (l : list A) (a : R) :
  fold_left (fun sum e => sum + g e) l a = a + fold_right Rplus 0 (map g l).
Proof.
  revert a. induction l as [|x l IH]; intro a; cbn [fold_left map fold_right].
  - lra.
  - rewrite IH. lra.
Qed.

Lemma sum_nonneg {A : Type} (g : A -> R) (l : list A) :
  (forall e, 0 <= g e) -> 0 <= fold_right Rplus 0 (map g l).
Proof.
  intro Hg. induction l as [|x l IH]; cbn [map fold_right]; [lra|].
  specialize (Hg x). lra.
Qed.

Lemma pow_range (factor t : R) :
  0 < factor <= 1 -> 0 <= t -> 0 < Js.Math_pow factor t <= 1.
Proof.
  intros [Hf0 Hf1] Ht. unfold Js.Math_pow, Rpower. split; [apply exp_pos|].
  assert (Hln : ln factor <= 0).
  { destruct (Req_dec factor 1) as [->|Hne]; [rewrite ln_1; lra|].
    left. rewrite <- ln_1. apply ln_increasing; lra. }
  apply Analysis.exp_nonpos_le_1. nra.
Qed.

End VectorFacts.

(** ** services/memoryService, continued *)

Module MemoryMore.
Import Errors Runtime MemoryService Trace Sums Analysis RuntimeFacts MemoryFacts.

(** *** Rejected calls *)

Lemma updateMemory_invalid (config : Config.t) (uid : string) (emb : list R)
      (sig : R) (w : World) :
  ~ valid_update config emb sig ->
  exists e,
    updateMemory config uid emb sig w = (Throw e, w) /\
    Errors.name e = "ValidationError"%string /\
    (sig < 0 \/ 1 < sig ->
     Errors.message e = "Significance must be between 0 and 1"%string) /\
    (0 <= sig <= 1 ->
     Errors.message e = "Event embedding dimension mismatch"%string).
Proof.
  intro Hinv. unfold updateMemory, Js.ltb, Js.gtb.
  destruct (Rlt_dec sig 0) as [Hlt|Hge]; cbn [orb].
  - eexists. split; [reflexivity|]. repeat split; intros; try reflexivity. lra.
  - destruct (Rgt_dec sig 1) as [Hgt|Hle].
    + eexists. split; [reflexivity|]. repeat split; intros; try reflexivity. lra.
    + destruct (List.length emb =? Config.MEMORY_DIMENSION config)%nat eqn:E;
        cbn [negb].
      * exfalso. apply Hinv. apply Nat.eqb_eq in E. split; [lra | assumption].
      * eexists. split; [reflexivity|].
        repeat split; intros; try reflexivity. lra.
Qed.

Lemma valid_update_dec (config : Config.t) (emb : list R) (sig : R) :
  {valid_update config emb sig} + {~ valid_update config emb sig}.
Proof.
  unfold valid_update.
  destruct (Rle_dec 0 sig), (Rle_dec sig 1),
           (Nat.eq_dec (List.length emb) (Config.MEMORY_DIMENSION config));
    try (left; repeat split; assumption); right; intros [[? ?] ?]; contradiction.
Qed.

(** X6.  A call to [updateMemory] with a significance below 0 or above 1,
    or with an embedding whose length is not the configured dimension,
    fails with a [ValidationError] before any state is created: no random
    number is drawn and the clock is not read.  The significance is checked
    first.  (A significance that is [NaN] is neither below 0 nor above 1;
    such a call is not among these.) *)
Theorem updateMemory_rejects
        (config : Config.t) (uid : string) (emb : list R) (sig : R) (w : World) :
  sig < 0 \/ 1 < sig \/ List.length emb <> Config.MEMORY_DIMENSION config ->
  exists e,
    updateMemory config uid emb sig w = (Throw e, w) /\
    Errors.name e = "ValidationError"%string /\
    (sig < 0 \/ 1 < sig ->
     Errors.message e = "Significance must be between 0 and 1"%string) /\
    (0 <= sig <= 1 ->
     Errors.message e = "Event embedding dimension mismatch"%string).
Proof.
  intro H. apply updateMemory_invalid. intros [Hs Hl].
  destruct H as [H | [H | H]]; [lra | lra | contradiction].
Qed.

Lemma updateMemory_rejects_witness :
  (1.5 < 0 \/ 1 < 1.5
   \/ List.length (repeat 0.1 100) <> Config.MEMORY_DIMENSION Config.defaults) /\
  exists e,
    updateMemory Config.defaults "u1" (repeat 0.1 100) 1.5 (steady 0.25)
    = (Throw e, steady 0.25) /\
    Errors.name e = "ValidationError"%string /\
    (1.5 < 0 \/ 1 < 1.5 ->
     Errors.message e = "Significance must be between 0 and 1"%string) /\
    (0 <= 1.5 <= 1 ->
     Errors.message e = "Event embedding dimension mismatch"%string).
Proof.
  assert (H : 1.5 < 0 \/ 1 < 1.5
              \/ List.length (repeat 0.1 100)
                 <> Config.MEMORY_DIMENSION Config.defaults)
    by (right; left; lra).
  split; [exact H|].
  exact (updateMemory_rejects Config.defaults "u1" (repeat 0.1 100) 1.5
           (steady 0.25) H).
Defined.

(** *** Learning updates *)

(** X7.  For every valid call whose significance is at or above the
    threshold, the boundary included, learning is applied: the result is
    marked updated, [significantEventCount] and [totalLearningUpdates] are
    the loaded state's values plus one; the returned vector is the blend
    of the decayed vector with the embedding at the rate
    [LEARNING_RATE * significance], cut back towards the decayed vector
    when the step is longer than the clip norm; and the reported
    [stateChange] is the length of the step before it is cut. *)
Theorem updateMemory_at_or_above_threshold
        (config : Config.t) (uid : string) (emb : list R) (sig : R) (w : World) :
  valid_update config emb sig ->
  Config.SIGNIFICANCE_THRESHOLD config <= sig ->
  exists prior w1 decayed w2 result w3,
    getMemoryState config uid w = (Ok prior, w1) /\
    applyTimeDecay (state prior) (lastUpdate prior) 0.99 w1 = (Ok decayed, w2) /\
    updateMemory config uid emb sig w = (Ok result, w3) /\
    updated result = true /\
    learningApplied (metrics result) = true /\
    eventCount (memoryState result) = (eventCount prior + 1)%nat /\
    significantEventCount (memoryState result)
    = (significantEventCount prior + 1)%nat /\
    totalLearningUpdates (memoryState result)
    = (totalLearningUpdates prior + 1)%nat /\
    state (memoryState result)
    = clipped decayed
        (blend decayed emb (Config.LEARNING_RATE config * sig))
        (Config.GRADIENT_CLIP_NORM config) /\
    stateChange (metrics result)
    = distance decayed (blend decayed emb (Config.LEARNING_RATE config * sig)) /\
    List.length (state (memoryState result)) = Config.MEMORY_DIMENSION config.
Proof.
  intros [Hsig Hlen] Hthr.
  pose proof (updateMemory_run config uid emb sig w Hsig Hlen) as Hrun.
  unfold step_of in Hrun. rewrite (geb_true _ _ Hthr) in Hrun.
  eexists _, _, _, _, _, _.
  split; [unfold getMemoryState; apply initializeMemory_run|].
  split; [apply applyTimeDecay_run|].
  split; [exact Hrun|].
  cbn [memoryState metrics eventCount significantEventCount updated
       totalLearningUpdates learningApplied state lastUpdate stateChange].
  rewrite learn_clipped. cbn [fst snd].
  repeat split.
  now rewrite length_clipped, length_blend, length_decayed_state.
Qed.

Lemma updateMemory_at_or_above_threshold_witness :
  valid_update Config.defaults (repeat 0.1 256) 0.5 /\
  Config.SIGNIFICANCE_THRESHOLD Config.defaults <= 0.5 /\
  exists prior w1 decayed w2 result w3,
    getMemoryState Config.defaults "u1" (steady 0.25) = (Ok prior, w1) /\
    applyTimeDecay (state prior) (lastUpdate prior) 0.99 w1 = (Ok decayed, w2) /\
    updateMemory Config.defaults "u1" (repeat 0.1 256) 0.5 (steady 0.25)
    = (Ok result, w3) /\
    updated result = true /\
    learningApplied (metrics result) = true /\
    eventCount (memoryState result) = (eventCount prior + 1)%nat /\
    significantEventCount (memoryState result)
    = (significantEventCount prior + 1)%nat /\
    totalLearningUpdates (memoryState result)
    = (totalLearningUpdates prior + 1)%nat /\
    state (memoryState result)
    = clipped decayed
        (blend decayed (repeat 0.1 256) (Config.LEARNING_RATE Config.defaults * 0.5))
        (Config.GRADIENT_CLIP_NORM Config.defaults) /\
    stateChange (metrics result)
    = distance decayed
        (blend decayed (repeat 0.1 256) (Config.LEARNING_RATE Config.defaults * 0.5)) /\
    List.length (state (memoryState result))
    = Config.MEMORY_DIMENSION Config.defaults.
Proof.
  assert (Hv : valid_update Config.defaults (repeat 0.1 256) 0.5)
    by (split; [lra | reflexivity]).
  assert (Ht : Config.SIGNIFICANCE_THRESHOLD Config.defaults <= 0.5)
    by (simpl; lra).
  split; [exact Hv|]. split; [exact Ht|].
  exact (updateMemory_at_or_above_threshold Config.defaults "u1" (repeat 0.1 256)
           0.5 (steady 0.25) Hv Ht).
Defined.

(** X8.  With a learning rate between 0 and 1, [applyLSTMUpdate] keeps the
    length of the memory vector and every entry of its result lies between
    -1 and 1, bounds included, whatever the memory and the embedding
    hold. *)
Theorem applyLSTMUpdate_range (memory embedding : list R) (learningRate : R) :
  0 <= learningRate <= 1 ->
  List.length (applyLSTMUpdate memory embedding learningRate) = List.length memory /\
  forall i, (i < List.length memory)%nat ->
            -1 <= nth i (applyLSTMUpdate memory embedding learningRate) 0 <= 1.
Proof.
  intro Hlr. split; [apply length_applyLSTMUpdate|].
  intros i Hi. rewrite nth_applyLSTMUpdate by assumption.
  pose proof (tanh_range (nth i memory 0 * 0.9)) as HF.
  pose proof (tanh_range (nth i embedding 0)) as HI.
  set (F := tanh (nth i memory 0 * 0.9)) in *.
  set (I := tanh (nth i embedding 0)) in *.
  split; nra.
Qed.

Lemma applyLSTMUpdate_range_witness :
  0 <= 0.001 <= 1 /\
  List.length (applyLSTMUpdate [100; -100] [1e10; -1e10] 0.001)
  = List.length [100; -100] /\
  forall i, Nat.lt i (List.length [100; -100]) ->
            -1 <= nth i (applyLSTMUpdate [100; -100] [1e10; -1e10] 0.001) 0 <= 1.
Proof.
  assert (H : 0 <= 0.001 <= 1) by lra.
  split; [exact H|].
  exact (applyLSTMUpdate_range [100; -100] [1e10; -1e10] 0.001 H).
Defined.

(** *** Decay and initialization *)

(** X9.  When the last update is not later than the clock reading,
    [applyTimeDecay] with a decay factor in [(0,1]] reads the clock once,
    keeps the length of the vector and multiplies every entry with one
    factor in [(0,1]]: the norm of the vector does not grow, and the vector
    is unchanged when no time has passed. *)
Theorem applyTimeDecay_shrinks (st : list R) (last : Z) (factor : R) (w : World) :
  0 < factor <= 1 ->
  (last <= clock w (ticks w))%Z ->
  exists decay,
    0 < decay <= 1 /\
    applyTimeDecay st last factor w
    = (Ok (map (fun value => value * decay) st), later w 1 0) /\
    List.length (map (fun value => value * decay) st) = List.length st /\
    Js.norm (map (fun value => value * decay) st) <= Js.norm st /\
    (last = clock w (ticks w) -> map (fun value => value * decay) st = st).
Proof.
  intros Hf Hlast.
  exists (Js.Math_pow factor
            (IZR (clock w (ticks w) - last) / (1000 * 60 * 60 * 24))).
  assert (Ht : 0 <= IZR (clock w (ticks w) - last) / (1000 * 60 * 60 * 24)).
  { apply Rmult_le_pos; [| left; apply Rinv_0_lt_compat; lra].
    apply IZR_le. lia. }
  pose proof (VectorFacts.pow_range factor _ Hf Ht) as Hd.
  split; [exact Hd|]. split; [apply applyTimeDecay_run|].
  split; [apply length_map|]. split.
  - rewrite VectorFacts.norm_scale by lra.
    pose proof (VectorFacts.norm_ge_0 st). nra.
  - intros ->. rewrite Z.sub_diag.
    replace (IZR 0 / (1000 * 60 * 60 * 24)) with 0 by (unfold Rdiv; lra).
    unfold Js.Math_pow. rewrite Rpower_O by lra.
    rewrite <- (map_id st) at 2. apply map_ext. intro v. lra.
Qed.

Lemma applyTimeDecay_shrinks_witness :
  0 < 0.99 <= 1 /\
  (0 <= clock (steady 0.25) (ticks (steady 0.25)))%Z /\
  exists decay,
    0 < decay <= 1 /\
    applyTimeDecay [3; -4] 0 0.99 (steady 0.25)
    = (Ok (map (fun value => value * decay) [3; -4]), later (steady 0.25) 1 0) /\
    List.length (map (fun value => value * decay) [3; -4]) = List.length [3; -4] /\
    Js.norm (map (fun value => value * decay) [3; -4]) <= Js.norm [3; -4] /\
    (0%Z = clock (steady 0.25) (ticks (steady 0.25)) ->
     map (fun value => value * decay) [3; -4] = [3; -4]).
Proof.
  assert (Hf : 0 < 0.99 <= 1) by lra.
  assert (Hl : (0 <= clock (steady 0.25) (ticks (steady 0.25)))%Z)
    by (simpl; lia).
  split; [exact Hf|]. split; [exact Hl|].
  exact (applyTimeDecay_shrinks [3; -4] 0 0.99 (steady 0.25) Hf Hl).
Defined.

(** X10.  [initializeMemory] draws exactly [MEMORY_DIMENSION] random numbers
    and reads the clock once; the state it returns has the configured
    dimension, entries in [[-0.005, 0.005)] (small noise, in general not
    zero), all three counters at 0 and, as [lastUpdate], the clock
    reading. *)
Theorem initializeMemory_fresh (config : Config.t) (uid : string) (w : World) :
  well_formed w ->
  exists m,
    initializeMemory config uid w
    = (Ok m, later w 1 (Config.MEMORY_DIMENSION config)) /\
    userId m = uid /\
    dimension m = Config.MEMORY_DIMENSION config /\
    List.length (state m) = Config.MEMORY_DIMENSION config /\
    (forall i, (i < Config.MEMORY_DIMENSION config)%nat ->
               nth i (state m) 0 = (rng w (draws w + i)%nat - 0.5) * 0.01 /\
               - 0.005 <= nth i (state m) 0 < 0.005) /\
    lastUpdate m = clock w (ticks w) /\
    eventCount m = 0%nat /\
    significantEventCount m = 0%nat /\
    totalLearningUpdates m = 0%nat.
Proof.
  intros [_ Hr]. eexists. split; [apply initializeMemory_run|].
  cbn [userId dimension state lastUpdate eventCount significantEventCount
       totalLearningUpdates].
  repeat split; try apply length_drawn_state.
  - unfold drawn_state.
    now rewrite (nth_map_seq (fun k => (rng w (draws w + k)%nat - 0.5) * 0.01)).
  - unfold drawn_state.
    rewrite (nth_map_seq (fun k => (rng w (draws w + k)%nat - 0.5) * 0.01))
      by assumption.
    specialize (Hr (draws w + i)%nat). lra.
  - unfold drawn_state.
    rewrite (nth_map_seq (fun k => (rng w (draws w + k)%nat - 0.5) * 0.01))
      by assumption.
    specialize (Hr (draws w + i)%nat). lra.
Qed.

Lemma initializeMemory_fresh_witness :
  well_formed (steady 0.75) /\
  exists m,
    initializeMemory Config.defaults "u1" (steady 0.75)
    = (Ok m, later (steady 0.75) 1 (Config.MEMORY_DIMENSION Config.defaults)) /\
    userId m = "u1"%string /\
    dimension m = Config.MEMORY_DIMENSION Config.defaults /\
    List.length (state m) = Config.MEMORY_DIMENSION Config.defaults /\
    (forall i, (i < Config.MEMORY_DIMENSION Config.defaults)%nat ->
               nth i (state m) 0
               = (rng (steady 0.75) (draws (steady 0.75) + i)%nat - 0.5) * 0.01 /\
               - 0.005 <= nth i (state m) 0 < 0.005) /\
    lastUpdate m = clock (steady 0.75) (ticks (steady 0.75)) /\
    eventCount m = 0%nat /\
    significantEventCount m = 0%nat /\
    totalLearningUpdates m = 0%nat.
Proof.
  assert (Hw : well_formed (steady 0.75)) by (apply steady_well_formed; lra).
  split; [exact Hw|].
  exact (initializeMemory_fresh Config.defaults "u1" (steady 0.75) Hw).
Defined.


(** *** Metrics and batches *)

Lemma getLearningMetrics_run (config : Config.t) (uid : string) (w : World) :
  getLearningMetrics config uid w
  = (Ok {| metrics_userId := uid;
           totalEvents := 0;
           significantEvents := 0;
           learningUpdates := 0;
           avgSignificance := 0;
           privacyEpsilon := Config.PRIVACY_EPSILON config;
           metrics_lastUpdate := clock w (ticks w) |},
     later w 1 (Config.MEMORY_DIMENSION config)).
Proof.
  unfold getLearningMetrics, getMemoryState, bind.
  rewrite initializeMemory_run. reflexivity.
Qed.

(** X11.  [getLearningMetrics] reports no events, whatever was done before:
    after any completed batch of valid updates for a user, the metrics of
    that user have [totalEvents], [significantEvents], [learningUpdates]
    and [avgSignificance] equal to 0, and [privacyEpsilon] is the
    configured epsilon. *)
Theorem getLearningMetrics_always_zero
        (config : Config.t) (uid : string) (events : list (list R * R))
        (w : World) :
  Forall (fun e => valid_update config (fst e) (snd e)) events ->
  exists m1 w1 metrics w2,
    batchUpdateMemory config uid events w = (Ok m1, w1) /\
    getLearningMetrics config uid w1 = (Ok metrics, w2) /\
    totalEvents metrics = 0%nat /\
    significantEvents metrics = 0%nat /\
    learningUpdates metrics = 0%nat /\
    avgSignificance metrics = 0 /\
    privacyEpsilon metrics = Config.PRIVACY_EPSILON config.
Proof.
  intro Hevents.
  unfold batchUpdateMemory, batch_loop, getMemoryState.
  unfold bind at 1. rewrite initializeMemory_run.
  match goal with
  | |- context [fold_left ?f events ?acc ?w0] =>
      destruct (batch_loop_returns config uid events Hevents acc
                  (fun w' => ex_intro _ _ (ex_intro _ w' eq_refl)) w0)
        as (m1 & w1 & E1)
  end.
  exists m1, w1. eexists _, _.
  split; [exact E1|]. split; [apply getLearningMetrics_run|].
  repeat split.
Qed.

Lemma getLearningMetrics_always_zero_witness :
  Forall (fun e => valid_update Config.defaults (fst e) (snd e))
         [(repeat 0.1 256, 0.8); (repeat 0.1 256, 0.9)] /\
  exists m1 w1 metrics w2,
    batchUpdateMemory Config.defaults "u1"
      [(repeat 0.1 256, 0.8); (repeat 0.1 256, 0.9)] (steady 0.25)
    = (Ok m1, w1) /\
    getLearningMetrics Config.defaults "u1" w1 = (Ok metrics, w2) /\
    totalEvents metrics = 0%nat /\
    significantEvents metrics = 0%nat /\
    learningUpdates metrics = 0%nat /\
    avgSignificance metrics = 0 /\
    privacyEpsilon metrics = Config.PRIVACY_EPSILON Config.defaults.
Proof.
  assert (H8 : valid_update Config.defaults (repeat 0.1 256) 0.8)
    by (split; [lra | reflexivity]).
  assert (H9 : valid_update Config.defaults (repeat 0.1 256) 0.9)
    by (split; [lra | reflexivity]).
  assert (Hall : Forall (fun e => valid_update Config.defaults (fst e) (snd e))
                        [(repeat 0.1 256, 0.8); (repeat 0.1 256, 0.9)])
    by (constructor; [exact H8 | constructor; [exact H9 | constructor]]).
  split; [exact Hall|].
  exact (getLearningMetrics_always_zero Config.defaults "u1" _ (steady 0.25) Hall).
Defined.

Lemma batch_step_settled (config : Config.t) (uid : string)
      (event : list R * R) (acc : Eff MemoryState) :
  settled acc ->
  settled (bind acc (fun _ =>
           bind (updateMemory config uid (fst event) (snd event)) (fun result =>
           ret (memoryState result)))).
Proof.
  intros Hacc w. unfold bind.
  destruct (Hacc w) as [(m & w' & E)|(e & w' & E & Hn)]; rewrite E.
  - destruct (valid_update_dec config (fst event) (snd event)) as [Hv|Hi].
    + destruct (updateMemory_returns config uid _ _ w' Hv) as (r & Er & _).
      rewrite Er. left. unfold ret. eauto.
    + destruct (updateMemory_invalid config uid _ _ w' Hi) as (e & Ee & Hn & _).
      rewrite Ee. right. eauto.
  - right. eauto.
Qed.

Lemma batch_step_fails (config : Config.t) (uid : string)
      (event : list R * R) (acc : Eff MemoryState) :
  settled acc ->
  ~ valid_update config (fst event) (snd event) ->
  forall w, exists e w',
    bind acc (fun _ =>
    bind (updateMemory config uid (fst event) (snd event)) (fun result =>
    ret (memoryState result))) w = (Throw e, w')
    /\ Errors.name e = "ValidationError"%string.
Proof.
  intros Hacc Hi w. unfold bind.
  destruct (Hacc w) as [(m & w' & E)|(e & w' & E & Hn)]; rewrite E.
  - destruct (updateMemory_invalid config uid _ _ w' Hi) as (e & Ee & Hn & _).
    rewrite Ee. eauto.
  - eauto.
Qed.

Lemma batch_failure_stays (config : Config.t) (uid : string)
      (events : list (list R * R)) :
  forall (acc : Eff MemoryState),
    (forall w, exists e w', acc w = (Throw e, w')
                            /\ Errors.name e = "ValidationError"%string) ->
    forall w, exists e w',
      fold_left
        (fun acc event =>
           bind acc (fun _ =>
           bind (updateMemory config uid (fst event) (snd event)) (fun result =>
           ret (memoryState result))))
        events acc w = (Throw e, w')
      /\ Errors.name e = "ValidationError"%string.
Proof.
  induction events as [|event events IH]; intros acc Hacc w.
  - apply Hacc.
  - cbn [fold_left]. apply IH. intro w0. unfold bind.
    destruct (Hacc w0) as (e & w' & E & Hn). rewrite E. eauto.
Qed.

Lemma batch_loop_fails (config : Config.t) (uid : string)
      (events : list (list R * R)) :
  Exists (fun e => ~ valid_update config (fst e) (snd e)) events ->
  forall (acc : Eff MemoryState),
    settled acc ->
    forall w, exists e w',
      fold_left
        (fun acc event =>
           bind acc (fun _ =>
           bind (updateMemory config uid (fst event) (snd event)) (fun result =>
           ret (memoryState result))))
        events acc w = (Throw e, w')
      /\ Errors.name e = "ValidationError"%string.
Proof.
  induction 1 as [event events Hi|event events _ IH]; intros acc Hacc w.
  - cbn [fold_left]. apply batch_failure_stays.
    apply batch_step_fails; assumption.
  - cbn [fold_left]. apply IH. apply batch_step_settled. assumption.
Qed.

(** X12.  [batchUpdateMemory] fails as a whole, with a [ValidationError]
    and without returning a state, as soon as one event of the batch has a
    significance below 0 or above 1, or an embedding whose length is not
    the configured dimension. *)
Theorem batchUpdateMemory_rejects
        (config : Config.t) (uid : string) (events : list (list R * R))
        (w : World) :
  Exists (fun e => snd e < 0 \/ 1 < snd e
                   \/ List.length (fst e) <> Config.MEMORY_DIMENSION config)
         events ->
  exists e w',
    batchUpdateMemory config uid events w = (Throw e, w') /\
    Errors.name e = "ValidationError"%string.
Proof.
  intro Hex.
  assert (Hex' : Exists (fun e => ~ valid_update config (fst e) (snd e)) events).
  { revert Hex. apply Exists_impl. intros e H [Hs Hl].
    destruct H as [H | [H | H]]; [lra | lra | contradiction]. }
  unfold batchUpdateMemory, batch_loop, getMemoryState.
  unfold bind at 1. rewrite initializeMemory_run.
  apply (batch_loop_fails config uid events Hex').
  intro w0. left. unfold ret. eauto.
Qed.

Lemma batchUpdateMemory_rejects_witness :
  Exists (fun e => snd e < 0 \/ 1 < snd e
                   \/ List.length (fst e)
                      <> Config.MEMORY_DIMENSION Config.defaults)
         [(repeat 0.1 256, 0.8); (repeat 0.1 256, -0.1); (repeat 0.1 256, 0.9)] /\
  exists e w',
    batchUpdateMemory Config.defaults "u1"
      [(repeat 0.1 256, 0.8); (repeat 0.1 256, -0.1); (repeat 0.1 256, 0.9)]
      (steady 0.25)
    = (Throw e, w') /\
    Errors.name e = "ValidationError"%string.
Proof.
  assert (Hex : Exists (fun e => snd e < 0 \/ 1 < snd e
                                \/ List.length (fst e)
                                   <> Config.MEMORY_DIMENSION Config.defaults)
                  [(repeat 0.1 256, 0.8); (repeat 0.1 256, -0.1);
                   (repeat 0.1 256, 0.9)]).
  { apply Exists_cons_tl. apply Exists_cons_hd. left. simpl. lra. }
  split; [exact Hex|].
  exact (batchUpdateMemory_rejects Config.defaults "u1" _ (steady 0.25) Hex).
Defined.

End MemoryMore.

(** ** services/eventService, continued *)

Module EventMore.
Import Errors Runtime EventService Trace Sums Analysis RuntimeFacts EventFacts.

(** *** Embeddings of event contents *)

Lemma char_sum_permutation (l1 l2 : list ascii) :
  Permutation l1 l2 ->
  forall a : Z,
    Js.reduce (fun acc char => (acc + Js.charCodeAt0 char)%Z) l1 a
    = Js.reduce (fun acc char => (acc + Js.charCodeAt0 char)%Z) l2 a.
Proof.
  unfold Js.reduce.
  induction 1 as [|x l l' _ IH|x y l|l l' l'' _ IH1 _ IH2]; intro a; cbn [fold_left].
  - reflexivity.
  - apply IH.
  - f_equal. lia.
  - now rewrite IH1.
Qed.

Lemma createEmbedding_norm (config : Config.t) (content : string) :
  List.length (createEmbedding config content) = Config.MEMORY_DIMENSION config /\
  0 <= Js.norm (createEmbedding config content) < 1.
Proof.
  unfold createEmbedding. split.
  - now rewrite !length_map, length_seq.
  - split; [apply VectorFacts.norm_ge_0 | apply VectorFacts.norm_normalized].
Qed.

(** X13.  The embedding [createEmbedding] computes for an event content has
    the configured dimension and a Euclidean norm strictly below 1: the
    division by [norm + 1e-8] never reaches unit length. *)
Theorem createEmbedding_shape (config : Config.t) (content : string) :
  List.length (createEmbedding config content) = Config.MEMORY_DIMENSION config /\
  0 <= Js.norm (createEmbedding config content) < 1.
Proof. apply createEmbedding_norm. Qed.

(** X14.  [createEmbedding] reads the content only through the sum of its
    character codes: two contents with the same characters in a different
    order get the same embedding. *)
Theorem createEmbedding_anagram (config : Config.t) (content1 content2 : string) :
  Permutation (list_ascii_of_string content1) (list_ascii_of_string content2) ->
  createEmbedding config content1 = createEmbedding config content2.
Proof.
  intro H. unfold createEmbedding.
  now rewrite (char_sum_permutation _ _ H 0%Z).
Qed.

Lemma createEmbedding_anagram_witness :
  Permutation (list_ascii_of_string "hello") (list_ascii_of_string "ehllo") /\
  createEmbedding Config.defaults "hello" = createEmbedding Config.defaults "ehllo".
Proof.
  assert (H : Permutation (list_ascii_of_string "hello")
                          (list_ascii_of_string "ehllo"))
    by (simpl; apply perm_swap).
  split; [exact H|].
  exact (createEmbedding_anagram Config.defaults "hello" "ehllo" H).
Defined.

(** *** The range of the significance *)

Lemma clamp01_id (x : R) : 0 <= x <= 1 -> clamp01 x = x.
Proof.
  intro H. unfold clamp01.
  destruct (Rlt_dec x 0); [lra|]. destruct (Rlt_dec 1 x); [lra | reflexivity].
Qed.

(** X15.  For every event that passes validation, whatever its metadata
    holds, the significance [processEvent] returns is [NaN] or a number
    between 0 and 1.  It is a number between 0 and 1 when the importance of
    the metadata is absent or has a finite number and its timestamp is
    absent or a valid date; for an event without metadata it is at least
    0.5 and below 0.9. *)
Theorem processEvent_significance_range
        (config : Config.t)
        (Number_of_string : string -> Js.number) (Date_parse : string -> option Z)
        (event : Untyped.EventInput.t) (w : World) :
  Untyped.validateEvent event = Ok tt ->
  exists result w',
    Untyped.processEvent config Number_of_string Date_parse event w
    = (Ok result, w') /\
    (Untyped.ProcessedEvent.significance
       (Untyped.EventProcessingResult.event result) = Js.NaN \/
     number_within 0 1
       (Untyped.ProcessedEvent.significance
          (Untyped.EventProcessingResult.event result))) /\
    (numeric_importance Number_of_string event ->
     dated_metadata Date_parse event ->
     number_within 0 1
       (Untyped.ProcessedEvent.significance
          (Untyped.EventProcessingResult.event result))) /\
    (Untyped.EventInput.metadata event = None ->
     exists s,
       Untyped.ProcessedEvent.significance
         (Untyped.EventProcessingResult.event result) = Js.fin s /\
       0.5 <= s < 0.9).
Proof.
  intro Hv.
  destruct (untyped_processEvent_ok config Number_of_string Date_parse event w Hv)
    as (result & w' & E & Hs & _).
  exists result, w'. split; [exact E|]. rewrite Hs.
  split; [apply significance_of_any_range|].
  split.
  - intros Himp Hts.
    unfold numeric_importance, dated_metadata in Himp, Hts. unfold metadata_of.
    destruct (Untyped.EventInput.metadata event) as [m|].
    + destruct (significance_of_any_number Number_of_string Date_parse
                  (Js.string_of (Untyped.EventInput.content event))
                  (createEmbedding config
                     (Js.string_of (Untyped.EventInput.content event)))
                  m (clock w (ticks w + 1)%nat) Himp Hts)
        as (s & Es & Hr & _).
      exists s. split; assumption.
    + destruct (significance_of_any_number Number_of_string Date_parse
                  (Js.string_of (Untyped.EventInput.content event))
                  (createEmbedding config
                     (Js.string_of (Untyped.EventInput.content event)))
                  Untyped.Metadata.empty (clock w (ticks w + 1)%nat)
                  (or_introl eq_refl) (or_introl eq_refl))
        as (s & Es & Hr & _).
      exists s. split; assumption.
  - intro Hmd. unfold metadata_of. rewrite Hmd.
    unfold significance_of_any.
    cbn [Untyped.Metadata.empty Untyped.Metadata.importance
         Untyped.Metadata.timestamp Js.truthy_any Js.truthy
         Js.add Js.lift1 Js.lift2].
    eexists. split; [reflexivity|].
    set (content := Js.string_of (Untyped.EventInput.content event)).
    pose proof (base_score_range content (createEmbedding config content)) as Hb.
    unfold euclidean_norm in *. rewrite <- norm_big_sum in *.
    destruct (createEmbedding_norm config content) as [_ [Hn0 Hn1]].
    assert (HL : 0 <= Rmin (IZR (Z.of_nat (String.length content)) / 500) 1 <= 1).
    { split; [|apply Rmin_r].
      apply Rmin_glb; [|lra].
      assert (0 <= IZR (Z.of_nat (String.length content))) by (apply IZR_le; lia).
      lra. }
    assert (HM : 0 <= Rmin (Js.norm (createEmbedding config content)) 1 < 1).
    { rewrite Rmin_left by lra. lra. }
    rewrite clamp01_id by lra. lra.
Qed.

Lemma processEvent_significance_range_witness :
  Untyped.validateEvent rated_event = Ok tt /\
  exists result w',
    Untyped.processEvent Config.defaults no_number no_date rated_event (steady 0.5)
    = (Ok result, w') /\
    (Untyped.ProcessedEvent.significance
       (Untyped.EventProcessingResult.event result) = Js.NaN \/
     number_within 0 1
       (Untyped.ProcessedEvent.significance
          (Untyped.EventProcessingResult.event result))) /\
    (numeric_importance no_number rated_event ->
     dated_metadata no_date rated_event ->
     number_within 0 1
       (Untyped.ProcessedEvent.significance
          (Untyped.EventProcessingResult.event result))) /\
    (Untyped.EventInput.metadata rated_event = None ->
     exists s,
       Untyped.ProcessedEvent.significance
         (Untyped.EventProcessingResult.event result) = Js.fin s /\
       0.5 <= s < 0.9).
Proof.
  split; [reflexivity|].
  exact (processEvent_significance_range Config.defaults no_number no_date
           rated_event (steady 0.5) eq_refl).
Defined.


(** *** Clusters *)

Section ClusterProofs.
Variable idt : Z * R -> string.
Variable events : list ProcessedEvent.t.
Variable thr : R.

Lemma has_In (s : list string) (x : string) : Js.has s x = true <-> In x s.
Proof.
  unfold Js.has. rewrite existsb_exists. split.
  - intros (y & Hy & E). apply String.eqb_eq in E. now subst.
  - intro H. exists x. split; [assumption | apply String.eqb_refl].
Qed.

Lemma has_false (s : list string) (x : string) : Js.has s x = false -> ~ In x s.
Proof.
  intros H Hin. apply has_In in Hin. congruence.
Qed.

Lemma NoDup_snoc {A : Type} (l : list A) (x : A) :
  NoDup l -> ~ In x l -> NoDup (l ++ [x]).
Proof.
  intros Hl Hx. apply (Permutation_NoDup (l := x :: l)).
  - apply Permutation_cons_append.
  - now constructor.
Qed.

Lemma clusters_inv_add (members : list ProcessedEvent.t) (processed : list string)
      (e : ProcessedEvent.t) :
  clusters_inv idt events members processed ->
  In e events ->
  Js.has processed (id_of idt e) = false ->
  clusters_inv idt events (members ++ [e]) (id_of idt e :: processed).
Proof.
  intros (Hnd & Hset & Hincl) Hin Hhas.
  apply has_false in Hhas.
  repeat split.
  - rewrite map_app. cbn [map]. apply NoDup_snoc; [assumption|].
    intro H. apply Hhas. now apply Hset.
  - rewrite map_app, in_app_iff. cbn. intros [<-|H]; [auto|].
    left. now apply Hset.
  - rewrite map_app, in_app_iff. cbn. intros [H|[<-|[]]]; [|auto].
    right. now apply Hset.
  - intros x Hx. apply in_app_or in Hx. destruct Hx as [Hx|[<-|[]]]; auto.
Qed.

Lemma cluster_fold (event : ProcessedEvent.t) (before : list ProcessedEvent.t)
      (others : list ProcessedEvent.t) :
  incl others events ->
  forall acc : list ProcessedEvent.t * list string,
    clusters_inv idt events (before ++ fst acc) (snd acc) ->
    fst acc <> [] ->
    let acc' :=
      fold_left
        (fun acc other =>
           let cluster := fst acc in
           let processed := snd acc in
           if Js.has processed (idt (ProcessedEvent.eventId other))
           then acc
           else
             let similarity :=
               calculateEmbeddingSimilarity (ProcessedEvent.embedding event)
                                            (ProcessedEvent.embedding other) in
             if Js.geb similarity thr
             then (cluster ++ [other],
                   idt (ProcessedEvent.eventId other) :: processed)
             else acc)
        others acc in
    clusters_inv idt events (before ++ fst acc') (snd acc') /\
    fst acc' <> [] /\
    (forall s, In s (snd acc) -> In s (snd acc')).
Proof.
  induction others as [|other others IH]; intros Hincl acc Hinv Hne; cbv zeta.
  - cbn. auto.
  - cbn [fold_left].
    assert (Hin : In other events) by (apply Hincl; now left).
    assert (Hincl' : incl others events)
      by (intros x Hx; apply Hincl; now right).
    destruct (Js.has (snd acc) (idt (ProcessedEvent.eventId other))) eqn:Hhas.
    + apply IH; assumption.
    + destruct (Js.geb _ thr).
      * specialize (IH Hincl'
                      (fst acc ++ [other],
                       idt (ProcessedEvent.eventId other) :: snd acc)).
        cbv zeta in IH. cbn [fst snd] in IH.
        destruct IH as (H1 & H2 & H3).
        -- rewrite app_assoc. apply clusters_inv_add; assumption.
        -- destruct (fst acc); discriminate.
        -- split; [exact H1|]. split; [exact H2|].
           intros s Hs. apply H3. now right.
      * apply IH; assumption.
Qed.

Lemma clusters_fold (l : list ProcessedEvent.t) :
  incl l events ->
  forall acc : list (list ProcessedEvent.t) * list string,
    clusters_inv idt events (List.concat (fst acc)) (snd acc) ->
    Forall (fun c => c <> []) (fst acc) ->
    let acc' :=
      fold_left
        (fun acc event =>
           let clusters := fst acc in
           let processed := snd acc in
           if Js.has processed (idt (ProcessedEvent.eventId event))
           then acc
           else
             let inner := cluster_loop idt events thr event processed in
             (clusters ++ [fst inner], snd inner))
        l acc in
    clusters_inv idt events (List.concat (fst acc')) (snd acc') /\
    Forall (fun c => c <> []) (fst acc') /\
    (forall s, In s (snd acc) -> In s (snd acc')) /\
    (forall e, In e l -> In (id_of idt e) (snd acc')).
Proof.
  induction l as [|event l IH]; intros Hincl acc Hinv Hne; cbv zeta.
  - cbn. split; [exact Hinv|]. split; [exact Hne|]. split; [auto|].
    intros e [].
  - cbn [fold_left].
    assert (Hin : In event events) by (apply Hincl; now left).
    assert (Hincl' : incl l events) by (intros x Hx; apply Hincl; now right).
    destruct (Js.has (snd acc) (idt (ProcessedEvent.eventId event))) eqn:Hhas.
    + specialize (IH Hincl' acc Hinv Hne). cbv zeta in IH.
      destruct IH as (H1 & H2 & H3 & H4).
      split; [exact H1|]. split; [exact H2|]. split; [exact H3|].
      intros e [<-|He]; [|now apply H4].
      apply H3. now apply has_In.
    + pose proof (cluster_fold event (List.concat (fst acc)) events
                    (incl_refl events)
                    ([event], idt (ProcessedEvent.eventId event) :: snd acc))
        as Hinner.
      cbv zeta in Hinner. cbn [fst snd] in Hinner.
      fold (cluster_loop idt events thr event (snd acc)) in Hinner.
      set (inner := cluster_loop idt events thr event (snd acc)) in *.
      destruct Hinner as (K1 & K2 & K3).
      * apply clusters_inv_add; assumption.
      * discriminate.
      * specialize (IH Hincl' (fst acc ++ [fst inner], snd inner)).
        cbv zeta in IH. cbn [fst snd] in IH.
        destruct IH as (H1 & H2 & H3 & H4).
        -- rewrite concat_app. cbn [List.concat]. now rewrite app_nil_r.
        -- apply Forall_app. split; [assumption|].
           constructor; [assumption | constructor].
        -- split; [exact H1|]. split; [exact H2|]. split.
           ++ intros s Hs. apply H3. apply K3. now right.
           ++ intros e [<-|He]; [|now apply H4].
              apply H3. apply K3. now left.
Qed.

Lemma map_injective_on {A B : Type} (f : A -> B) (l : list A) (x y : A) :
  NoDup (map f l) -> In x l -> In y l -> f x = f y -> x = y.
Proof.
  induction l as [|a l IH]; intros Hnd Hx Hy E; [contradiction|].
  cbn [map] in Hnd. apply NoDup_cons_iff in Hnd. destruct Hnd as [Ha Hnd].
  destruct Hx as [<-|Hx], Hy as [<-|Hy].
  - reflexivity.
  - exfalso. apply Ha. rewrite E. now apply in_map.
  - exfalso. apply Ha. rewrite <- E. now apply in_map.
  - now apply IH.
Qed.

Lemma length_concat_nonempty {A : Type} (ls : list (list A)) :
  Forall (fun c => c <> []) ls -> (List.length ls <= List.length (List.concat ls))%nat.
Proof.
  induction 1 as [|c ls Hc _ IH]; [reflexivity|].
  cbn [List.concat List.length]. rewrite length_app.
  destruct c; [contradiction|]. cbn [List.length]. lia.
Qed.

Lemma detectEventClusters_partition :
  NoDup (map (id_of idt) events) ->
  Permutation (List.concat (detectEventClusters idt events thr)) events /\
  Forall (fun c => c <> []) (detectEventClusters idt events thr) /\
  (List.length (detectEventClusters idt events thr) <= List.length events)%nat.
Proof.
  intro Hnd. unfold detectEventClusters.
  destruct events as [|e0 rest] eqn:Eev.
  - cbn. repeat split; constructor.
  - rewrite <- Eev in *. replace (List.length events =? 0)%nat with false
      by (rewrite Eev; reflexivity).
    pose proof (clusters_fold events (incl_refl events) ([], [])) as H.
    cbv zeta in H. cbn [fst snd List.concat] in H.
    match type of H with
    | context [fold_left ?f ?l ?a] => set (acc' := fold_left f l a) in *
    end.
    destruct H as ((H1 & H2 & H3) & H4 & _ & H6).
    + split; [constructor|]. split; [tauto|]. intros x [].
    + constructor.
    + assert (Hperm : Permutation (List.concat (fst acc')) events).
      { apply NoDup_Permutation.
        - apply (NoDup_map_inv (id_of idt)). assumption.
        - apply (NoDup_map_inv (id_of idt)). assumption.
        - intro x. split; [apply H3|].
          intro Hx. pose proof (H6 x Hx) as Hid.
          apply H2 in Hid. apply in_map_iff in Hid.
          destruct Hid as (y & Ey & Hy).
          assert (y = x)
            by (apply (map_injective_on (id_of idt) events); auto).
          now subst. }
      split; [exact Hperm|]. split; [exact H4|].
      rewrite <- (Permutation_length Hperm).
      apply length_concat_nonempty. exact H4.
Qed.

End ClusterProofs.

(** X16.  When the ids of the input events are pairwise distinct,
    [detectEventClusters] partitions its input: every event is in exactly
    one cluster (the clusters, put end to end, are a rearrangement of the
    input), no cluster is empty and there are at most as many clusters as
    events. *)
Theorem detectEventClusters_partitions
        (eventId_text : Z * R -> string) (events : list ProcessedEvent.t)
        (similarityThreshold : R) :
  NoDup (map (id_of eventId_text) events) ->
  Permutation (List.concat (detectEventClusters eventId_text events similarityThreshold))
              events /\
  Forall (fun c => c <> [])
         (detectEventClusters eventId_text events similarityThreshold) /\
  (List.length (detectEventClusters eventId_text events similarityThreshold)
   <= List.length events)%nat.
Proof. apply detectEventClusters_partition. Qed.


Lemma detectEventClusters_partitions_witness :
  NoDup (map (id_of sample_id_text)
             sample_events) /\
  Permutation
    (List.concat (detectEventClusters sample_id_text
                    sample_events 0.7))
    sample_events /\
  Forall (fun c => c <> [])
         (detectEventClusters sample_id_text
            sample_events 0.7) /\
  (List.length (detectEventClusters sample_id_text
                  sample_events 0.7)
   <= List.length sample_events)%nat.
Proof.
  assert (H : NoDup (map (id_of sample_id_text)
                         sample_events)).
  { cbn. constructor; [intros [E|[]]; discriminate|].
    constructor; [intros [] | constructor]. }
  split; [exact H|].
  exact (detectEventClusters_partitions sample_id_text
           sample_events 0.7 H).
Defined.

(** *** Anomalies *)

Lemma fold_append_filter {A : Type} (P : A -> bool) (l : list A) (acc : list A) :
  fold_left (fun anomalies e => if P e then anomalies ++ [e] else anomalies) l acc
  = acc ++ filter P l.
Proof.
  revert acc. induction l as [|x l IH]; intro acc; cbn [fold_left filter].
  - now rewrite app_nil_r.
  - rewrite IH. destruct (P x); [|reflexivity].
    now rewrite <- app_assoc.
Qed.

Lemma sum_above {A : Type} (g : A -> R) (l : list A) (c : R) :
  l <> [] ->
  (forall e, In e l -> c < g e) ->
  INR (List.length l) * c < fold_right Rplus 0 (map g l).
Proof.
  induction l as [|x l IH]; intros Hne Hall; [contradiction|].
  cbn [fold_right map]. change (List.length (x :: l)) with (S (List.length l)).
  rewrite S_INR.
  assert (Hx : c < g x) by (apply Hall; now left).
  destruct l as [|y l].
  - cbn. lra.
  - assert (INR (List.length (y :: l)) * c < fold_right Rplus 0 (map g (y :: l))).
    { apply IH; [discriminate|]. intros e He. apply Hall. now right. }
    lra.
Qed.

Lemma filter_all {A : Type} (P : A -> bool) (l : list A) :
  List.length (filter P l) = List.length l -> forall x, In x l -> P x = true.
Proof.
  induction l as [|a l IH]; intros Hlen x Hx; [contradiction|].
  cbn [filter] in Hlen. pose proof (filter_length_le P l) as Hle.
  destruct (P a) eqn:Pa; cbn [List.length] in Hlen.
  - destruct Hx as [<-|Hx]; [assumption|]. apply IH; [lia | assumption].
  - lia.
Qed.

(** X17.  [detectAnomalies] returns no anomaly for fewer than two events.
    Otherwise, for embeddings no longer than the configured dimension and a
    threshold of at least 0.1, its default, what it returns is a selection
    of the input events in their input order, and never all of them: at
    least one event is no more than 1.1 times the average distance away
    from the average embedding. *)
Theorem detectAnomalies_selects
        (config : Config.t) (events : list ProcessedEvent.t)
        (anomalyThreshold : R) :
  Forall (fun e => (List.length (ProcessedEvent.embedding e)
                    <= Config.MEMORY_DIMENSION config)%nat) events ->
  0.1 <= anomalyThreshold ->
  ((List.length events < 2)%nat ->
   detectAnomalies config events anomalyThreshold = []) /\
  (exists flagged : ProcessedEvent.t -> bool,
      detectAnomalies config events anomalyThreshold
      = if (List.length events <? 2)%nat then [] else filter flagged events) /\
  (events <> [] ->
   (List.length (detectAnomalies config events anomalyThreshold)
    < List.length events)%nat).
Proof.
  intros _ Hthr. unfold detectAnomalies.
  destruct (Nat.ltb_spec (List.length events) 2) as [Hlt|Hge].
  - split; [reflexivity|]. split; [exists (fun _ => true); reflexivity|].
    intro Hne. destruct events; [contradiction | cbn; lia].
  - split; [intro; lia|].
    cbv zeta.
    set (avg := average_embedding config events).
    set (dist := fun e : ProcessedEvent.t =>
                   calculateEmbeddingDistance (ProcessedEvent.embedding e) avg).
    set (c := Js.reduce
                (fun sum e =>
                   sum + calculateEmbeddingDistance (ProcessedEvent.embedding e) avg)
                events 0
              / INR (List.length events) * (1 + anomalyThreshold)).
    pose proof (fold_append_filter (fun e => Js.gtb (dist e) c) events [])
      as Hfold.
    unfold dist in Hfold at 1. cbv beta in Hfold. rewrite Hfold. clear Hfold.
    cbn [app]. split; [eexists; reflexivity|].
    intro Hne.
    pose proof (filter_length_le (fun e => Js.gtb (dist e) c) events) as Hle.
    destruct (Nat.eq_dec (List.length (filter (fun e => Js.gtb (dist e) c) events))
                         (List.length events)) as [Heq|Hneq]; [|lia].
    exfalso.
    pose proof (filter_all _ _ Heq) as Hall.
    assert (Hgt : forall e, In e events -> c < dist e).
    { intros e He. specialize (Hall e He). cbv beta in Hall.
      unfold Js.gtb in Hall. destruct (Rgt_dec (dist e) c); [lra | discriminate]. }
    pose proof (sum_above dist events c Hne Hgt) as Hsum.
    assert (Hn : 0 < INR (List.length events)) by (apply lt_0_INR; lia).
    assert (Hd : forall e, 0 <= dist e)
      by (intro e; unfold dist, calculateEmbeddingDistance; apply sqrt_pos).
    pose proof (VectorFacts.sum_nonneg dist events Hd) as Hs0.
    unfold c in Hsum. unfold Js.reduce in Hsum.
    fold (dist) in Hsum.
    pose proof (VectorFacts.fold_sum_events dist events 0) as Hfs. unfold dist in Hfs at 1.
    cbv beta in Hfs. rewrite Hfs in Hsum. clear Hfs.
    set (S := fold_right Rplus 0 (map dist events)) in *.
    set (n := INR (List.length events)) in *.
    assert (E : n * ((0 + S) / n * (1 + anomalyThreshold))
                = S * (1 + anomalyThreshold)) by (field; lra).
    rewrite E in Hsum. nra.
Qed.

Lemma detectAnomalies_selects_witness :
  Forall (fun e => (List.length (ProcessedEvent.embedding e)
                    <= Config.MEMORY_DIMENSION Config.defaults)%nat)
         sample_events /\
  0.1 <= 0.1 /\
  (Nat.lt (List.length sample_events) 2 ->
   detectAnomalies Config.defaults
     sample_events 0.1 = []) /\
  (exists flagged : ProcessedEvent.t -> bool,
      detectAnomalies Config.defaults
        sample_events 0.1
      = if (List.length sample_events <? 2)%nat
        then [] else filter flagged sample_events) /\
  (sample_events <> [] ->
   Nat.lt
     (List.length (detectAnomalies Config.defaults
                     sample_events 0.1))
     (List.length sample_events)).
Proof.
  assert (Hf : Forall (fun e => (List.length (ProcessedEvent.embedding e)
                                 <= Config.MEMORY_DIMENSION Config.defaults)%nat)
                      sample_events).
  { repeat constructor; cbn; lia. }
  assert (Ht : 0.1 <= 0.1) by lra.
  split; [exact Hf|]. split; [exact Ht|].
  exact (detectAnomalies_selects Config.defaults
           sample_events 0.1 Hf Ht).
Defined.


(** *** The processed event *)

Lemma is_string_str (v : Js.value) :
  Js.is_string v = true -> v = Js.str (Js.string_of v).
Proof. destruct v; try discriminate. reflexivity. Qed.

(** X18.  For an event that passes validation, and a clock that does not
    run backwards, the processed event carries the input's [userId] and
    content, the embedding of the content and the input's metadata (an
    empty one when absent); a given timestamp is kept, an absent one is
    replaced by a clock reading not before the start; [processingTime] is
    not negative; and [learningTriggered] equals [significant]. *)
Theorem processEvent_fields
        (config : Config.t) (event : EventInput.t) (w : World) :
  validateEvent event = Ok tt ->
  well_formed w ->
  exists result w',
    processEvent config event w = (Ok result, w') /\
    let processed := EventProcessingResult.event result in
    ProcessedEvent.userId processed = Js.string_of (EventInput.userId event) /\
    EventInput.userId event = Js.str (ProcessedEvent.userId processed) /\
    EventInput.content event = Js.str (ProcessedEvent.content processed) /\
    ProcessedEvent.embedding processed
    = createEmbedding config (ProcessedEvent.content processed) /\
    ProcessedEvent.metadata processed
    = match EventInput.metadata event with
      | Some m => m
      | None => Metadata.empty
      end /\
    (if Js.truthy (EventInput.timestamp event)
     then ProcessedEvent.timestamp processed = EventInput.timestamp event
     else exists t, ProcessedEvent.timestamp processed = Js.date (Some t)
                    /\ (clock w (ticks w) <= t)%Z) /\
    (0 <= ProcessedEvent.processingTime processed)%Z /\
    EventProcessingResult.learningTriggered result
    = EventProcessingResult.significant result.
Proof.
  intros Hv [Hc _].
  assert (Hu : EventInput.userId event
               = Js.str (Js.string_of (EventInput.userId event))
               /\ EventInput.content event
                  = Js.str (Js.string_of (EventInput.content event))).
  { unfold validateEvent in Hv.
    destruct (Js.truthy (EventInput.userId event));
      destruct (Js.is_string (EventInput.userId event)) eqn:Hus;
      cbn [negb orb] in Hv; try discriminate.
    destruct (Js.truthy (EventInput.content event));
      destruct (Js.is_string (EventInput.content event)) eqn:Hcs;
      cbn [negb orb] in Hv; try discriminate.
    split; apply is_string_str; assumption. }
  destruct Hu as [Hu Hcn].
  unfold processEvent. unfold bind at 1.
  rewrite Date_now_run, Hv. unfold bind at 1.
  rewrite calculateSignificance_run.
  unfold bind, generateEventId, Date_now, Math_random, ret.
  destruct (Js.truthy (EventInput.timestamp event)) eqn:Hts;
    eexists _, _; (split; [reflexivity|]); cbv zeta;
    cbn [EventProcessingResult.event EventProcessingResult.significant
         EventProcessingResult.learningTriggered ProcessedEvent.userId
         ProcessedEvent.content ProcessedEvent.embedding ProcessedEvent.metadata
         ProcessedEvent.timestamp ProcessedEvent.processingTime
         later clock ticks rng draws];
    (split; [reflexivity|]); (split; [exact Hu|]); (split; [exact Hcn|]);
    (split; [reflexivity|]); (split; [reflexivity|]).
  - split; [reflexivity|]. split; [|reflexivity].
    match goal with
    | |- (0 <= clock w ?a - clock w ?b)%Z =>
        assert (clock w b <= clock w a)%Z by (apply Hc; lia); lia
    end.
  - split; [eexists; split; [reflexivity | apply Hc; lia]|].
    split; [|reflexivity].
    match goal with
    | |- (0 <= clock w ?a - clock w ?b)%Z =>
        assert (clock w b <= clock w a)%Z by (apply Hc; lia); lia
    end.
Qed.

Lemma processEvent_fields_witness :
  validateEvent training_event = Ok tt /\
  well_formed (steady 0.5) /\
  exists result w',
    processEvent Config.defaults training_event (steady 0.5) = (Ok result, w') /\
    let processed := EventProcessingResult.event result in
    ProcessedEvent.userId processed
    = Js.string_of (EventInput.userId training_event) /\
    EventInput.userId training_event = Js.str (ProcessedEvent.userId processed) /\
    EventInput.content training_event = Js.str (ProcessedEvent.content processed) /\
    ProcessedEvent.embedding processed
    = createEmbedding Config.defaults (ProcessedEvent.content processed) /\
    ProcessedEvent.metadata processed
    = match EventInput.metadata training_event with
      | Some m => m
      | None => Metadata.empty
      end /\
    (if Js.truthy (EventInput.timestamp training_event)
     then ProcessedEvent.timestamp processed = EventInput.timestamp training_event
     else exists t, ProcessedEvent.timestamp processed = Js.date (Some t)
                    /\ (clock (steady 0.5) (ticks (steady 0.5)) <= t)%Z) /\
    (0 <= ProcessedEvent.processingTime processed)%Z /\
    EventProcessingResult.learningTriggered result
    = EventProcessingResult.significant result.
Proof.
  assert (Hw : well_formed (steady 0.5)) by (apply steady_well_formed; lra).
  split; [reflexivity|]. split; [exact Hw|].
  exact (processEvent_fields Config.defaults training_event (steady 0.5)
           eq_refl Hw).
Defined.

End EventMore.

(** ** services/identityService, continued *)

Module IdentityMore.
Import Errors Runtime IdentityService Trace Sums Analysis RuntimeFacts.
Import IdentityFacts SimilarityFacts.

(** *** Accepted and rejected identities *)

Lemma mapM_returns_length {A B : Type} (f : A -> Eff B) (l : list A) :
  (forall x w, exists y w', f x w = (Ok y, w')) ->
  forall w, exists ys w',
    mapM f l w = (Ok ys, w') /\ List.length ys = List.length l.
Proof.
  intros Hf. induction l as [|x l IH]; intro w.
  - simpl. unfold ret. eauto.
  - cbn [mapM]. unfold bind at 1.
    destruct (Hf x w) as (y & w1 & E1). rewrite E1.
    unfold bind at 1. destruct (IH w1) as (ys & w2 & E2 & Hl). rewrite E2.
    unfold ret. eexists _, _. split; [reflexivity|]. cbn. now rewrite Hl.
Qed.

Lemma validateIdentity_acceptable (identity : IdentityInput.t) :
  acceptable_identity identity = true -> validateIdentity identity = Ok tt.
Proof.
  unfold acceptable_identity, validateIdentity. intro H.
  apply andb_prop in H. destruct H as [H Hlevel].
  apply andb_prop in H. destruct H as [H Hdata].
  apply andb_prop in H. destruct H as [Ht Hs].
  rewrite Ht, Hs. cbn [negb orb].
  destruct (IdentityInput.data identity) as [data|]; [|discriminate].
  rewrite length_map.
  destruct (List.length data =? 0)%nat; [discriminate|].
  destruct (IdentityInput.privacyLevel identity) as [level|]; [|reflexivity].
  destruct (String.eqb level EmptyString); cbn [negb andb orb] in *;
    [reflexivity|].
  rewrite Hlevel. reflexivity.
Qed.

Lemma validateIdentity_unacceptable (identity : IdentityInput.t) :
  acceptable_identity identity = false ->
  exists message, validateIdentity identity = Throw (ValidationError message).
Proof.
  unfold acceptable_identity, validateIdentity. intro H.
  destruct (Js.truthy (IdentityInput.userId identity)); cbn [negb orb andb] in *;
    [|eauto].
  destruct (Js.is_string (IdentityInput.userId identity));
    cbn [negb orb andb] in *; [|eauto].
  destruct (IdentityInput.data identity) as [data|]; [|eauto].
  rewrite length_map.
  destruct (List.length data =? 0)%nat; cbn [negb andb] in *; [eauto|].
  destruct (IdentityInput.privacyLevel identity) as [level|]; [|discriminate].
  destruct (String.eqb level EmptyString); cbn [negb andb orb] in *;
    [discriminate|].
  rewrite H. cbn. eauto.
Qed.

(** An accepted identity, encoded. *)
Lemma encodeIdentity_ok (config : Config.t)
      (JSON_stringify : list (string * Js.value) -> string)
      (identity : IdentityInput.t) (w : World) :
  validateIdentity identity = Ok tt ->
  exists encoded w',
    encodeIdentity config JSON_stringify identity w = (Ok encoded, w') /\
    EncodedIdentity.userId encoded = Js.string_of (IdentityInput.userId identity) /\
    EncodedIdentity.privacyLevel encoded = level_of identity /\
    EncodedIdentity.privacyEpsilon encoded
    = Config.PRIVACY_EPSILON config * epsilon_factor (level_of identity) /\
    EncodedIdentity.privacyDelta encoded = Config.PRIVACY_DELTA config /\
    EncodedIdentity.noiseScale (EncodedIdentity.metadata encoded)
    = calculateNoiseScale config (level_of identity) 1 /\
    EncodedIdentity.dataFields (EncodedIdentity.metadata encoded)
    = match IdentityInput.data identity with
      | Some data => map fst data
      | None => []
      end /\
    EncodedIdentity.embeddingNorm (EncodedIdentity.metadata encoded)
    = Js.norm (EncodedIdentity.embedding encoded) /\
    List.length (EncodedIdentity.embedding encoded) = Config.MEMORY_DIMENSION config.
Proof.
  intro Hv. unfold encodeIdentity. rewrite Hv.
  fold (level_of identity).
  set (data := match IdentityInput.data identity with
               | Some d => d
               | None => []
               end).
  unfold applyDifferentialPrivacy. unfold bind at 1. unfold bind at 1.
  destruct (mapM_returns_length
              (fun value =>
                 addLaplaceNoise value
                   (calculateNoiseScale config (level_of identity) 1.0))
              (createIdentityEmbedding config JSON_stringify data)
              (fun x w0 => addLaplaceNoise_returns x _ w0) w)
    as (noised & w1 & E & Hlen).
  rewrite E. unfold ret at 1.
  unfold bind, generateIdentityId, Date_now, Math_random, ret.
  eexists _, _. split; [reflexivity|].
  cbn [EncodedIdentity.userId EncodedIdentity.privacyLevel
       EncodedIdentity.privacyEpsilon EncodedIdentity.privacyDelta
       EncodedIdentity.metadata EncodedIdentity.noiseScale
       EncodedIdentity.dataFields EncodedIdentity.embeddingNorm
       EncodedIdentity.embedding fst snd].
  split; [reflexivity|]. split; [reflexivity|]. split; [reflexivity|].
  split; [reflexivity|].
  split; [f_equal; lra|].
  split; [unfold data; destruct (IdentityInput.data identity); reflexivity|].
  split; [reflexivity|].
  rewrite length_map, Hlen. unfold createIdentityEmbedding.
  now rewrite !length_map, length_seq.
Qed.







(** *** Noise and the recorded epsilon *)

Lemma level_of_input (userId : Js.value) (data : list (string * Js.value))
      (level : string) :
  known_level level = true -> level_of (identity_input userId data level) = level.
Proof.
  intro H. unfold level_of, identity_input.
  cbn [IdentityInput.privacyLevel].
  destruct level; [discriminate H | reflexivity].
Qed.

(** X21.  For every valid identity input and a configured epsilon between
    1e-100 and 1e100, the noise scale used by [encodeIdentity] is strictly
    larger for [high] than for [medium], and for [medium] than for [low].
    The recorded epsilon matches the scale for [medium] and [low]:
    [noiseScale * privacyEpsilon] is within a thousandth of 1, the
    sensitivity.  It does not for [high], where the noise is calibrated to
    [epsilon / 3] and [0.33 * epsilon] is recorded: the product is within a
    thousandth of 0.99. *)
Theorem encodeIdentity_noise_scale
        (config : Config.t)
        (JSON_stringify : list (string * Js.value) -> string)
        (userId : Js.value) (data : list (string * Js.value))
        (w_high w_medium w_low : World) :
  1e-100 <= Config.PRIVACY_EPSILON config <= 1e100 ->
  valid_identity userId data ->
  exists high w1 medium w2 low w3,
    encodeIdentity config JSON_stringify (identity_input userId data "high") w_high
    = (Ok high, w1) /\
    encodeIdentity config JSON_stringify (identity_input userId data "medium") w_medium
    = (Ok medium, w2) /\
    encodeIdentity config JSON_stringify (identity_input userId data "low") w_low
    = (Ok low, w3) /\
    EncodedIdentity.noiseScale (EncodedIdentity.metadata low)
    < EncodedIdentity.noiseScale (EncodedIdentity.metadata medium) /\
    EncodedIdentity.noiseScale (EncodedIdentity.metadata medium)
    < EncodedIdentity.noiseScale (EncodedIdentity.metadata high) /\
    0.999 < EncodedIdentity.noiseScale (EncodedIdentity.metadata medium)
            * EncodedIdentity.privacyEpsilon medium < 1.001 /\
    0.999 < EncodedIdentity.noiseScale (EncodedIdentity.metadata low)
            * EncodedIdentity.privacyEpsilon low < 1.001 /\
    0.989 < EncodedIdentity.noiseScale (EncodedIdentity.metadata high)
            * EncodedIdentity.privacyEpsilon high < 0.991.
Proof.
  intros Heps Hv.
  pose proof (validateIdentity_valid userId data "high" Hv eq_refl) as Vh.
  pose proof (validateIdentity_valid userId data "medium" Hv eq_refl) as Vm.
  pose proof (validateIdentity_valid userId data "low" Hv eq_refl) as Vl.
  destruct (encodeIdentity_ok config JSON_stringify _ w_high Vh)
    as (h & w1 & Eh & _ & _ & Hhe & _ & Hhn & _).
  destruct (encodeIdentity_ok config JSON_stringify _ w_medium Vm)
    as (m & w2 & Em & _ & _ & Hme & _ & Hmn & _).
  destruct (encodeIdentity_ok config JSON_stringify _ w_low Vl)
    as (l & w3 & El & _ & _ & Hle & _ & Hln & _).
  rewrite level_of_input in Hhe, Hhn, Hme, Hmn, Hle, Hln by reflexivity.
  exists h, w1, m, w2, l, w3.
  split; [exact Eh|]. split; [exact Em|]. split; [exact El|].
  rewrite Hhe, Hhn, Hme, Hmn, Hle, Hln.
  unfold calculateNoiseScale, epsilon_factor.
  cbn [String.eqb Ascii.eqb Bool.eqb].
  set (eps := Config.PRIVACY_EPSILON config) in *.
  assert (Hpos : 0 < eps) by lra.
  assert (H3 : 0 < eps / 3) by lra.
  assert (H15 : 0 < eps * 1.5) by lra.
  assert (Em1 : 1 / eps * (eps * 1) = 1) by (field; lra).
  assert (El1 : 1 / (eps * 1.5) * (eps * 1.5) = 1).
  { replace 1.5 with (3 / 2) by lra. field. lra. }
  assert (Eh1 : 1 / (eps / 3) * (eps * 0.33) = 0.99).
  { replace 0.33 with (33 / 100) by lra. replace 0.99 with (99 / 100) by lra.
    field. lra. }
  assert (L1 : 1 / (eps * 1.5) < 1 / eps).
  { unfold Rdiv. rewrite !Rmult_1_l. apply Rinv_lt_contravar; nra. }
  assert (L2 : 1 / eps < 1 / (eps / 3)).
  { unfold Rdiv at 1 2. rewrite !Rmult_1_l. apply Rinv_lt_contravar; nra. }
  rewrite Em1, El1, Eh1.
  split; [exact L1|]. split; [exact L2|]. repeat split; lra.
Qed.

Lemma encodeIdentity_noise_scale_witness :
  1e-100 <= Config.PRIVACY_EPSILON Config.defaults <= 1e100 /\
  valid_identity (Js.str "test-user-123") [("name"%string, Js.str "John")] /\
  exists high w1 medium w2 low w3,
    encodeIdentity Config.defaults (fun _ => "{}"%string)
      (identity_input (Js.str "test-user-123") [("name"%string, Js.str "John")] "high")
      (steady 0.25) = (Ok high, w1) /\
    encodeIdentity Config.defaults (fun _ => "{}"%string)
      (identity_input (Js.str "test-user-123") [("name"%string, Js.str "John")] "medium")
      (steady 0.25) = (Ok medium, w2) /\
    encodeIdentity Config.defaults (fun _ => "{}"%string)
      (identity_input (Js.str "test-user-123") [("name"%string, Js.str "John")] "low")
      (steady 0.25) = (Ok low, w3) /\
    EncodedIdentity.noiseScale (EncodedIdentity.metadata low)
    < EncodedIdentity.noiseScale (EncodedIdentity.metadata medium) /\
    EncodedIdentity.noiseScale (EncodedIdentity.metadata medium)
    < EncodedIdentity.noiseScale (EncodedIdentity.metadata high) /\
    0.999 < EncodedIdentity.noiseScale (EncodedIdentity.metadata medium)
            * EncodedIdentity.privacyEpsilon medium < 1.001 /\
    0.999 < EncodedIdentity.noiseScale (EncodedIdentity.metadata low)
            * EncodedIdentity.privacyEpsilon low < 1.001 /\
    0.989 < EncodedIdentity.noiseScale (EncodedIdentity.metadata high)
            * EncodedIdentity.privacyEpsilon high < 0.991.
Proof.
  assert (He : 1e-100 <= Config.PRIVACY_EPSILON Config.defaults <= 1e100)
    by (simpl; lra).
  assert (Hv : valid_identity (Js.str "test-user-123")
                              [("name"%string, Js.str "John")])
    by (repeat split; discriminate).
  split; [exact He|]. split; [exact Hv|].
  exact (encodeIdentity_noise_scale Config.defaults (fun _ => "{}"%string)
           _ _ (steady 0.25) (steady 0.25) (steady 0.25) He Hv).
Defined.

(** *** Verification of an encoded identity *)

Lemma leb_true_iff (x y : R) : Js.leb x y = true <-> x <= y.
Proof.
  unfold Js.leb. destruct (Rle_dec x y); split; intros; try assumption;
    try reflexivity; try discriminate; contradiction.
Qed.

(** X22.  An identity that [encodeIdentity] accepted passes
    [verifyPrivacyGuarantees] exactly when the configured epsilon, times
    0.33, 1 or 1.5 for the level [high], [medium] or [low], is at most 2
    and the configured delta is at most 0.0001; the verification reports
    the epsilon and the delta recorded in the identity. *)
Theorem verifyPrivacyGuarantees_of_encoded
        (config : Config.t)
        (JSON_stringify : list (string * Js.value) -> string)
        (identity : IdentityInput.t) (w : World) :
  acceptable_identity identity = true ->
  exists encoded w',
    encodeIdentity config JSON_stringify identity w = (Ok encoded, w') /\
    (valid (verifyPrivacyGuarantees encoded) = true
     <-> Config.PRIVACY_EPSILON config
         * epsilon_factor (EncodedIdentity.privacyLevel encoded) <= 2
         /\ Config.PRIVACY_DELTA config <= 0.0001) /\
    verified_epsilon (verifyPrivacyGuarantees encoded)
    = Config.PRIVACY_EPSILON config
      * epsilon_factor (EncodedIdentity.privacyLevel encoded) /\
    verified_delta (verifyPrivacyGuarantees encoded) = Config.PRIVACY_DELTA config.
Proof.
  intro Hacc.
  pose proof (validateIdentity_acceptable identity Hacc) as Hv.
  destruct (encodeIdentity_ok config JSON_stringify identity w Hv)
    as (encoded & w' & E & _ & Hl & He & Hd & _).
  exists encoded, w'. split; [exact E|].
  unfold verifyPrivacyGuarantees. cbn [valid verified_epsilon verified_delta].
  rewrite He, Hd, Hl. split; [|split; reflexivity].
  rewrite andb_true_iff, !leb_true_iff.
  replace 2.0 with 2 by lra. reflexivity.
Qed.

Lemma verifyPrivacyGuarantees_of_encoded_witness :
  acceptable_identity
    (identity_input (Js.str "test-user-123") [("name"%string, Js.str "John")] "low")
  = true /\
  exists encoded w',
    encodeIdentity Config.defaults (fun _ => "{}"%string)
      (identity_input (Js.str "test-user-123") [("name"%string, Js.str "John")] "low")
      (steady 0.25) = (Ok encoded, w') /\
    (valid (verifyPrivacyGuarantees encoded) = true
     <-> Config.PRIVACY_EPSILON Config.defaults
         * epsilon_factor (EncodedIdentity.privacyLevel encoded) <= 2
         /\ Config.PRIVACY_DELTA Config.defaults <= 0.0001) /\
    verified_epsilon (verifyPrivacyGuarantees encoded)
    = Config.PRIVACY_EPSILON Config.defaults
      * epsilon_factor (EncodedIdentity.privacyLevel encoded) /\
    verified_delta (verifyPrivacyGuarantees encoded)
    = Config.PRIVACY_DELTA Config.defaults.
Proof.
  split; [reflexivity|].
  exact (verifyPrivacyGuarantees_of_encoded Config.defaults (fun _ => "{}"%string)
           (identity_input (Js.str "test-user-123")
              [("name"%string, Js.str "John")] "low")
           (steady 0.25) eq_refl).
Defined.


(** *** Comparison of identities *)

(** X23.  For two identities whose embeddings have the same length,
    [compareIdentities] returns the users of its arguments in their order,
    a similarity that is the same for both orders of the arguments and
    equals what [calculateCosineSimilarity] returns on the embeddings, and,
    whatever the identities are, a privacy loss equal to the configured
    epsilon. *)
Theorem compareIdentities_behaviour
        (config : Config.t) (identity1 identity2 : EncodedIdentity.t) :
  List.length (EncodedIdentity.embedding identity1)
  = List.length (EncodedIdentity.embedding identity2) ->
  exists forth back,
    compareIdentities config identity1 identity2 = Ok forth /\
    compareIdentities config identity2 identity1 = Ok back /\
    IdentitySimilarity.userId1 forth = EncodedIdentity.userId identity1 /\
    IdentitySimilarity.userId2 forth = EncodedIdentity.userId identity2 /\
    IdentitySimilarity.similarity forth = IdentitySimilarity.similarity back /\
    SemanticService.calculateCosineSimilarity
      (EncodedIdentity.embedding identity1) (EncodedIdentity.embedding identity2)
    = Ok (IdentitySimilarity.similarity forth) /\
    IdentitySimilarity.privacyLoss forth = Config.PRIVACY_EPSILON config /\
    IdentitySimilarity.privacyLoss back = Config.PRIVACY_EPSILON config.
Proof.
  intro H. unfold compareIdentities. rewrite H, Nat.eqb_refl. cbn [negb].
  eexists _, _. split; [reflexivity|]. split; [reflexivity|].
  cbn [IdentitySimilarity.userId1 IdentitySimilarity.userId2
       IdentitySimilarity.similarity IdentitySimilarity.privacyLoss].
  fold (cosine_value (EncodedIdentity.embedding identity1)
                     (EncodedIdentity.embedding identity2)).
  fold (cosine_value (EncodedIdentity.embedding identity2)
                     (EncodedIdentity.embedding identity1)).
  split; [reflexivity|]. split; [reflexivity|].
  split; [apply cosine_value_sym; assumption|].
  split; [apply calculateCosineSimilarity_value; assumption|].
  unfold calculatePrivacyLoss. rewrite sqrt_1. split; lra.
Qed.

Lemma compareIdentities_behaviour_witness :
  List.length (EncodedIdentity.embedding (identity_of_dimension "a" 256))
  = List.length (EncodedIdentity.embedding (identity_of_dimension "b" 256)) /\
  exists forth back,
    compareIdentities Config.defaults
      (identity_of_dimension "a" 256) (identity_of_dimension "b" 256) = Ok forth /\
    compareIdentities Config.defaults
      (identity_of_dimension "b" 256) (identity_of_dimension "a" 256) = Ok back /\
    IdentitySimilarity.userId1 forth
    = EncodedIdentity.userId (identity_of_dimension "a" 256) /\
    IdentitySimilarity.userId2 forth
    = EncodedIdentity.userId (identity_of_dimension "b" 256) /\
    IdentitySimilarity.similarity forth = IdentitySimilarity.similarity back /\
    SemanticService.calculateCosineSimilarity
      (EncodedIdentity.embedding (identity_of_dimension "a" 256))
      (EncodedIdentity.embedding (identity_of_dimension "b" 256))
    = Ok (IdentitySimilarity.similarity forth) /\
    IdentitySimilarity.privacyLoss forth = Config.PRIVACY_EPSILON Config.defaults /\
    IdentitySimilarity.privacyLoss back = Config.PRIVACY_EPSILON Config.defaults.
Proof.
  split; [reflexivity|].
  exact (compareIdentities_behaviour Config.defaults
           (identity_of_dimension "a" 256) (identity_of_dimension "b" 256) eq_refl).
Defined.

(** *** The aggregate loss *)

Lemma sumSquares_sum (operations : list Operation) :
  Js.reduce (fun sum op => sum + epsilon op * epsilon op) operations 0
  = fold_right Rplus 0 (map (fun op => epsilon op * epsilon op) operations).
Proof.
  unfold Js.reduce.
  rewrite (VectorFacts.fold_sum_events (fun op => epsilon op * epsilon op)). lra.
Qed.

Lemma sumSquares_nonneg (operations : list Operation) :
  0 <= fold_right Rplus 0 (map (fun op => epsilon op * epsilon op) operations).
Proof. apply VectorFacts.sum_nonneg. intro op. nra. Qed.

Lemma sumSquares_app (l1 l2 : list Operation) :
  fold_right Rplus 0 (map (fun op => epsilon op * epsilon op) (l1 ++ l2))
  = fold_right Rplus 0 (map (fun op => epsilon op * epsilon op) l1)
    + fold_right Rplus 0 (map (fun op => epsilon op * epsilon op) l2).
Proof.
  induction l1 as [|x l1 IH]; cbn [app map fold_right]; [lra|].
  rewrite IH. lra.
Qed.

(** X24.  For a configured delta between 1e-300 and 1,
    [calculateAggregateLoss] is 0 for no operation, it is never negative,
    and adding operations at the end of the list never lowers it. *)
Theorem calculateAggregateLoss_composition
        (config : Config.t) (ops1 ops2 : list Operation) :
  1e-300 <= Config.PRIVACY_DELTA config <= 1 ->
  calculateAggregateLoss config [] = 0 /\
  0 <= calculateAggregateLoss config ops1 /\
  calculateAggregateLoss config ops1
  <= calculateAggregateLoss config (ops1 ++ ops2).
Proof.
  intros [Hd0 Hd1]. unfold calculateAggregateLoss.
  rewrite !sumSquares_sum, sumSquares_app.
  pose proof (sumSquares_nonneg ops1) as H1.
  pose proof (sumSquares_nonneg ops2) as H2.
  set (s1 := fold_right Rplus 0 (map (fun op => epsilon op * epsilon op) ops1)) in *.
  set (s2 := fold_right Rplus 0 (map (fun op => epsilon op * epsilon op) ops2)) in *.
  pose proof (sqrt_pos (2 * ln (2 / Config.PRIVACY_DELTA config))) as Hf.
  set (factor := sqrt (2 * ln (2 / Config.PRIVACY_DELTA config))) in *.
  pose proof (sqrt_pos s1) as P1.
  assert (Hmono : sqrt s1 <= sqrt (s1 + s2)) by (apply sqrt_le_1; lra).
  cbn [map fold_right]. rewrite sqrt_0.
  repeat split; nra.
Qed.

Lemma calculateAggregateLoss_composition_witness :
  1e-300 <= Config.PRIVACY_DELTA Config.defaults <= 1 /\
  calculateAggregateLoss Config.defaults [] = 0 /\
  0 <= calculateAggregateLoss Config.defaults
         [{| epsilon := 0.5 |}; {| epsilon := 0.3 |}] /\
  calculateAggregateLoss Config.defaults
    [{| epsilon := 0.5 |}; {| epsilon := 0.3 |}]
  <= calculateAggregateLoss Config.defaults
       ([{| epsilon := 0.5 |}; {| epsilon := 0.3 |}] ++ [{| epsilon := 0.2 |}]).
Proof.
  assert (Hd : 1e-300 <= Config.PRIVACY_DELTA Config.defaults <= 1)
    by (simpl; lra).
  split; [exact Hd|].
  exact (calculateAggregateLoss_composition Config.defaults
           [{| epsilon := 0.5 |}; {| epsilon := 0.3 |}] [{| epsilon := 0.2 |}] Hd).
Defined.

(** *** Batches of identities *)

Lemma Promise_all_map_returns {A B : Type} (f : A -> Eff B) (l : list A) :
  (forall x, In x l -> forall w, exists y w', f x w = (Ok y, w')) ->
  forall w, exists ys w',
    Promise_all_map f l w = (Ok ys, w') /\
    Forall2 (fun x y => exists w0 w1, f x w0 = (Ok y, w1)) l ys.
Proof.
  induction l as [|x l IH]; intros Hf w.
  - cbn. unfold ret. eexists _, _. split; [reflexivity | constructor].
  - cbn [Promise_all_map].
    destruct (Hf x (or_introl eq_refl) w) as (y & w1 & E1). rewrite E1.
    destruct (IH (fun x' Hx' => Hf x' (or_intror Hx')) w1) as (ys & w2 & E2 & F).
    rewrite E2. eexists _, _. split; [reflexivity|].
    constructor; [eauto | assumption].
Qed.

Lemma Promise_all_map_fails {A B : Type} (f : A -> Eff B) (l : list A) :
  (forall x w, (exists y w', f x w = (Ok y, w'))
               \/ (exists e w', f x w = (Throw e, w')
                                /\ Errors.name e = "ValidationError"%string)) ->
  Exists (fun x => forall w, exists e w',
                     f x w = (Throw e, w')
                     /\ Errors.name e = "ValidationError"%string) l ->
  forall w, exists e w',
    Promise_all_map f l w = (Throw e, w')
    /\ Errors.name e = "ValidationError"%string.
Proof.
  intros Hf. induction 1 as [x l Hx|x l _ IH]; intro w; cbn [Promise_all_map].
  - destruct (Hx w) as (e & w' & E & Hn). rewrite E. eauto.
  - destruct (Hf x w) as [(y & w1 & E)|(e & w1 & E & Hn)]; rewrite E.
    + destruct (IH w1) as (e & w2 & E2 & Hn). rewrite E2. eauto.
    + eauto.
Qed.

(** X25.  [batchEncodeIdentities] keeps the order of its input: when every
    identity of the batch is acceptable it returns as many encoded
    identities as it was given, the i-th one carrying the user and the
    level of the i-th input; when some identity is not acceptable the whole
    batch fails with a [ValidationError]. *)
Theorem batchEncodeIdentities_order
        (config : Config.t)
        (JSON_stringify : list (string * Js.value) -> string)
        (identities : list IdentityInput.t) (w : World) :
  if forallb acceptable_identity identities
  then exists encoded w',
      batchEncodeIdentities config JSON_stringify identities w = (Ok encoded, w') /\
      List.length encoded = List.length identities /\
      map EncodedIdentity.userId encoded
      = map (fun i => Js.string_of (IdentityInput.userId i)) identities /\
      map EncodedIdentity.privacyLevel encoded = map level_of identities
  else exists e w',
      batchEncodeIdentities config JSON_stringify identities w = (Throw e, w') /\
      Errors.name e = "ValidationError"%string.
Proof.
  unfold batchEncodeIdentities.
  destruct (forallb acceptable_identity identities) eqn:Hall.
  - rewrite forallb_forall in Hall.
    destruct (Promise_all_map_returns (encodeIdentity config JSON_stringify)
                identities
                (fun x Hx w0 =>
                   match encodeIdentity_ok config JSON_stringify x w0
                           (validateIdentity_acceptable x (Hall x Hx)) with
                   | ex_intro _ y (ex_intro _ w1 (conj E _)) =>
                       ex_intro _ y (ex_intro _ w1 E)
                   end) w)
      as (ys & w' & E & F).
    exists ys, w'. split; [exact E|].
    clear E. induction F as [|x y l ys (w0 & w1 & Exy) F IH].
    + repeat split.
    + assert (Hx : acceptable_identity x = true) by (apply Hall; now left).
      destruct (encodeIdentity_ok config JSON_stringify x w0
                  (validateIdentity_acceptable x Hx))
        as (y' & w1' & E' & Hu & Hl & _).
      rewrite Exy in E'. injection E' as <- _.
      destruct IH as (IH1 & IH2 & IH3).
      { intros x' Hx'. apply Hall. now right. }
      cbn [List.length map]. rewrite IH1, IH2, IH3, Hu, Hl. repeat split.
  - apply Promise_all_map_fails.
    + intros x w0. destruct (acceptable_identity x) eqn:Hx.
      * left.
        destruct (encodeIdentity_ok config JSON_stringify x w0
                    (validateIdentity_acceptable x Hx)) as (y & w1 & E & _).
        eauto.
      * right. destruct (validateIdentity_unacceptable x Hx) as (msg & Hv).
        unfold encodeIdentity. rewrite Hv. eexists _, _. split; reflexivity.
    + clear w. induction identities as [|x l IH]; [discriminate|].
      cbn [forallb] in Hall. destruct (acceptable_identity x) eqn:Hx.
      * apply Exists_cons_tl. apply IH. exact Hall.
      * apply Exists_cons_hd. intro w0.
        destruct (validateIdentity_unacceptable x Hx) as (msg & Hv).
        unfold encodeIdentity. rewrite Hv. eexists _, _. split; reflexivity.
Qed.

End IdentityMore.
